(* ===== verification/_CoqProject ===== *)
-Q . S2P
Prelude.v
CInt.v
Memory.v
Exec.v
Preserve.v
Growth.v
Overflow.v
Simulator.v
Phases.v
AppC.v
MemoryUsageC.v
WorkerC.v
Refinement.v
