(* ===== verification/Prelude.v ===== *)
(** * Verification of the memory-consumption simulators (ads-demo-service)

    The repository holds three standalone C programs that produce a known
    memory footprint for testing monitoring and alerting:

    - [src/app.c]: reserves and zero-fills 100 MiB, prints a readiness line
      with the process id, sleeps 60 s and then idles for ever in 10 s
      sleeps.  Its leak loop [start_memory_leak] (10 MiB chunks until 1 GiB
      has been leaked) is compiled in but its call is commented out.
    - [src/memory_usage_program.c]: the same program with a growth loop
      [increase_memory_usage] that counts from the initial 100 MiB up to
      1124 MiB; its call is commented out as well.
    - [src/worker.c]: an endless controller that allocates a 10 MiB
      payload, scans it at 4096-byte strides, sleeps 1 s and frees it.

    The programs share nothing at run time.  What they have in common is
    the C arithmetic they rely on and the C library they call (malloc,
    free, memset, printf, fprintf, sleep, getpid).  The development models
    that common ground once and each program on top of it.

    ** Files and what they model

    - [Prelude] (this file): shared notation (scope [cmodel_scope]),
      tactics, the hint database [cmodel], ceiling division [cdiv] with its
      lemmas, and list lemmas used by the trace theorems.
    - [CInt]: C integers at their width.  [int] is a 32-bit signed integer
      whose overflow is undefined behaviour: an [int] expression evaluates
      to [option Z] ([int_lit], [int_mul], [int_add]).  [size_t] is an
      unsigned integer of [size_bits] bits (class [DataModel], instances
      [ILP32] and [LP64]) that wraps around ([size_wrap], [size_add],
      [size_of_int], [size_div]).
    - [Memory]: the heap.  A [heap] is a finite map from block
      identifiers to blocks; a block has a size and a log of byte extents
      written to it, so that zero-filling 100 MiB is one log entry and the
      model stays executable.  Operations: [heap_alloc], [heap_free],
      [heap_memset], [heap_load], with the C faults they can raise.  The
      invariant is [heap_wf]; [heap_live_bytes] is the footprint.  The
      abstract view of a block is the partial function [block_read].
    - [Exec]: the world a program runs in (heap, allocator policy, output
      trace, process id), outcomes ([Ok], [Fault], [OutOfFuel]), the
      state-and-fault monad [M] with its notation, the C library calls as
      monadic actions, and the loop combinator [while_] driven by fuel.
    - [Preserve]: relations between the world a run starts in and the
      world it stops in that hold for every outcome ([heap_kept],
      [wf_kept], [world_later]), proved call by call and carried through
      bind and [while_]; the tactic [solve_preserves].
    - [Growth]: the timed growth loop of the specification,
      parameterised by a [GrowthPlan]; its theory (number of steps, final
      size, failure behaviour, footprint) is proved once here.
    - [Overflow]: the [size_t] counter of the growth loop at its width:
      sizes written as megabyte constants cannot make it wrap, and
      [wrapping_plan], given in bytes, makes it wrap for ever.
    - [Simulator]: the operation [run(plan)] of the specification in the
      same monad, over a [Simulation] (the plan, the idle interval and the
      texts of a variant); the class [Simulated], the interface between a
      program and the specification.
    - [Phases]: the phase machine of the specification (starting,
      growing, idle) as a labelled step relation [sim_step] with the exit
      [sim_exit], its executable form [sim_next], and the refinement
      relation [run_refined] between a run and the machine.
    - [AppC]: [Module App], the translation of [src/app.c]: the
      constants, [start_memory_leak] and [main].
    - [MemoryUsageC]: [Module MemoryUsage], the translation of
      [src/memory_usage_program.c]: the constants,
      [increase_memory_usage] and [main].
    - [WorkerC]: [Module Worker], the translation of [src/worker.c]:
      [process_work_item], [process_work] with its [for] loop [scan],
      [controller] and [main].
    - [Refinement]: the simulations [app_simulation] and
      [usage_simulation] built from the constants of the two programs, the
      instances of [Simulated] for their [main] functions, and the
      theorems that tie the programs to the specification.

    ** Correspondence with the code

    Each C function is one monadic definition with the same name, written
    statement by statement: a local variable is a bound name, [malloc]
    returns a [ptr] that is compared with [Null], [break] is the loop
    result [Break], an early [return] is the branch that ends the
    function.  Constant expressions such as [LEAK_MEMORY_MB * 1024 * 1024]
    are evaluated in [int] arithmetic with the overflow check, then
    converted to [size_t] where C converts them.  A loop takes a fuel
    argument, the maximal number of iterations of its body; running out of
    fuel yields [OutOfFuel] with the world reached so far.

    ** Theorems

    - [CInt]: range and wrap-around lemmas; a megabyte constant [m]
      evaluates without overflow exactly when [-2048 <= m <= 2047].
    - [Memory]: every operation preserves [heap_wf]; [heap_memset]
      refines the update of the abstract byte function; allocation and
      release change [heap_live_bytes] by the block size and leave other
      blocks untouched.
    - [Exec]: monad laws up to pointwise equality (a setoid with [Proper]
      instances for bind and [while_]), fuel monotonicity of [while_].
    - [Growth]: the loop stops within [ceil((target - total) / step)]
      iterations for every allocator; with a willing allocator it runs
      exactly that many, the final size lies in
      [[target, target + step)], and the trace and footprint are given in
      closed form; a refusal stops the loop without a fault.
    - [Preserve]: every library call, and so every program built from
      them, keeps the heap well formed and ends in a later world; [load],
      the output calls and the loops over them leave the heap as it is.
    - [AppC]: [start_memory_leak] is an instance of the growth loop, so it
      stops within 103 iterations, leaks 1030 MiB when nothing fails and
      reports each step; [main] exits with status 1 and no readiness line
      when the first reservation fails, and otherwise never returns: for
      every fuel it is still idling with the 100 MiB block live and
      zero-filled.
    - [MemoryUsageC]: the same for [increase_memory_usage], whose counter
      starts at 100 MiB: 103 steps, the last report is 1130 MB; and for
      its [main].
    - [WorkerC]: while the allocator accepts the payload, every round of
      [controller] brings the heap back to what it was, and the worker
      never returns; [process_work] takes exactly 2560 iterations and
      writes nothing, so the payload stays indeterminate; when the
      allocator refuses the payload the worker reads through the null
      pointer, because [controller] does not test the result of [malloc].

    - [Simulator]: [run] exits with status 1 when the initial reservation
      fails, idles from the end of the startup delay when growth is
      disabled, and with growth enabled grows to the target, or up to the
      first refusal, and idles there; two plans whose counters differ by a
      constant run the same growth loop ([grow_shift]).
    - [Phases]: every state the machine reaches satisfies [sim_inv] (the
      size lies between the initial size and the target plus one step),
      the size never shrinks, idle is terminal; [run] refines the machine
      for every allocator and every fuel ([run_refines]), and so does
      every [Simulated] program.
    - [Refinement]: [main] of [src/app.c] and of
      [src/memory_usage_program.c] are [run] on their simulations and
      refine the machine; [start_memory_leak] and [increase_memory_usage]
      are the growth phase of [run] on the same simulations with growth
      enabled; a run with growth enabled idles at 1130 MiB after 103
      reports.

    A theorem with hypotheses is followed by a witness, a closed lemma
    that applies it to a concrete world: [demo_world] and [fresh_world]
    (an allocator that never refuses), [small_world] (35 MiB of memory),
    [barren_world] and [failing_world] (one request refused).

    ** Bounds and fuel

    The growth loops need at most 103 iterations (1024 / 10 rounded up, and
    (1124 - 100) / 10 rounded up), so fuel 103 is enough and any larger
    fuel gives the same result.  The [for] loop of the worker needs 2560
    iterations (10 MiB / 4096); [controller] takes the fuel of that loop
    as a second argument, and 2560 or more is enough.  The idle loop of
    [main] and the controller of the worker never end: their theorems
    hold for every fuel.  All sizes stay below [2^31], so they fit [int]
    and both [size_t] widths.

    ** Not modelled

    Buffering of the standard streams, signals and the termination of the
    process from outside, the layout of addresses inside the C library's
    allocator, and the time that [sleep] takes are outside the model: a
    [printf] is recorded as the text handed to the stream and a [sleep] as
    an event carrying its duration.

    The call of [process_work_item] in [src/worker.c] passes a [char]
    where the function declares a [char *] parameter; the model gives the
    parameter the type of what is passed, since the function only assigns
    to it.

    The theory of the growth loop assumes [target + step <= 2 ^ size_bits],
    so that the [size_t] counter does not wrap around; [Overflow] proves
    that sizes computed as in the sources satisfy it on both data models,
    and that the loop of a plan that does not satisfy it need not end.

    ** Plan

    The worker as a variant of the Simulator with a release in each step
    and a machine of its own; the buffering of [stdout]; a separation
    logic reading of the heap invariants. *)

From Stdlib Require Export ZArith Lia.
From stdpp Require Export base tactics option list numbers strings gmap pretty.

#[local] Open Scope Z_scope.

(** ** Notation scope *)

Declare Scope cmodel_scope.
Delimit Scope cmodel_scope with cm.

(** ** Hint database shared by the components *)

Create HintDb cmodel discriminated.
Create Rewrite HintDb cmodel.

(** ** Ceiling division

    [cdiv a b] is the least [q] with [a <= q * b] for [0 < b]: the number
    of steps of size [b] needed to cover a distance [a]. *)

Definition cdiv (a b : Z) : Z := (a + b - 1) / b.

Notation "a ⌈/⌉ b" := (cdiv a b) (at level 40, left associativity) : cmodel_scope.

(** The newline character that ends every line the programs print. *)
Definition nl : string := String (Ascii.ascii_of_nat 10) EmptyString.

(** ** Tactics *)

(** Case analysis on the first boolean test, [decide] or [match] on an
    option that blocks the goal. *)
Ltac case_branch :=
  match goal with
  | |- context [if ?b then _ else _] => destruct b eqn:?
  | |- context [match ?o with Some _ => _ | None => _ end] => destruct o eqn:?
  end.

(** Turn boolean comparisons on [Z] in the context into propositions. *)
Ltac zbool :=
  repeat match goal with
  | H : (_ <? _) = true |- _ => apply Z.ltb_lt in H
  | H : (_ <? _) = false |- _ => apply Z.ltb_ge in H
  | H : (_ <=? _) = true |- _ => apply Z.leb_le in H
  | H : (_ <=? _) = false |- _ => apply Z.leb_gt in H
  | H : (_ =? _) = true |- _ => apply Z.eqb_eq in H
  | H : (_ =? _) = false |- _ => apply Z.eqb_neq in H
  | H : (_ && _) = true |- _ => apply andb_true_iff in H as [? ?]
  | H : (_ && _) = false |- _ => apply andb_false_iff in H as [?|?]
  end.

(** ** Lemmas on ceiling division *)

Section Cdiv.
Context (b : Z) (Hb : 0 < b).

Lemma cdiv_eqn a : cdiv a b * b = a + b - 1 - (a + b - 1) mod b.
Proof. unfold cdiv. pose proof (Z.div_mod (a + b - 1) b). lia. Qed.

Lemma cdiv_upper a : a <= cdiv a b * b.
Proof. rewrite cdiv_eqn. pose proof (Z.mod_pos_bound (a + b - 1) b Hb). lia. Qed.

Lemma cdiv_lower a : cdiv a b * b < a + b.
Proof. rewrite cdiv_eqn. pose proof (Z.mod_pos_bound (a + b - 1) b Hb). lia. Qed.

Lemma cdiv_unique a q : a <= q * b < a + b → cdiv a b = q.
Proof. pose proof (cdiv_upper a). pose proof (cdiv_lower a). nia. Qed.

Lemma cdiv_nonpos a : a <= 0 → cdiv a b <= 0.
Proof. pose proof (cdiv_lower a). nia. Qed.

Lemma cdiv_pos a : 0 < a → 0 < cdiv a b.
Proof. pose proof (cdiv_upper a). nia. Qed.

Lemma cdiv_sub a : cdiv (a - b) b = cdiv a b - 1.
Proof.
  apply cdiv_unique.
  pose proof (cdiv_upper a). pose proof (cdiv_lower a). lia.
Qed.

Lemma cdiv_mono a a' : a <= a' → cdiv a b <= cdiv a' b.
Proof. pose proof (cdiv_upper a'). pose proof (cdiv_lower a). nia. Qed.

Lemma cdiv_exact q : cdiv (q * b) b = q.
Proof. apply cdiv_unique. lia. Qed.

End Cdiv.

#[export] Hint Resolve cdiv_upper cdiv_lower cdiv_nonpos cdiv_pos : cmodel.

(** ** Lemmas on lists *)

Lemma flat_map_seq_snoc {A} (f : nat → list A) (a n : nat) :
  flat_map f (seq a (S n)) = flat_map f (seq a n) ++ f (a + n)%nat.
Proof. rewrite seq_S, flat_map_app. simpl. by rewrite app_nil_r. Qed.

Lemma flat_map_seq_cons {A} (f : nat → list A) (a n : nat) :
  flat_map f (seq a (S n)) = f a ++ flat_map f (seq (S a) n).
Proof. reflexivity. Qed.

Lemma concat_replicate_comm {A} (n : nat) (l : list A) :
  concat (replicate n l) ++ l = l ++ concat (replicate n l).
Proof.
  induction n as [|n IH]; [by rewrite app_nil_r|].
  simpl. by rewrite <- app_assoc, IH.
Qed.

Lemma length_concat_replicate {A} (n : nat) (l : list A) :
  length (concat (replicate n l)) = (n * length l)%nat.
Proof. induction n as [|n IH]; [done|]. simpl. rewrite length_app, IH. lia. Qed.

Lemma length_flat_map_const {A B} (f : A → list B) (k : nat) (l : list A) :
  (∀ x, length (f x) = k) → length (flat_map f l) = (length l * k)%nat.
Proof.
  intros Hf. induction l as [|x l IH]; [done|].
  simpl. rewrite length_app, Hf, IH. lia.
Qed.
