(* ===== verification/CInt.v ===== *)
(** * C integers at their width

    The programs compute every size in [int] arithmetic
    ([LEAK_MEMORY_MB * 1024 * 1024]) and then hand it to a [size_t]
    parameter or compare it with a [size_t] counter.

    - [int] is a 32-bit signed integer.  Signed overflow is undefined
      behaviour, so an [int] expression evaluates to [option Z]: [None] as
      soon as one intermediate result leaves [[INT_MIN, INT_MAX]].
    - [size_t] is an unsigned integer of [size_bits] bits, 32 or 64
      (class [DataModel]).  Its arithmetic wraps around, and the
      conversion from [int] is reduction modulo [2 ^ size_bits].
    - [unsigned int], the parameter type of [sleep], has 32 bits. *)

From S2P Require Import Prelude.

#[local] Open Scope Z_scope.

(** ** [int] *)

Definition INT_MIN : Z := - 2 ^ 31.
Definition INT_MAX : Z := 2 ^ 31 - 1.

Definition int_range (z : Z) : bool := (INT_MIN <=? z) && (z <=? INT_MAX).

(** An integer constant of type [int]. *)
Definition int_lit (z : Z) : option Z := if int_range z then Some z else None.

(** [a * b] and [a + b] on [int] operands. *)
Definition int_mul (a b : option Z) : option Z :=
  x ← a; y ← b; int_lit (x * y).

Definition int_add (a b : option Z) : option Z :=
  x ← a; y ← b; int_lit (x + y).

Notation "a *ᵢ b" := (int_mul a b) (at level 40, left associativity) : cmodel_scope.
Notation "a +ᵢ b" := (int_add a b) (at level 50, left associativity) : cmodel_scope.

(** The expression [m * 1024 * 1024] that every program uses to turn a
    megabyte constant into bytes; C groups it as [(m * 1024) * 1024]. *)
Definition mebibytes (m : Z) : option Z :=
  (int_lit m *ᵢ int_lit 1024 *ᵢ int_lit 1024)%cm.

(** ** [size_t] *)

Class DataModel := {
  size_bits : Z;
  size_bits_cases : size_bits = 32 ∨ size_bits = 64
}.

(** The two data models of the platforms the programs are built for.  They
    are plain definitions: a theorem is stated for every [DataModel] and a
    run is evaluated at one of these. *)
Definition ILP32 : DataModel := {| size_bits := 32; size_bits_cases := or_introl eq_refl |}.
Definition LP64 : DataModel := {| size_bits := 64; size_bits_cases := or_intror eq_refl |}.

Section SizeT.
Context {DM : DataModel}.

Definition size_modulus : Z := 2 ^ size_bits.
Definition SIZE_MAX : Z := size_modulus - 1.

Definition size_wrap (z : Z) : Z := z mod size_modulus.

(** A value of type [size_t]. *)
Definition is_size (z : Z) : Prop := 0 <= z < size_modulus.

(** Conversion of an [int] value to [size_t]. *)
Definition size_of_int (z : Z) : Z := size_wrap z.

Definition size_add (a b : Z) : Z := size_wrap (a + b).

Definition size_mul (a b : Z) : Z := size_wrap (a * b).

Definition size_ltb (a b : Z) : bool := a <? b.

(** Unsigned division; dividing by zero is undefined behaviour. *)
Definition size_div (a b : Z) : option Z := if b =? 0 then None else Some (a / b).

End SizeT.

(** [sizeof(char)], a constant of type [size_t]. *)
Definition sizeof_char : Z := 1.

(** ** [unsigned int] *)

Definition UINT_MODULUS : Z := 2 ^ 32.
Definition uint_of_int (z : Z) : Z := z mod UINT_MODULUS.

(** ** Lemmas on [int] *)

Lemma int_range_spec z : int_range z = true ↔ INT_MIN <= z <= INT_MAX.
Proof. unfold int_range. rewrite andb_true_iff, Z.leb_le, Z.leb_le. done. Qed.

Lemma int_lit_Some z v : int_lit z = Some v ↔ v = z ∧ INT_MIN <= z <= INT_MAX.
Proof.
  unfold int_lit. destruct (int_range z) eqn:E.
  - apply int_range_spec in E. split; [by intros [= ->] | by intros [-> _]].
  - split; [done|]. intros [_ H%int_range_spec]. congruence.
Qed.

Lemma int_lit_in_range z : INT_MIN <= z <= INT_MAX → int_lit z = Some z.
Proof. intros. by apply int_lit_Some. Qed.

Lemma int_lit_None z : int_lit z = None ↔ z < INT_MIN ∨ INT_MAX < z.
Proof.
  unfold int_lit. destruct (int_range z) eqn:E.
  - apply int_range_spec in E. split; [done | lia].
  - split; [|done]. intros _.
    destruct (decide (INT_MIN <= z <= INT_MAX)) as [H%int_range_spec|]; [congruence | lia].
Qed.

Lemma int_mul_Some x y v :
  (Some x *ᵢ Some y)%cm = Some v ↔ v = x * y ∧ INT_MIN <= x * y <= INT_MAX.
Proof. apply int_lit_Some. Qed.

Lemma int_add_Some x y v :
  (Some x +ᵢ Some y)%cm = Some v ↔ v = x + y ∧ INT_MIN <= x + y <= INT_MAX.
Proof. apply int_lit_Some. Qed.

Lemma int_mul_None_l b : (None *ᵢ b)%cm = None.
Proof. done. Qed.

Lemma int_mul_None_r a : (a *ᵢ None)%cm = None.
Proof. by destruct a. Qed.

(** A megabyte constant turns into bytes without overflow exactly when it
    lies in [[-2048, 2047]]. *)
Lemma mebibytes_Some m v :
  mebibytes m = Some v ↔ v = m * 1048576 ∧ -2048 <= m <= 2047.
Proof.
  unfold mebibytes, INT_MIN, INT_MAX. split.
  - intros H.
    destruct (int_lit m) as [m'|] eqn:Em; [|done].
    apply int_lit_Some in Em as [-> Hm].
    change (int_lit 1024) with (Some 1024) in H.
    destruct (Some m *ᵢ Some 1024)%cm as [k|] eqn:Ek; [|done].
    apply int_mul_Some in Ek as [-> Hk].
    apply int_mul_Some in H as [-> Hv].
    unfold INT_MIN, INT_MAX in *. lia.
  - intros [-> Hm].
    rewrite (int_lit_in_range m) by (unfold INT_MIN, INT_MAX; lia).
    change (int_lit 1024) with (Some 1024).
    rewrite (proj2 (int_mul_Some m 1024 (m * 1024))) by (unfold INT_MIN, INT_MAX; lia).
    apply int_mul_Some. unfold INT_MIN, INT_MAX. lia.
Qed.

Lemma mebibytes_in_range m :
  -2048 <= m <= 2047 → mebibytes m = Some (m * 1048576).
Proof. intros. by apply mebibytes_Some. Qed.

Lemma mebibytes_None m : mebibytes m = None ↔ m < -2048 ∨ 2047 < m.
Proof.
  destruct (mebibytes m) as [v|] eqn:E.
  - apply mebibytes_Some in E. split; [done | lia].
  - split; [|done]. intros _.
    destruct (decide (-2048 <= m <= 2047)) as [H%mebibytes_in_range|]; [congruence | lia].
Qed.

(** ** Lemmas on [size_t] *)

Section SizeTheory.
Context {DM : DataModel}.

Lemma size_modulus_cases : size_modulus = 2 ^ 32 ∨ size_modulus = 2 ^ 64.
Proof. unfold size_modulus. destruct size_bits_cases as [-> | ->]; auto. Qed.

Lemma size_modulus_lower : 2 ^ 32 <= size_modulus.
Proof. destruct size_modulus_cases as [-> | ->]; lia. Qed.

Lemma size_modulus_pos : 0 < size_modulus.
Proof. pose proof size_modulus_lower. lia. Qed.

Lemma size_wrap_is_size z : is_size (size_wrap z).
Proof. apply Z.mod_pos_bound, size_modulus_pos. Qed.

Lemma size_wrap_small z : is_size z → size_wrap z = z.
Proof. apply Z.mod_small. Qed.

Lemma size_wrap_idemp z : size_wrap (size_wrap z) = size_wrap z.
Proof. apply size_wrap_small, size_wrap_is_size. Qed.

(** A non-negative [int] keeps its value when converted to [size_t]. *)
Lemma size_of_int_nonneg z : 0 <= z <= INT_MAX → size_of_int z = z.
Proof.
  intros. apply size_wrap_small. unfold is_size, INT_MAX in *.
  pose proof size_modulus_lower. lia.
Qed.

(** A negative [int] becomes a huge [size_t]. *)
Lemma size_of_int_neg z : INT_MIN <= z < 0 → size_of_int z = size_modulus + z.
Proof.
  intros. unfold size_of_int, size_wrap, INT_MIN in *.
  pose proof size_modulus_lower.
  rewrite <- (Z.mod_add z 1 size_modulus) by lia.
  rewrite Z.mod_small; lia.
Qed.

Lemma size_of_int_is_size z : is_size (size_of_int z).
Proof. apply size_wrap_is_size. Qed.

Lemma size_add_is_size a b : is_size (size_add a b).
Proof. apply size_wrap_is_size. Qed.

Lemma size_add_nowrap a b :
  0 <= a → 0 <= b → a + b < size_modulus → size_add a b = a + b.
Proof. intros. apply size_wrap_small. unfold is_size. lia. Qed.

Lemma size_add_wraps a b :
  is_size a → is_size b → size_modulus <= a + b →
  size_add a b = a + b - size_modulus.
Proof.
  intros [] [] ?. unfold size_add, size_wrap.
  rewrite <- (Z.mod_add (a + b) (-1) size_modulus) by lia.
  rewrite Z.mod_small; lia.
Qed.

Lemma size_mul_is_size a b : is_size (size_mul a b).
Proof. apply size_wrap_is_size. Qed.

Lemma size_mul_nowrap a b :
  0 <= a → 0 <= b → a * b < size_modulus → size_mul a b = a * b.
Proof. intros. apply size_wrap_small. unfold is_size. lia. Qed.

Lemma size_mul_sizeof_char a : is_size a → size_mul a sizeof_char = a.
Proof. intros. unfold size_mul, sizeof_char. rewrite Z.mul_1_r. by apply size_wrap_small. Qed.

Lemma size_ltb_lt a b : size_ltb a b = true ↔ a < b.
Proof. apply Z.ltb_lt. Qed.

Lemma size_ltb_ge a b : size_ltb a b = false ↔ b <= a.
Proof. apply Z.ltb_ge. Qed.

Lemma size_div_Some a b q : size_div a b = Some q ↔ b ≠ 0 ∧ q = a / b.
Proof.
  unfold size_div. destruct (Z.eqb_spec b 0) as [->|Hb].
  - split; [done | by intros []].
  - split; [by intros [= <-] | by intros [_ ->]].
Qed.

Lemma size_div_is_size a b q : is_size a → 0 < b → size_div a b = Some q → is_size q.
Proof.
  intros [] ? [_ ->]%size_div_Some. unfold is_size. split.
  - by apply Z.div_pos.
  - apply Z.le_lt_trans with a; [|done]. apply Z.div_le_upper_bound; nia.
Qed.

End SizeTheory.

#[export] Hint Resolve size_wrap_is_size size_of_int_is_size size_add_is_size
  size_modulus_pos size_modulus_lower : cmodel.
#[export] Hint Rewrite @size_wrap_idemp : cmodel.
