(* ===== verification/Memory.v ===== *)
(** * The heap that [malloc], [memset] and [free] act on

    A heap is a finite map from block identifiers to live blocks, with a
    counter that names the next block.  Identifiers are never reused, so a
    pointer to a released block is recognised as dangling.

    The programs fill blocks of 10 and 100 MiB.  A block therefore does not
    store its bytes one by one: it keeps the log of the extents written to
    it, newest first, and a byte is read by finding the newest extent that
    covers it.  A byte that no extent covers was never written: it is
    indeterminate and not backed by committed memory.  The abstract
    content of a block is the partial function [block_read]; two blocks
    with the same size and the same content are equivalent ([≡]) whatever
    their logs. *)

From S2P Require Import Prelude CInt.

#[local] Open Scope Z_scope.

(** ** Data *)

(** The undefined behaviours the programs can run into. *)
Inductive fault :=
  | NullDeref        (* access through a null pointer *)
  | Dangling         (* access to, or release of, a block that is not live *)
  | OutOfBounds      (* access outside the block *)
  | InvalidFree      (* release of a pointer that malloc did not return *)
  | SignedOverflow   (* overflow of an [int] expression *)
  | DivByZero.

(** The bytes [e_off .. e_off + e_len - 1] hold [e_val]. *)
Record extent := Extent { e_off : Z; e_len : Z; e_val : Z }.

Record block := Block { b_size : Z; b_log : list extent }.

(** Block identifiers are positive numbers (an abbreviation, so that the
    lemmas on finite maps apply as they are). *)
Abbreviation block_id := positive (only parsing).

Inductive ptr :=
  | Null
  | Ptr (b : block_id) (ofs : Z).

Record heap := Heap { h_blocks : gmap block_id block; h_next : block_id }.

#[export] Instance fault_eq_dec : EqDecision fault.
Proof. solve_decision. Defined.
#[export] Instance extent_eq_dec : EqDecision extent.
Proof. solve_decision. Defined.
#[export] Instance block_eq_dec : EqDecision block.
Proof. solve_decision. Defined.
#[export] Instance ptr_eq_dec : EqDecision ptr.
Proof. solve_decision. Defined.
#[export] Instance heap_eq_dec : EqDecision heap.
Proof. solve_decision. Defined.

(** ** Bytes of a block *)

(** [memset] converts its [int] argument to [unsigned char]. *)
Definition byte_of_int (c : Z) : Z := c mod 256.

Definition extent_covers (e : extent) (i : Z) : bool :=
  (e_off e <=? i) && (i <? e_off e + e_len e).

Fixpoint log_read (l : list extent) (i : Z) : option Z :=
  match l with
  | [] => None
  | e :: l' => if extent_covers e i then Some (e_val e) else log_read l' i
  end.

(** The byte at offset [i], [None] when it was never written. *)
Definition block_read (b : block) (i : Z) : option Z := log_read (b_log b) i.

Definition block_fill (b : block) (ofs n c : Z) : block :=
  Block (b_size b) (Extent ofs n c :: b_log b).

(** The abstract counterpart of [block_fill] on contents. *)
Definition fill (f : Z → option Z) (ofs n c : Z) : Z → option Z :=
  λ i, if (ofs <=? i) && (i <? ofs + n) then Some c else f i.

(** Every byte of the block holds [c]. *)
Definition block_filled (b : block) (c : Z) : Prop :=
  ∀ i, 0 <= i < b_size b → block_read b i = Some c.

(** No byte of the block was written. *)
Definition block_untouched (b : block) : Prop :=
  ∀ i, block_read b i = None.

#[export] Instance block_equiv : Equiv block :=
  λ b1 b2, b_size b1 = b_size b2 ∧ ∀ i, block_read b1 i = block_read b2 i.

(** ** Pointers *)

Definition is_null (p : ptr) : bool :=
  match p with Null => true | Ptr _ _ => false end.

(** [p + i], as in [p[i]]. *)
Definition ptr_add (p : ptr) (i : Z) : ptr :=
  match p with
  | Null => Null
  | Ptr b ofs => Ptr b (ofs + i)
  end.

(** ** Operations *)

Definition heap_empty : heap := Heap ∅ 1%positive.

(** The heap with [blk] as its next block. *)
Definition heap_add (h : heap) (blk : block) : heap :=
  Heap (<[h_next h := blk]> (h_blocks h)) (Pos.succ (h_next h)).

(** A fresh block of [n] indeterminate bytes. *)
Definition heap_alloc (h : heap) (n : Z) : block_id * heap :=
  (h_next h, heap_add h (Block n [])).

(** [free(p)]: nothing for the null pointer; otherwise [p] must be the
    start of a live block. *)
Definition heap_free (h : heap) (p : ptr) : fault + heap :=
  match p with
  | Null => inr h
  | Ptr b ofs =>
      match h_blocks h !! b with
      | None => inl Dangling
      | Some _ =>
          if ofs =? 0 then inr (Heap (delete b (h_blocks h)) (h_next h))
          else inl InvalidFree
      end
  end.

(** [memset(p, c, n)]: the [n] bytes from [p] must lie inside a live block. *)
Definition heap_memset (h : heap) (p : ptr) (c n : Z) : fault + heap :=
  match p with
  | Null => inl NullDeref
  | Ptr b ofs =>
      match h_blocks h !! b with
      | None => inl Dangling
      | Some blk =>
          if (0 <=? ofs) && (0 <=? n) && (ofs + n <=? b_size blk)
          then inr (Heap (<[b := block_fill blk ofs n (byte_of_int c)]> (h_blocks h))
                         (h_next h))
          else inl OutOfBounds
      end
  end.

(** Reading the [char] at [p]: the byte, or [None] for an indeterminate
    value. *)
Definition heap_load (h : heap) (p : ptr) : fault + option Z :=
  match p with
  | Null => inl NullDeref
  | Ptr b ofs =>
      match h_blocks h !! b with
      | None => inl Dangling
      | Some blk =>
          if (0 <=? ofs) && (ofs <? b_size blk) then inr (block_read blk ofs)
          else inl OutOfBounds
      end
  end.

(** ** Footprint and invariant *)

(** The bytes held by live blocks. *)
Definition heap_live_bytes (h : heap) : Z :=
  map_fold (λ _ blk acc, b_size blk + acc) 0 (h_blocks h).

Definition extent_wf (size : Z) (e : extent) : Prop :=
  0 <= e_off e ∧ 0 <= e_len e ∧ e_off e + e_len e <= size ∧ 0 <= e_val e < 256.

Definition block_wf (b : block) : Prop :=
  0 <= b_size b ∧ Forall (extent_wf (b_size b)) (b_log b).

(** Live blocks are well formed and were named before [h_next]. *)
Definition heap_wf (h : heap) : Prop :=
  ∀ b blk, h_blocks h !! b = Some blk → (b < h_next h)%positive ∧ block_wf blk.

(** [h'] extends [h]: every block live in [h] is live and unchanged in
    [h']. *)
Definition heap_extends (h h' : heap) : Prop :=
  (h_next h <= h_next h')%positive ∧
  ∀ b blk, h_blocks h !! b = Some blk → h_blocks h' !! b = Some blk.

(** The heap after a block was reserved and released again: the blocks
    there were before, and one identifier used up. *)
Definition heap_skip (h : heap) : heap := Heap (h_blocks h) (Pos.succ (h_next h)).

(** ** Contents: the log refines the byte function *)

Lemma extent_covers_spec e i :
  extent_covers e i = true ↔ e_off e <= i < e_off e + e_len e.
Proof. unfold extent_covers. rewrite andb_true_iff, Z.leb_le, Z.ltb_lt. done. Qed.

Lemma block_read_fill b ofs n c i :
  block_read (block_fill b ofs n c) i = fill (block_read b) ofs n c i.
Proof. reflexivity. Qed.

Lemma fill_inside f ofs n c i : ofs <= i < ofs + n → fill f ofs n c i = Some c.
Proof.
  intros. unfold fill.
  by rewrite (proj2 (Z.leb_le _ _)), (proj2 (Z.ltb_lt _ _)) by lia.
Qed.

Lemma fill_outside f ofs n c i : i < ofs ∨ ofs + n <= i → fill f ofs n c i = f i.
Proof.
  intros. unfold fill.
  destruct (Z.leb_spec ofs i), (Z.ltb_spec i (ofs + n)); simpl; try done; lia.
Qed.

Lemma block_fill_whole b c : block_filled (block_fill b 0 (b_size b) c) c.
Proof. intros i Hi. rewrite block_read_fill. by apply fill_inside. Qed.

Lemma block_fresh_untouched n : block_untouched (Block n []).
Proof. by intros i. Qed.

Lemma block_filled_not_untouched b c : 0 < b_size b → block_filled b c → ¬ block_untouched b.
Proof. intros Hs Hf Hu. specialize (Hf 0 ltac:(lia)). by rewrite Hu in Hf. Qed.

Lemma log_read_wf size l i c :
  Forall (extent_wf size) l → log_read l i = Some c → 0 <= i < size ∧ 0 <= c < 256.
Proof.
  induction 1 as [|e l (?&?&?&?) _ IH]; simpl; [done|].
  destruct (extent_covers e i) eqn:E; [|done].
  apply extent_covers_spec in E. intros [= <-]. lia.
Qed.

(** A well-formed block holds bytes, and only inside its bounds. *)
Lemma block_read_wf b i c : block_wf b → block_read b i = Some c → 0 <= i < b_size b ∧ 0 <= c < 256.
Proof. intros [_ H]. by apply log_read_wf. Qed.

(** ** Equivalence of blocks *)

#[export] Instance block_equiv_equivalence : Equivalence (≡@{block}).
Proof.
  split.
  - by intros b.
  - intros b1 b2 [? H]. split; [done | by intros i].
  - intros b1 b2 b3 [? H1] [? H2]. split; [congruence|]. intros i. by rewrite H1.
Qed.

#[export] Instance block_read_proper : Proper ((≡) ==> (=) ==> (=)) block_read.
Proof. intros b1 b2 [_ H] i ? <-. apply H. Qed.

#[export] Instance b_size_proper : Proper ((≡) ==> (=)) b_size.
Proof. by intros b1 b2 [H _]. Qed.

#[export] Instance block_fill_proper :
  Proper ((≡) ==> (=) ==> (=) ==> (=) ==> (≡)) block_fill.
Proof.
  intros b1 b2 [Hs H] ofs ? <- n ? <- c ? <-. split; [done|].
  intros i. rewrite !block_read_fill. unfold fill. by rewrite H.
Qed.

#[export] Instance block_filled_proper : Proper ((≡) ==> (=) ==> iff) block_filled.
Proof.
  intros b1 b2 Hb c ? <-. unfold block_filled.
  by setoid_rewrite Hb.
Qed.

(** Filling twice is filling once. *)
Lemma block_fill_idemp b ofs n c :
  block_fill (block_fill b ofs n c) ofs n c ≡ block_fill b ofs n c.
Proof.
  split; [done|]. intros i. rewrite !block_read_fill. unfold fill.
  destruct ((ofs <=? i) && (i <? ofs + n)) eqn:E; [done|].
  rewrite block_read_fill. unfold fill. by rewrite E.
Qed.

(** A later fill of the whole block hides what was written before. *)
Lemma block_fill_whole_absorbs b b' c :
  block_wf b → block_wf b' → b_size b = b_size b' →
  block_fill b 0 (b_size b) c ≡ block_fill b' 0 (b_size b') c.
Proof.
  intros Hb Hb' Hs. split; [done|]. intros i. rewrite !block_read_fill, <- Hs.
  unfold fill. destruct ((0 <=? i) && (i <? 0 + b_size b)) eqn:E; [done|].
  destruct (block_read b i) eqn:E1.
  { apply block_read_wf in E1 as []; [|done]. zbool; lia. }
  destruct (block_read b' i) eqn:E2; [|done].
  apply block_read_wf in E2 as []; [|done]. zbool; lia.
Qed.

(** ** Well-formedness is preserved *)

Lemma byte_of_int_range c : 0 <= byte_of_int c < 256.
Proof. by apply Z.mod_pos_bound. Qed.

Lemma block_fill_wf b ofs n c :
  block_wf b → 0 <= ofs → 0 <= n → ofs + n <= b_size b → 0 <= c < 256 →
  block_wf (block_fill b ofs n c).
Proof.
  intros [? ?] ? ? ? ?. split; [done|]. simpl. constructor; [|done].
  unfold extent_wf; simpl. lia.
Qed.

Lemma heap_empty_wf : heap_wf heap_empty.
Proof. intros b blk. unfold heap_empty; simpl. by rewrite lookup_empty. Qed.

Lemma heap_wf_fresh h : heap_wf h → h_blocks h !! h_next h = None.
Proof.
  intros Hwf. destruct (h_blocks h !! h_next h) as [blk|] eqn:E; [|done].
  apply Hwf in E as [? _]. lia.
Qed.

Lemma heap_add_wf h blk : heap_wf h → block_wf blk → heap_wf (heap_add h blk).
Proof.
  intros Hwf Hn b blk'. simpl. rewrite lookup_insert.
  case_decide as Hb.
  - intros [= <-]. subst b. split; [lia | done].
  - intros [? ?]%Hwf. split; [lia | done].
Qed.

Lemma heap_alloc_wf h n : heap_wf h → 0 <= n → heap_wf (heap_alloc h n).2.
Proof. intros. apply heap_add_wf; [done|]. by split. Qed.

Lemma heap_free_wf h p h' : heap_wf h → heap_free h p = inr h' → heap_wf h'.
Proof.
  intros Hwf. unfold heap_free. destruct p as [|b ofs]; [by intros [= <-]|].
  destruct (h_blocks h !! b) eqn:E; [|done].
  destruct (ofs =? 0); [|done]. intros [= <-] b' blk. simpl.
  rewrite lookup_delete. case_decide; [done|]. apply Hwf.
Qed.

Lemma heap_memset_wf h p c n h' : heap_wf h → heap_memset h p c n = inr h' → heap_wf h'.
Proof.
  intros Hwf. unfold heap_memset. destruct p as [|b ofs]; [done|].
  destruct (h_blocks h !! b) as [blk|] eqn:E; [|done].
  case_branch; [|done]. zbool. intros [= <-] b' blk'. simpl.
  destruct (Hwf _ _ E) as [? ?].
  rewrite lookup_insert. case_decide as Hb; [|apply Hwf].
  intros [= <-]. subst b'. split; [done|].
  apply block_fill_wf; auto using byte_of_int_range.
Qed.

(** ** Functional behaviour of the operations *)

Lemma heap_alloc_lookup h n :
  h_blocks (heap_alloc h n).2 !! (heap_alloc h n).1 = Some (Block n []).
Proof. simpl. apply lookup_insert_eq. Qed.

Lemma heap_alloc_lookup_ne h n b :
  b ≠ h_next h → h_blocks (heap_alloc h n).2 !! b = h_blocks h !! b.
Proof. intros. simpl. by rewrite lookup_insert_ne. Qed.

Lemma heap_add_extends h blk : heap_wf h → heap_extends h (heap_add h blk).
Proof.
  intros Hwf. split; [simpl; lia|]. intros b blk' E. simpl.
  rewrite lookup_insert_ne; [done|]. intros <-.
  by rewrite heap_wf_fresh in E.
Qed.

Lemma heap_alloc_extends h n : heap_wf h → heap_extends h (heap_alloc h n).2.
Proof. apply heap_add_extends. Qed.

(** Filling a block right after it was reserved: the heap holds the filled
    block in its place. *)
Lemma heap_memset_fresh h n c :
  0 <= n →
  heap_memset (heap_alloc h n).2 (Ptr (heap_alloc h n).1 0) c n =
  inr (heap_add h (block_fill (Block n []) 0 n (byte_of_int c))).
Proof.
  intros Hn. unfold heap_memset. simpl. rewrite lookup_insert_eq. simpl.
  rewrite Z.leb_refl, (proj2 (Z.leb_le 0 n) Hn). simpl.
  unfold heap_add. by rewrite insert_insert_eq.
Qed.

Lemma heap_memset_Ptr h b ofs c n :
  heap_memset h (Ptr b ofs) c n =
  match h_blocks h !! b with
  | None => inl Dangling
  | Some blk =>
      if (0 <=? ofs) && (0 <=? n) && (ofs + n <=? b_size blk)
      then inr (Heap (<[b := block_fill blk ofs n (byte_of_int c)]> (h_blocks h)) (h_next h))
      else inl OutOfBounds
  end.
Proof. reflexivity. Qed.

(** Filling the whole of a live block succeeds. *)
Lemma heap_memset_whole h b blk c :
  h_blocks h !! b = Some blk → 0 <= b_size blk →
  heap_memset h (Ptr b 0) c (b_size blk) =
  inr (Heap (<[b := block_fill blk 0 (b_size blk) (byte_of_int c)]> (h_blocks h)) (h_next h)).
Proof.
  intros E Hs. rewrite heap_memset_Ptr, E.
  by rewrite Z.add_0_l, !Z.leb_refl, (proj2 (Z.leb_le 0 (b_size blk)) Hs).
Qed.

Lemma heap_memset_other h p c n h' b :
  heap_memset h p c n = inr h' → (∀ ofs, p ≠ Ptr b ofs) →
  h_blocks h' !! b = h_blocks h !! b.
Proof.
  unfold heap_memset. destruct p as [|b' ofs]; [done|].
  destruct (h_blocks h !! b'); [|done]. case_branch; [|done].
  intros [= <-] Hne. simpl. apply lookup_insert_ne. intros ->. by eapply Hne.
Qed.

Lemma heap_load_Some h b ofs blk :
  h_blocks h !! b = Some blk → 0 <= ofs < b_size blk →
  heap_load h (Ptr b ofs) = inr (block_read blk ofs).
Proof.
  intros E ?. unfold heap_load. rewrite E.
  by rewrite (proj2 (Z.leb_le 0 ofs)), (proj2 (Z.ltb_lt ofs _)) by lia.
Qed.

Lemma heap_free_live h b blk :
  h_blocks h !! b = Some blk →
  heap_free h (Ptr b 0) = inr (Heap (delete b (h_blocks h)) (h_next h)).
Proof. intros E. unfold heap_free. by rewrite E. Qed.

Lemma heap_load_out_of_bounds h b ofs blk :
  h_blocks h !! b = Some blk → b_size blk <= ofs →
  heap_load h (Ptr b ofs) = inl OutOfBounds.
Proof.
  intros E ?. unfold heap_load. rewrite E.
  by rewrite (proj2 (Z.ltb_ge ofs _)), andb_false_r by lia.
Qed.

(** Releasing the block that was added last gives back the blocks there
    were before. *)
Lemma heap_free_added h blk :
  heap_wf h → heap_free (heap_add h blk) (Ptr (h_next h) 0) = inr (heap_skip h).
Proof.
  intros Hwf. erewrite heap_free_live by apply lookup_insert_eq. simpl.
  unfold heap_skip. by rewrite delete_insert_id by by apply heap_wf_fresh.
Qed.

Lemma heap_skip_wf h : heap_wf h → heap_wf (heap_skip h).
Proof. intros Hwf b blk E. destruct (Hwf b blk E). split; [simpl; lia | done]. Qed.

Lemma heap_skip_live_bytes h : heap_live_bytes (heap_skip h) = heap_live_bytes h.
Proof. done. Qed.

(** Releasing twice is caught. *)
Lemma heap_free_twice h b h' :
  heap_free h (Ptr b 0) = inr h' → heap_free h' (Ptr b 0) = inl Dangling.
Proof.
  unfold heap_free. destruct (h_blocks h !! b); [|done]. simpl.
  intros [= <-]. simpl. by rewrite lookup_delete_eq.
Qed.

(** ** Footprint *)

Lemma heap_live_bytes_empty : heap_live_bytes heap_empty = 0.
Proof. unfold heap_live_bytes. simpl. by rewrite map_fold_empty. Qed.

Lemma live_bytes_insert_fresh (m : gmap block_id block) b blk n :
  m !! b = None →
  map_fold (λ _ blk acc, b_size blk + acc) n (<[b := blk]> m) =
  b_size blk + map_fold (λ _ blk acc, b_size blk + acc) n m.
Proof. intros. rewrite map_fold_insert_L; [done | intros; lia | done]. Qed.

Lemma live_bytes_delete (m : gmap block_id block) b blk n :
  m !! b = Some blk →
  map_fold (λ _ blk acc, b_size blk + acc) n m =
  b_size blk + map_fold (λ _ blk acc, b_size blk + acc) n (delete b m).
Proof.
  intros E. rewrite <- (insert_delete_id m b blk) at 1 by done.
  apply live_bytes_insert_fresh, lookup_delete_eq.
Qed.

Lemma live_bytes_insert_same_size (m : gmap block_id block) b blk blk' n :
  m !! b = Some blk → b_size blk' = b_size blk →
  map_fold (λ _ blk acc, b_size blk + acc) n (<[b := blk']> m) =
  map_fold (λ _ blk acc, b_size blk + acc) n m.
Proof.
  intros E Hs. rewrite (live_bytes_delete m b blk) by done.
  rewrite <- insert_delete_eq.
  rewrite live_bytes_insert_fresh by apply lookup_delete_eq. lia.
Qed.

Lemma heap_add_live_bytes h blk :
  heap_wf h → heap_live_bytes (heap_add h blk) = heap_live_bytes h + b_size blk.
Proof.
  intros Hwf. unfold heap_live_bytes. simpl.
  rewrite live_bytes_insert_fresh by by apply heap_wf_fresh. lia.
Qed.

Lemma heap_alloc_live_bytes h n :
  heap_wf h → heap_live_bytes (heap_alloc h n).2 = heap_live_bytes h + n.
Proof. apply heap_add_live_bytes. Qed.

Lemma heap_free_live_bytes h b blk h' :
  h_blocks h !! b = Some blk → heap_free h (Ptr b 0) = inr h' →
  heap_live_bytes h' = heap_live_bytes h - b_size blk.
Proof.
  intros E. rewrite (heap_free_live _ _ _ E). intros [= <-].
  unfold heap_live_bytes. simpl. rewrite (live_bytes_delete _ _ _ _ E). lia.
Qed.

Lemma heap_memset_live_bytes h p c n h' :
  heap_memset h p c n = inr h' → heap_live_bytes h' = heap_live_bytes h.
Proof.
  unfold heap_memset. destruct p as [|b ofs]; [done|].
  destruct (h_blocks h !! b) as [blk|] eqn:E; [|done].
  case_branch; [|done]. intros [= <-]. unfold heap_live_bytes. simpl.
  by apply live_bytes_insert_same_size with blk.
Qed.

Lemma heap_live_bytes_nonneg h : heap_wf h → 0 <= heap_live_bytes h.
Proof.
  unfold heap_wf, heap_live_bytes. generalize (h_next h). intros nx.
  induction (h_blocks h) as [|b blk m Hb IH] using map_ind; intros Hwf.
  - by rewrite map_fold_empty.
  - rewrite live_bytes_insert_fresh by done.
    destruct (Hwf b blk) as [_ [? _]]; [apply lookup_insert_eq|].
    assert (0 <= map_fold (λ _ blk acc, b_size blk + acc) 0 m); [|lia].
    apply IH. intros b' blk' E. apply Hwf.
    destruct (decide (b = b')) as [->|]; [congruence|]. by rewrite lookup_insert_ne.
Qed.

(** ** Extension *)

#[export] Instance heap_extends_preorder : PreOrder heap_extends.
Proof.
  split.
  - intros h. by split.
  - intros h1 h2 h3 [? H12] [? H23]. split; [lia|]. auto.
Qed.

#[export] Hint Resolve heap_empty_wf heap_alloc_wf heap_free_wf heap_memset_wf
  byte_of_int_range heap_alloc_extends : cmodel.
