(* ===== verification/Exec.v ===== *)
(** * Running a program: world, outcomes, the monad and the C library

    A program runs in a [world]: the heap, the allocator's policy, the
    number of [malloc] calls made so far, the events it has produced (text
    handed to [stdout] and [stderr], and sleeps) and its process id.

    The allocator's policy decides whether a request succeeds.  It sees the
    number of the call, the current heap and the requested size, so that a
    bounded memory, a fault injected at the k-th call and an allocator that
    never refuses are all policies.

    A run ends in one of three ways: [Ok] with a result, [Fault] when the
    program runs into undefined behaviour, [OutOfFuel] when a loop has used
    the iterations it was given.  [M A] is the type of actions; programs are
    written with stdpp's bind notation [x ← m; k] and [m ;; k]. *)

From S2P Require Import Prelude CInt Memory.

#[local] Open Scope Z_scope.

(** ** Data *)

Inductive event :=
  | Stdout (s : string)
  | Stderr (s : string)
  | Sleep (secs : Z).

#[export] Instance event_eq_dec : EqDecision event.
Proof. solve_decision. Defined.

Record world := World {
  w_heap : heap;
  w_alloc : nat → heap → Z → bool;
  w_calls : nat;
  w_out : list event;
  w_pid : Z
}.

Inductive outcome (A : Type) :=
  | Ok (a : A) (w : world)
  | Fault (f : fault) (w : world)
  | OutOfFuel (w : world).
Arguments Ok {A} a w.
Arguments Fault {A} f w.
Arguments OutOfFuel {A} w.

Definition M (A : Type) : Type := world → outcome A.

(** What a loop body tells its loop: go on, or [break]. *)
Inductive loop_ctl (S : Type) :=
  | Continue (s : S)
  | Break (s : S).
Arguments Continue {S} s.
Arguments Break {S} s.

(** ** The monad *)

#[export] Instance M_ret : MRet M := λ A a w, Ok a w.

#[export] Instance M_bind : MBind M := λ A B k m w,
  match m w with
  | Ok a w' => k a w'
  | Fault f w' => Fault f w'
  | OutOfFuel w' => OutOfFuel w'
  end.

(** Two actions are equivalent when they agree on every world. *)
#[export] Instance M_equiv {A} : Equiv (M A) := λ m1 m2, ∀ w, m1 w = m2 w.

Definition fail {A} (f : fault) : M A := λ w, Fault f w.

(** The value of an [int] expression; overflow is undefined behaviour. *)
Definition eval_int (e : option Z) : M Z :=
  match e with
  | Some z => mret z
  | None => fail SignedOverflow
  end.

(** The value of a division. *)
Definition eval_div (e : option Z) : M Z :=
  match e with
  | Some z => mret z
  | None => fail DivByZero
  end.

(** The world reached by a run. *)
Definition outcome_world {A} (r : outcome A) : world :=
  match r with
  | Ok _ w | Fault _ w | OutOfFuel w => w
  end.

Definition is_ok {A} (r : outcome A) : bool :=
  match r with Ok _ _ => true | _ => false end.

Definition is_out_of_fuel {A} (r : outcome A) : bool :=
  match r with OutOfFuel _ => true | _ => false end.

(** ** World updates *)

Definition set_heap (h : heap) (w : world) : world :=
  World h (w_alloc w) (w_calls w) (w_out w) (w_pid w).

Definition count_call (w : world) : world :=
  World (w_heap w) (w_alloc w) (S (w_calls w)) (w_out w) (w_pid w).

Definition add_event (e : event) (w : world) : world :=
  World (w_heap w) (w_alloc w) (w_calls w) (w_out w ++ [e]) (w_pid w).

(** ** The C library *)

(** [malloc(n)]: the policy decides; a refusal returns the null pointer and
    leaves the heap as it is. *)
Definition malloc (n : Z) : M ptr := λ w,
  if w_alloc w (w_calls w) (w_heap w) n
  then Ok (Ptr (heap_alloc (w_heap w) n).1 0)
          (set_heap (heap_alloc (w_heap w) n).2 (count_call w))
  else Ok Null (count_call w).

Definition free (p : ptr) : M unit := λ w,
  match heap_free (w_heap w) p with
  | inl f => Fault f w
  | inr h => Ok tt (set_heap h w)
  end.

Definition memset (p : ptr) (c n : Z) : M unit := λ w,
  match heap_memset (w_heap w) p c n with
  | inl f => Fault f w
  | inr h => Ok tt (set_heap h w)
  end.

(** [*p] for a [char *p]. *)
Definition load (p : ptr) : M (option Z) := λ w,
  match heap_load (w_heap w) p with
  | inl f => Fault f w
  | inr v => Ok v w
  end.

Definition emit (e : event) : M unit := λ w, Ok tt (add_event e w).

(** [printf] and [fprintf(stderr, ...)] with the text already formatted. *)
Definition printf (s : string) : M unit := emit (Stdout s).
Definition fprintf_stderr (s : string) : M unit := emit (Stderr s).

(** [sleep(secs)] with [secs] an [unsigned int]. *)
Definition sleep (secs : Z) : M unit := emit (Sleep secs).

Definition getpid : M Z := λ w, Ok (w_pid w) w.

(** The conversions [%d] and [%zu] of [printf]. *)
Definition fmt_d (z : Z) : string := pretty z.
Definition fmt_zu (z : Z) : string := pretty z.

(** ** Loops *)

(** [while (cond) body], with at most [fuel] runs of the body.  The state
    [s] holds the variables the loop changes. *)
Fixpoint while_ {S} (fuel : nat) (cond : S → M bool) (body : S → M (loop_ctl S))
    (s : S) : M S :=
  c ← cond s;
  if c : bool then
    match fuel with
    | O => λ w, OutOfFuel w
    | Datatypes.S n =>
        r ← body s;
        match r with
        | Continue s' => while_ n cond body s'
        | Break s' => mret s'
        end
    end
  else mret s.

(** ** Allocator policies and the world a process starts in *)

(** Never refuses. *)
Definition willing : nat → heap → Z → bool := λ _ _ _, true.

(** Refuses what would bring the footprint above [cap] bytes. *)
Definition bounded (cap : Z) : nat → heap → Z → bool :=
  λ _ h n, heap_live_bytes h + n <=? cap.

(** Refuses the [k]-th call (counted from 0) and no other. *)
Definition refusing_call (k : nat) : nat → heap → Z → bool :=
  λ c _ _, negb (c =? k)%nat.

(** The world of a fresh process: nothing reserved, nothing printed. *)
Definition initial_world (policy : nat → heap → Z → bool) (pid : Z) : world :=
  World heap_empty policy 0 [] pid.

(** ** Invariants of a world *)

Definition world_wf (w : world) : Prop := heap_wf (w_heap w).

(** [w'] is a later world of the same process: the trace has grown, the
    heap has moved on, the policy and the process id are the same. *)
Definition world_later (w w' : world) : Prop :=
  w_out w `prefix_of` w_out w' ∧ (w_calls w <= w_calls w')%nat ∧
  w_alloc w' = w_alloc w ∧ w_pid w' = w_pid w ∧
  (h_next (w_heap w) <= h_next (w_heap w'))%positive.

(** The events a run added to the trace of [w]. *)
Definition new_events (w w' : world) : list event :=
  drop (length (w_out w)) (w_out w').

(** The seconds slept in a trace. *)
Definition slept (l : list event) : Z :=
  foldr (λ e acc, match e with Sleep n => n + acc | _ => acc end) 0 l.

(** The lines written to [stdout] in a trace. *)
Definition stdout_of (l : list event) : list string :=
  omap (λ e, match e with Stdout s => Some s | _ => None end) l.

Definition stderr_of (l : list event) : list string :=
  omap (λ e, match e with Stderr s => Some s | _ => None end) l.

(** ** Monad laws *)

#[export] Instance M_equiv_equivalence {A} : Equivalence (≡@{M A}).
Proof.
  split.
  - by intros m w.
  - intros m1 m2 H w. by rewrite H.
  - intros m1 m2 m3 H1 H2 w. by rewrite H1.
Qed.

#[export] Instance mbind_proper {A B} :
  Proper (pointwise_relation A (≡) ==> (≡) ==> (≡)) (mbind (M := M) (A := A) (B := B)).
Proof.
  intros k1 k2 Hk m1 m2 Hm w. unfold mbind, M_bind. rewrite Hm.
  destruct (m2 w); [apply Hk | done | done].
Qed.

Lemma bind_ret_l {A B} (a : A) (k : A → M B) : (mret a ≫= k) ≡ k a.
Proof. by intros w. Qed.

Lemma bind_ret_r {A} (m : M A) : (m ≫= mret) ≡ m.
Proof. intros w. unfold mbind, M_bind, mret, M_ret. by destruct (m w). Qed.

Lemma bind_assoc {A B C} (m : M A) (k : A → M B) (k' : B → M C) :
  ((m ≫= k) ≫= k') ≡ (m ≫= λ a, k a ≫= k').
Proof. intros w. unfold mbind, M_bind. by destruct (m w). Qed.

Lemma bind_fail {A B} f (k : A → M B) : (fail f ≫= k) ≡ fail f.
Proof. by intros w. Qed.

(** Running a bind: the three cases of its first action. *)
Lemma bind_Ok {A B} (m : M A) (k : A → M B) w a w' :
  m w = Ok a w' → (m ≫= k) w = k a w'.
Proof. intros H. unfold mbind, M_bind. by rewrite H. Qed.

Lemma bind_Fault {A B} (m : M A) (k : A → M B) w f w' :
  m w = Fault f w' → (m ≫= k) w = Fault f w'.
Proof. intros H. unfold mbind, M_bind. by rewrite H. Qed.

Lemma bind_OutOfFuel {A B} (m : M A) (k : A → M B) w w' :
  m w = OutOfFuel w' → (m ≫= k) w = OutOfFuel w'.
Proof. intros H. unfold mbind, M_bind. by rewrite H. Qed.

(** Running a bind whose first action returns at once. *)
Lemma bind_ret_run {A B} (a : A) (k : A → M B) w : (mret a ≫= k) w = k a w.
Proof. done. Qed.

(** One step of a run: a bind whose first action is a [mret], an [emit] or
    a [getpid]. *)
Ltac mstep := erewrite bind_Ok; [|reflexivity].

(** Inversion of a bind that ends in [Ok]. *)
Lemma bind_Ok_inv {A B} (m : M A) (k : A → M B) w b w' :
  (m ≫= k) w = Ok b w' → ∃ a w1, m w = Ok a w1 ∧ k a w1 = Ok b w'.
Proof. unfold mbind, M_bind. destruct (m w) as [a w1| |]; [eauto | done | done]. Qed.

(** ** Loops *)

Lemma while_unfold {S} fuel (cond : S → M bool) body s :
  while_ fuel cond body s =
  (c ← cond s;
   if c : bool then
     match fuel with
     | O => λ w, OutOfFuel w
     | Datatypes.S n =>
         r ← body s;
         match r with
         | Continue s' => while_ n cond body s'
         | Break s' => mret s'
         end
     end
   else mret s).
Proof. by destruct fuel. Qed.

(** The loop does not run when its condition is false. *)
Lemma while_false {S} fuel (cond : S → M bool) body s w w' :
  cond s w = Ok false w' → while_ fuel cond body s w = Ok s w'.
Proof. intros H. rewrite while_unfold. by rewrite (bind_Ok _ _ _ _ _ H). Qed.

(** One iteration that continues. *)
Lemma while_continue {S} fuel (cond : S → M bool) body s w w1 s' w2 :
  cond s w = Ok true w1 → body s w1 = Ok (Continue s') w2 →
  while_ (Datatypes.S fuel) cond body s w = while_ fuel cond body s' w2.
Proof.
  intros Hc Hb. rewrite while_unfold.
  rewrite (bind_Ok _ _ _ _ _ Hc). by rewrite (bind_Ok _ _ _ _ _ Hb).
Qed.

(** One iteration that breaks. *)
Lemma while_break {S} fuel (cond : S → M bool) body s w w1 s' w2 :
  cond s w = Ok true w1 → body s w1 = Ok (Break s') w2 →
  while_ (Datatypes.S fuel) cond body s w = Ok s' w2.
Proof.
  intros Hc Hb. rewrite while_unfold.
  rewrite (bind_Ok _ _ _ _ _ Hc). by rewrite (bind_Ok _ _ _ _ _ Hb).
Qed.

(** One iteration that faults. *)
Lemma while_fault {S} fuel (cond : S → M bool) body s w w1 f w2 :
  cond s w = Ok true w1 → body s w1 = Fault f w2 →
  while_ (Datatypes.S fuel) cond body s w = Fault f w2.
Proof.
  intros Hc Hb. rewrite while_unfold.
  rewrite (bind_Ok _ _ _ _ _ Hc). by rewrite (bind_Fault _ _ _ _ _ Hb).
Qed.

Lemma while_out_of_fuel {S} (cond : S → M bool) body s w w1 :
  cond s w = Ok true w1 → while_ 0 cond body s w = OutOfFuel w1.
Proof. intros Hc. simpl. by rewrite (bind_Ok _ _ _ _ _ Hc). Qed.

(** A loop whose condition always holds and whose body always continues
    uses up any fuel: the world it is stopped in is the body's effect
    repeated [fuel] times. *)
Lemma while_forever {S} (cond : S → M bool) body (f : world → world) s fuel w :
  (∀ w, cond s w = Ok true w) → (∀ w, body s w = Ok (Continue s) (f w)) →
  while_ fuel cond body s w = OutOfFuel (Nat.iter fuel f w).
Proof.
  intros Hc Hb. revert w. induction fuel as [|n IH]; intros w.
  - by apply while_out_of_fuel.
  - rewrite (while_continue _ _ _ _ _ _ _ _ (Hc w) (Hb w)), IH.
    by rewrite Nat.iter_succ_r.
Qed.

(** [k] iterations that continue and leave the world alone, each stepping
    the loop state by [next]. *)
Lemma while_iter {S} (cond : S → M bool) body (next : S → S) s w k fuel :
  (∀ j, (j < k)%nat →
     cond (Nat.iter j next s) w = Ok true w ∧
     body (Nat.iter j next s) w = Ok (Continue (Nat.iter (Datatypes.S j) next s)) w) →
  while_ (k + fuel) cond body s w = while_ fuel cond body (Nat.iter k next s) w.
Proof.
  revert s. induction k as [|k IH]; intros s H; [done|].
  destruct (H 0%nat ltac:(lia)) as [Hc Hb]. simpl in Hc, Hb.
  change (Datatypes.S k + fuel)%nat with (Datatypes.S (k + fuel)).
  rewrite (while_continue _ _ _ _ _ _ _ _ Hc Hb), Nat.iter_succ_r. apply IH.
  intros j Hj. rewrite <- !Nat.iter_succ_r. apply H. lia.
Qed.

(** A loop whose condition always holds and whose body never breaks does
    not return: it is stopped by the fuel or by a fault. *)
Lemma while_never_returns {S} (cond : S → M bool) body fuel s w r w' :
  (∀ s w, cond s w = Ok true w) →
  (∀ s w s' w', body s w ≠ Ok (Break s') w') →
  while_ fuel cond body s w ≠ Ok r w'.
Proof.
  intros Hc Hb. revert s w. induction fuel as [|n IH]; intros s w.
  - by rewrite (while_out_of_fuel _ _ _ _ _ (Hc s w)).
  - rewrite while_unfold, (bind_Ok _ _ _ _ _ (Hc s w)). unfold mbind, M_bind.
    destruct (body s w) as [[s'|s'] w2| |] eqn:E; [apply IH | by apply Hb in E | done..].
Qed.

#[export] Instance while_proper {S} fuel :
  Proper (pointwise_relation S (≡) ==> pointwise_relation S (≡) ==>
          pointwise_relation S (≡)) (while_ fuel).
Proof.
  intros c1 c2 Hc b1 b2 Hb. induction fuel as [|n IH]; intros s w.
  - simpl. unfold mbind, M_bind. rewrite Hc. done.
  - rewrite !(while_unfold (Datatypes.S n)). unfold mbind, M_bind. rewrite Hc.
    destruct (c2 s w) as [[] w1| |]; try done.
    rewrite Hb. destruct (b2 s w1) as [[s'|s'] w2| |]; try done. apply IH.
Qed.

(** More fuel does not change a run that did not run out of it. *)
Lemma while_fuel_mono {S} (cond : S → M bool) body fuel fuel' s w :
  (fuel <= fuel')%nat →
  is_out_of_fuel (while_ fuel cond body s w) = false →
  while_ fuel' cond body s w = while_ fuel cond body s w.
Proof.
  revert fuel' s w. induction fuel as [|n IH]; intros fuel' s w Hle.
  - rewrite (while_unfold fuel'), (while_unfold 0). unfold mbind, M_bind.
    destruct (cond s w) as [[] w1| |]; done.
  - destruct fuel' as [|n']; [lia|].
    rewrite (while_unfold (Datatypes.S n')), (while_unfold (Datatypes.S n)).
    unfold mbind, M_bind.
    destruct (cond s w) as [[] w1| |]; try done.
    destruct (body s w1) as [[s'|s'] w2| |]; try done.
    apply IH. lia.
Qed.

(** ** The C library keeps the world well formed and only adds to it *)

#[export] Instance world_later_preorder : PreOrder world_later.
Proof.
  split.
  - intros w. by repeat split.
  - intros w1 w2 w3 (?&?&?&?&?) (?&?&?&?&?).
    repeat split; [by etrans | lia | congruence | congruence | lia].
Qed.

Lemma malloc_cases n w :
  (w_alloc w (w_calls w) (w_heap w) n = true ∧
   malloc n w = Ok (Ptr (h_next (w_heap w)) 0)
                   (set_heap (heap_alloc (w_heap w) n).2 (count_call w))) ∨
  (w_alloc w (w_calls w) (w_heap w) n = false ∧
   malloc n w = Ok Null (count_call w)).
Proof. unfold malloc. destruct (w_alloc w _ _ n); auto. Qed.

Lemma malloc_ok n w :
  w_alloc w (w_calls w) (w_heap w) n = true →
  malloc n w = Ok (Ptr (h_next (w_heap w)) 0)
                  (set_heap (heap_alloc (w_heap w) n).2 (count_call w)).
Proof. intros H. unfold malloc. by rewrite H. Qed.

Lemma malloc_refused n w :
  w_alloc w (w_calls w) (w_heap w) n = false → malloc n w = Ok Null (count_call w).
Proof. intros H. unfold malloc. by rewrite H. Qed.

(** Zero-filling the block that [malloc] has just returned. *)
Lemma memset_fresh n c w :
  0 <= n →
  memset (Ptr (h_next (w_heap w)) 0) c n
         (set_heap (heap_alloc (w_heap w) n).2 (count_call w)) =
  Ok tt (set_heap (heap_add (w_heap w) (block_fill (Block n []) 0 n (byte_of_int c)))
                  (count_call w)).
Proof.
  intros Hn. unfold memset.
  change (heap_memset _ _ c n) with
    (heap_memset (heap_alloc (w_heap w) n).2 (Ptr (heap_alloc (w_heap w) n).1 0) c n).
  by rewrite heap_memset_fresh.
Qed.

Lemma load_null w : load Null w = Fault NullDeref w.
Proof. done. Qed.

Lemma load_in_block b ofs blk w :
  h_blocks (w_heap w) !! b = Some blk → 0 <= ofs < b_size blk →
  load (Ptr b ofs) w = Ok (block_read blk ofs) w.
Proof. intros E H. unfold load. by rewrite (heap_load_Some _ _ _ _ E H). Qed.

Lemma load_out_of_bounds b ofs blk w :
  h_blocks (w_heap w) !! b = Some blk → b_size blk <= ofs →
  load (Ptr b ofs) w = Fault OutOfBounds w.
Proof. intros E H. unfold load. by rewrite (heap_load_out_of_bounds _ _ _ _ E H). Qed.

(** Releasing the block that was reserved last. *)
Lemma free_added h blk w :
  heap_wf h → w_heap w = heap_add h blk →
  free (Ptr (h_next h) 0) w = Ok tt (set_heap (heap_skip h) w).
Proof. intros Hwf E. unfold free. by rewrite E, heap_free_added. Qed.

Lemma malloc_wf n w p w' :
  world_wf w → 0 <= n → malloc n w = Ok p w' → world_wf w'.
Proof.
  intros Hwf Hn. destruct (malloc_cases n w) as [[_ ->]|[_ ->]]; intros [= <- <-]; [|done].
  by apply heap_alloc_wf.
Qed.

Lemma malloc_later n w p w' : malloc n w = Ok p w' → world_later w w'.
Proof.
  destruct (malloc_cases n w) as [[_ ->]|[_ ->]]; intros [= <- <-];
    repeat split; simpl; try done; lia.
Qed.

Lemma memset_wf p c n w w' : world_wf w → memset p c n w = Ok tt w' → world_wf w'.
Proof.
  unfold memset, world_wf. intros Hwf.
  destruct (heap_memset (w_heap w) p c n) eqn:E; [done|].
  intros [= <-]. simpl. by eapply heap_memset_wf.
Qed.

Lemma free_wf p w w' : world_wf w → free p w = Ok tt w' → world_wf w'.
Proof.
  unfold free, world_wf. intros Hwf.
  destruct (heap_free (w_heap w) p) eqn:E; [done|].
  intros [= <-]. simpl. by eapply heap_free_wf.
Qed.

Lemma emit_wf e w w' : world_wf w → emit e w = Ok tt w' → world_wf w'.
Proof. by intros Hwf [= <-]. Qed.

Lemma emit_later e w : world_later w (add_event e w).
Proof. repeat split; simpl; try done. by apply prefix_app_r. Qed.

Lemma initial_world_wf policy pid : world_wf (initial_world policy pid).
Proof. apply heap_empty_wf. Qed.

(** Repeating an event. *)
Lemma iter_add_event_out e n w :
  w_out (Nat.iter n (add_event e) w) = w_out w ++ replicate n e.
Proof.
  induction n as [|n IH]; simpl; [by rewrite app_nil_r|].
  by rewrite IH, <- app_assoc, <- replicate_cons_app.
Qed.

Lemma iter_add_event_heap e n w : w_heap (Nat.iter n (add_event e) w) = w_heap w.
Proof. induction n as [|n IH]; simpl; done. Qed.

Lemma iter_add_event_calls e n w : w_calls (Nat.iter n (add_event e) w) = w_calls w.
Proof. induction n as [|n IH]; simpl; done. Qed.

(** ** Traces *)

Lemma slept_app l1 l2 : slept (l1 ++ l2) = slept l1 + slept l2.
Proof. induction l1 as [|[] l1 IH]; simpl; lia. Qed.

Lemma stdout_of_app l1 l2 : stdout_of (l1 ++ l2) = stdout_of l1 ++ stdout_of l2.
Proof. apply omap_app. Qed.

Lemma stderr_of_app l1 l2 : stderr_of (l1 ++ l2) = stderr_of l1 ++ stderr_of l2.
Proof. apply omap_app. Qed.

Lemma new_events_app w w' l : w_out w' = w_out w ++ l → new_events w w' = l.
Proof. intros H. unfold new_events. by rewrite H, drop_app_length. Qed.

#[export] Hint Resolve malloc_wf memset_wf free_wf emit_wf malloc_later emit_later
  initial_world_wf : cmodel.
#[export] Hint Rewrite slept_app stdout_of_app stderr_of_app : cmodel.
