(* ===== verification/Preserve.v ===== *)
(** * Relations that every run preserves

    A relation [R] between the world a run starts in and the world it
    stops in, whatever the outcome (returned, faulted, or stopped by the
    fuel), is established operation by operation: [preserves R m] holds
    for the C library calls by inspection, and [mret], bind and [while_]
    carry it to whole programs when [R] is a preorder.

    Three relations are used: [heap_kept] (the run leaves the heap as it
    is), [wf_kept] (the run keeps the heap well formed) and [world_later]
    of [Exec].  The tactic [solve_preserves] takes a program apart along
    its binds, loops and conditionals. *)

From S2P Require Import Prelude CInt Memory Exec.
#[local] Open Scope Z_scope.

(** ** Definitions *)

(** [m] relates by [R] the world it is run in to the world it stops in. *)
Definition preserves {A} (R : relation world) (m : M A) : Prop :=
  ∀ w, R w (outcome_world (m w)).

(** The heap is the same. *)
Definition heap_kept : relation world := λ w w', w_heap w' = w_heap w.
(** A well-formed heap stays well formed. *)
Definition wf_kept : relation world := λ w w', world_wf w → world_wf w'.

#[export] Instance heap_kept_preorder : PreOrder heap_kept.
Proof.
  split; [by intros w; unfold heap_kept|].
  intros w1 w2 w3 H1 H2. unfold heap_kept in *. congruence.
Qed.

#[export] Instance wf_kept_preorder : PreOrder wf_kept.
Proof. split; [by intros w; unfold wf_kept|]. intros w1 w2 w3 H1 H2 ?. auto. Qed.

(** ** The monad and the loop *)

Section Preserves.
Context (R : relation world) `{!PreOrder R}.

Lemma preserves_ret {A} (a : A) : preserves R (mret a).
Proof. by intros w. Qed.

Lemma preserves_fail {A} f : preserves R (fail (A := A) f).
Proof. by intros w. Qed.

Lemma preserves_eval_int e : preserves R (eval_int e).
Proof. destruct e; [apply preserves_ret | apply preserves_fail]. Qed.

Lemma preserves_eval_div e : preserves R (eval_div e).
Proof. destruct e; [apply preserves_ret | apply preserves_fail]. Qed.

Lemma preserves_getpid : preserves R getpid.
Proof. by intros w. Qed.

Lemma preserves_bind {A B} (m : M A) (k : A → M B) :
  preserves R m → (∀ a, preserves R (k a)) → preserves R (m ≫= k).
Proof.
  intros Hm Hk w. specialize (Hm w). unfold mbind, M_bind.
  destruct (m w) as [a w1| |]; [|done..]. etrans; [exact Hm | apply Hk].
Qed.

Lemma preserves_while {S} fuel (cond : S → M bool) body s :
  (∀ s, preserves R (cond s)) → (∀ s, preserves R (body s)) →
  preserves R (while_ fuel cond body s).
Proof.
  intros Hc Hb. revert s. induction fuel as [|n IH]; intros s; rewrite while_unfold;
    apply preserves_bind; try done; intros [|]; try apply preserves_ret; [by intros w|].
  apply preserves_bind; [done|]. intros [s'|s']; [apply IH | apply preserves_ret].
Qed.

End Preserves.

(** ** The C library *)

Lemma emit_heap_kept e : preserves heap_kept (emit e).
Proof. by intros w; unfold heap_kept. Qed.

Lemma load_heap_kept p : preserves heap_kept (load p).
Proof. intros w. unfold load, heap_kept. by destruct (heap_load _ _). Qed.

Lemma emit_wf_kept e : preserves wf_kept (emit e).
Proof. by intros w Hwf. Qed.

Lemma load_wf_kept p : preserves wf_kept (load p).
Proof. intros w Hwf. unfold load. by destruct (heap_load _ _). Qed.

Lemma malloc_wf_kept n : 0 <= n → preserves wf_kept (malloc n).
Proof.
  intros Hn w Hwf. destruct (malloc_cases n w) as [[_ E]|[_ E]]; rewrite E; [|done].
  by apply heap_alloc_wf.
Qed.

Lemma free_wf_kept p : preserves wf_kept (free p).
Proof.
  intros w Hwf. destruct (free p w) as [[] w'|f w'|] eqn:E; simpl.
  - by eapply free_wf.
  - unfold free in E. by destruct (heap_free _ _); simplify_eq.
  - unfold free in E. by destruct (heap_free _ _).
Qed.

Lemma memset_wf_kept p c n : preserves wf_kept (memset p c n).
Proof.
  intros w Hwf. destruct (memset p c n w) as [[] w'|f w'|] eqn:E; simpl.
  - by eapply memset_wf.
  - unfold memset in E. by destruct (heap_memset _ _ _ _); simplify_eq.
  - unfold memset in E. by destruct (heap_memset _ _ _ _).
Qed.

Lemma emit_world_later e : preserves world_later (emit e).
Proof. intros w. apply emit_later. Qed.

Lemma load_world_later p : preserves world_later (load p).
Proof. intros w. unfold load. by destruct (heap_load _ _). Qed.

Lemma malloc_world_later n : preserves world_later (malloc n).
Proof.
  intros w. destruct (malloc_cases n w) as [[_ E]|[_ E]]; rewrite E;
    by apply (malloc_later n w _ _ E).
Qed.

Lemma free_world_later p : preserves world_later (free p).
Proof.
  intros w. unfold free. destruct p as [|b ofs]; [done|]. simpl.
  destruct (h_blocks (w_heap w) !! b); [|done]. destruct (ofs =? 0); [|done].
  by repeat split.
Qed.

Lemma memset_world_later p c n : preserves world_later (memset p c n).
Proof.
  intros w. unfold memset. destruct p as [|b ofs]; [done|]. simpl.
  destruct (h_blocks (w_heap w) !! b); [|done]. case_branch; [|done].
  by repeat split.
Qed.

(** ** Automation *)

Ltac preserves_step :=
  first
    [ match goal with |- PreOrder _ => apply _ end
    | apply preserves_ret | apply preserves_fail | apply preserves_eval_int
    | apply preserves_eval_div | apply preserves_getpid
    | apply emit_heap_kept | apply load_heap_kept
    | apply emit_wf_kept | apply load_wf_kept | apply free_wf_kept | apply memset_wf_kept
    | apply emit_world_later | apply load_world_later | apply malloc_world_later
    | apply free_world_later | apply memset_world_later
    | apply preserves_while; intros
    | apply preserves_bind; intros
    | match goal with |- preserves _ (if ?b then _ else _) => destruct b end
    | progress cbv zeta ].

Ltac solve_preserves := repeat preserves_step.
