(* ===== verification/Growth.v ===== *)
(** * The timed growth loop

    The growth loop of the specification: while the cumulative size is
    below the target, reserve one more step, zero-fill it, add it to the
    cumulative size, report, and wait.  A refused reservation is reported
    and ends the loop.

    [src/app.c] ([start_memory_leak]) and [src/memory_usage_program.c]
    ([increase_memory_usage]) are two instances of it; they differ in the
    size they start from, the target, and the text they print.  The loop
    is stated here over a [GrowthPlan] and the two lines of text, its
    theory is proved once, and each program is shown to be an instance.

    The loop is described by three things: [grown], the world after one
    successful step; [grown_n], the world after [k] of them; [refused],
    the world after the refusal that ends the loop early. *)

From S2P Require Import Prelude CInt Memory Exec.

#[local] Open Scope Z_scope.

(** ** The plan *)

Record GrowthPlan := {
  initial_size_bytes : Z;
  target_size_bytes : Z;
  step_size_bytes : Z;
  step_interval : Z;
  startup_delay : Z;
  growth_enabled : bool
}.

(** The plans the specification calls valid: the target is not below the
    start, and an enabled growth has a positive step. *)
Definition plan_valid (p : GrowthPlan) : Prop :=
  0 <= initial_size_bytes p <= target_size_bytes p ∧
  (growth_enabled p = true → 0 < step_size_bytes p).

(** The number of steps from [total] to the target. *)
Definition steps_needed (p : GrowthPlan) (total : Z) : nat :=
  Z.to_nat (cdiv (target_size_bytes p - total) (step_size_bytes p)).

Section Growth.
Context {DM : DataModel}.
Context (plan : GrowthPlan).
Context (failure_line : string) (progress_line : Z → string).

#[local] Abbreviation target := (target_size_bytes plan).
#[local] Abbreviation step := (step_size_bytes plan).

(** ** The loop *)

Definition grow_cond (total : Z) : M bool :=
  mret (size_ltb total target).

Definition grow_body (total : Z) : M (loop_ctl Z) :=
  p ← malloc step;
  if is_null p then
    fprintf_stderr failure_line;;
    mret (Break total)
  else
    memset p 0 step;;
    let total := size_add total step in
    printf (progress_line total);;
    sleep (step_interval plan);;
    mret (Continue total).

Definition grow (fuel : nat) (total : Z) : M Z :=
  while_ fuel grow_cond grow_body total.

(** ** What a step does to the world *)

(** The block a step leaves behind: [step] bytes, all zero. *)
Definition step_block : block := block_fill (Block step []) 0 step (byte_of_int 0).

(** The allocator's answer to the next request of the loop. *)
Definition accepts (w : world) : bool :=
  w_alloc w (w_calls w) (w_heap w) step.

(** The world after one successful step that brings the size to [total]. *)
Definition grown (total : Z) (w : world) : world :=
  add_event (Sleep (step_interval plan))
    (add_event (Stdout (progress_line total))
       (set_heap (heap_add (w_heap w) step_block) (count_call w))).

(** The world after the refusal that ends the loop. *)
Definition refused (w : world) : world :=
  add_event (Stderr failure_line) (count_call w).

(** The world after [k] successful steps from the size [total]. *)
Fixpoint grown_n (k : nat) (total : Z) (w : world) : world :=
  match k with
  | O => w
  | S k' => grown_n k' (total + step) (grown (total + step) w)
  end.

(** The allocator accepts the next [k] requests of the loop. *)
Fixpoint accepts_n (k : nat) (total : Z) (w : world) : bool :=
  match k with
  | O => true
  | S k' => accepts w && accepts_n k' (total + step) (grown (total + step) w)
  end.

(** The events of [k] steps from the size [total]. *)
Fixpoint step_events (k : nat) (total : Z) : list event :=
  match k with
  | O => []
  | S k' => Stdout (progress_line (total + step)) :: Sleep (step_interval plan)
            :: step_events k' (total + step)
  end.

(** ** One iteration *)

Lemma grow_body_accepted total w :
  0 <= step → accepts w = true →
  grow_body total w = Ok (Continue (size_add total step)) (grown (size_add total step) w).
Proof.
  intros Hs Ha. unfold grow_body.
  rewrite (bind_Ok _ _ _ _ _ (malloc_ok _ _ Ha)).
  change (is_null (Ptr _ _)) with false. cbv iota.
  by rewrite (bind_Ok _ _ _ _ _ (memset_fresh _ _ _ Hs)).
Qed.

Lemma grow_body_refused total w :
  accepts w = false → grow_body total w = Ok (Break total) (refused w).
Proof.
  intros Ha. unfold grow_body.
  by rewrite (bind_Ok _ _ _ _ _ (malloc_refused _ _ Ha)).
Qed.

Lemma grow_done fuel total w : target <= total → grow fuel total w = Ok total w.
Proof. intros. apply while_false. unfold grow_cond. by rewrite (proj2 (size_ltb_ge _ _)). Qed.

Lemma grow_cond_true total w : total < target → grow_cond total w = Ok true w.
Proof. intros. unfold grow_cond. by rewrite (proj2 (size_ltb_lt _ _)). Qed.

Lemma grow_refused fuel total w :
  total < target → accepts w = false →
  grow (S fuel) total w = Ok total (refused w).
Proof.
  intros. eapply while_break; [by apply grow_cond_true | by apply grow_body_refused].
Qed.

Lemma grow_out_of_fuel total w : total < target → grow 0 total w = OutOfFuel w.
Proof. intros. by apply while_out_of_fuel, grow_cond_true. Qed.

(** ** The theory of the loop, for a step that cannot wrap the counter *)

Context (Hstep : 0 < step).
Context (Hnowrap : target + step <= size_modulus).

Lemma grow_accepted fuel total w :
  0 <= total < target → accepts w = true →
  grow (S fuel) total w = grow fuel (total + step) (grown (total + step) w).
Proof.
  intros Ht Ha. rewrite <- (size_add_nowrap total step) by lia.
  eapply while_continue; [apply grow_cond_true; lia|].
  apply grow_body_accepted; [lia | done].
Qed.

(** [k] accepted steps that stay below the target. *)
Lemma grow_accepted_n k fuel total w :
  0 <= total → total + Z.of_nat k * step < target + step →
  accepts_n k total w = true →
  grow (k + fuel) total w = grow fuel (total + Z.of_nat k * step) (grown_n k total w).
Proof.
  revert total w. induction k as [|k IH]; intros total w Ht Hk Ha.
  - simpl. by rewrite Z.add_0_r.
  - simpl in Ha. apply andb_true_iff in Ha as [Ha Hn].
    change (S k + fuel)%nat with (S (k + fuel)).
    rewrite grow_accepted by (split; [done | nia]; done) || done.
    rewrite IH; [|lia|lia|done]. simpl grown_n. f_equal. lia.
Qed.

(** The number of steps covers the distance to the target, and one step
    less does not. *)
Lemma steps_needed_covers total :
  target <= total + Z.of_nat (steps_needed plan total) * step.
Proof.
  unfold steps_needed. pose proof (cdiv_upper step Hstep (target - total)).
  destruct (Z.le_gt_cases 0 (cdiv (target - total) step)).
  - rewrite Z2Nat.id by done. lia.
  - rewrite Z2Nat.nonpos by lia. nia.
Qed.

Lemma steps_needed_tight total :
  total < target →
  total + Z.of_nat (steps_needed plan total) * step < target + step.
Proof.
  intros. unfold steps_needed.
  pose proof (cdiv_lower step Hstep (target - total)).
  pose proof (cdiv_pos step Hstep (target - total)).
  rewrite Z2Nat.id by lia. lia.
Qed.

Lemma steps_needed_0 total : target <= total → steps_needed plan total = 0%nat.
Proof.
  intros. unfold steps_needed.
  pose proof (cdiv_nonpos step Hstep (target - total)). lia.
Qed.

Lemma steps_needed_S total :
  total < target → steps_needed plan total = S (steps_needed plan (total + step)).
Proof.
  intros. unfold steps_needed.
  replace (target - (total + step)) with (target - total - step) by lia.
  rewrite cdiv_sub by done.
  pose proof (cdiv_pos step Hstep (target - total)). lia.
Qed.

Lemma accepts_n_le k k' total w :
  (k <= k')%nat → accepts_n k' total w = true → accepts_n k total w = true.
Proof.
  revert k' total w. induction k as [|k IH]; intros k' total w Hle Ha; [done|].
  destruct k' as [|k']; [lia|]. simpl in *.
  apply andb_true_iff in Ha as [-> Ha]. simpl. apply (IH k'); [lia | done].
Qed.

(** Fewer iterations than steps: the loop is stopped on its way. *)
Lemma grow_stopped k total w :
  0 <= total → total + Z.of_nat k * step < target →
  accepts_n k total w = true →
  grow k total w = OutOfFuel (grown_n k total w).
Proof.
  intros Ht Hk Ha. rewrite <- (Nat.add_0_r k) at 1.
  rewrite grow_accepted_n; [|done|lia|done].
  by apply grow_out_of_fuel.
Qed.

(** *** Every reservation succeeds *)

(** The loop runs [steps_needed] times and returns the size reached. *)
Lemma grow_all_accepted fuel total w :
  0 <= total →
  (steps_needed plan total <= fuel)%nat →
  accepts_n (steps_needed plan total) total w = true →
  grow fuel total w =
  Ok (total + Z.of_nat (steps_needed plan total) * step)
     (grown_n (steps_needed plan total) total w).
Proof.
  intros Ht Hf Ha. set (n := steps_needed plan total) in *.
  replace fuel with (n + (fuel - n))%nat by lia.
  destruct (Z.le_gt_cases target total).
  - unfold n. rewrite steps_needed_0 by done. simpl.
    rewrite Z.add_0_r. by apply grow_done.
  - rewrite grow_accepted_n; [|done|by apply steps_needed_tight|done].
    apply grow_done, steps_needed_covers.
Qed.

(** *** The [k]-th reservation is refused *)

Lemma grow_refused_at k fuel total w :
  0 <= total → total + Z.of_nat k * step < target →
  (k < fuel)%nat →
  accepts_n k total w = true → accepts (grown_n k total w) = false →
  grow fuel total w =
  Ok (total + Z.of_nat k * step) (refused (grown_n k total w)).
Proof.
  intros Ht Hk Hf Ha Hr.
  replace fuel with (k + S (fuel - S k))%nat by lia.
  rewrite grow_accepted_n; [|done|lia|done].
  by apply grow_refused.
Qed.

(** *** Whatever the allocator does *)

Lemma grown_later total w : world_later w (grown total w).
Proof.
  repeat split; simpl; try done; try lia.
  rewrite <- app_assoc. by apply prefix_app_r.
Qed.

Lemma refused_later w : world_later w (refused w).
Proof. repeat split; simpl; try done; try lia. by apply prefix_app_r. Qed.

(** With fuel for [steps_needed] iterations the loop returns: it has
    reached the target, or a reservation was refused.  The size it
    returns is below [target + step]. *)
Lemma grow_terminates fuel total w :
  0 <= total → (steps_needed plan total <= fuel)%nat →
  ∃ total' w', grow fuel total w = Ok total' w' ∧
    total <= total' ∧ (target <= total → total' = total) ∧
    (total < target → total' < target + step) ∧ world_later w w'.
Proof.
  revert total w. induction fuel as [|fuel IH]; intros total w Ht Hf;
    destruct (Z.le_gt_cases target total) as [Hd|Hd];
    try (exists total, w; rewrite grow_done by done; split_and!; (done || lia)).
  { rewrite steps_needed_S in Hf by done. lia. }
  destruct (accepts w) eqn:Ha.
  - rewrite grow_accepted by done.
    rewrite steps_needed_S in Hf by done.
    destruct (IH (total + step) (grown (total + step) w)) as (t'&w'&->&?&?&?&Hl);
      [lia|lia|].
    exists t', w'. split_and!; [done|lia|lia|lia|].
    etrans; [apply grown_later | done].
  - exists total, (refused w). rewrite grow_refused by done.
    split_and!; [done|lia|lia|lia|apply refused_later].
Qed.

(** The loop never runs into undefined behaviour, whatever the fuel. *)
Lemma grow_no_fault fuel total w f w' :
  0 <= total → grow fuel total w ≠ Fault f w'.
Proof.
  revert total w. induction fuel as [|fuel IH]; intros total w Ht;
    destruct (Z.le_gt_cases target total) as [Hd|Hd];
    try (by rewrite grow_done by done).
  { by rewrite grow_out_of_fuel by done. }
  destruct (accepts w) eqn:Ha.
  - rewrite grow_accepted by done. apply IH. lia.
  - by rewrite grow_refused by done.
Qed.

(** ** The world after [k] steps, in closed form *)

Lemma grown_n_out k total w :
  w_out (grown_n k total w) = w_out w ++ step_events k total.
Proof.
  revert total w. induction k as [|k IH]; intros total w; simpl.
  - by rewrite app_nil_r.
  - rewrite IH. simpl. by rewrite <- !app_assoc.
Qed.

Lemma grown_n_calls k total w :
  w_calls (grown_n k total w) = (w_calls w + k)%nat.
Proof.
  revert total w. induction k as [|k IH]; intros total w; simpl; [lia|].
  rewrite IH. simpl. lia.
Qed.

Lemma grown_n_alloc k total w : w_alloc (grown_n k total w) = w_alloc w.
Proof. revert total w. induction k as [|k IH]; intros total w; simpl; [done|]. by rewrite IH. Qed.

Lemma grown_n_pid k total w : w_pid (grown_n k total w) = w_pid w.
Proof. revert total w. induction k as [|k IH]; intros total w; simpl; [done|]. by rewrite IH. Qed.

Lemma grown_n_next k total w :
  Z.pos (h_next (w_heap (grown_n k total w))) = Z.pos (h_next (w_heap w)) + Z.of_nat k.
Proof.
  revert total w. induction k as [|k IH]; intros total w; simpl grown_n; [lia|].
  rewrite IH. simpl. lia.
Qed.

Lemma step_block_wf : block_wf step_block.
Proof.
  apply block_fill_wf; simpl; try lia; [|apply byte_of_int_range].
  split; [simpl; lia | constructor].
Qed.

Lemma grown_wf total w : world_wf w → world_wf (grown total w).
Proof. intros. apply heap_add_wf; [done | apply step_block_wf]. Qed.

Lemma grown_n_wf k total w : world_wf w → world_wf (grown_n k total w).
Proof.
  revert total w. induction k as [|k IH]; intros total w Hwf; simpl; [done|].
  by apply IH, grown_wf.
Qed.

(** The footprint grows by [step] with every step. *)
Lemma grown_n_live_bytes k total w :
  world_wf w →
  heap_live_bytes (w_heap (grown_n k total w)) =
  heap_live_bytes (w_heap w) + Z.of_nat k * step.
Proof.
  revert total w. induction k as [|k IH]; intros total w Hwf; simpl grown_n; [lia|].
  rewrite IH by by apply grown_wf. simpl.
  rewrite heap_add_live_bytes by done. simpl. lia.
Qed.

(** What was live before the loop is live and unchanged after it. *)
Lemma grown_n_extends k total w :
  world_wf w → heap_extends (w_heap w) (w_heap (grown_n k total w)).
Proof.
  revert total w. induction k as [|k IH]; intros total w Hwf; simpl grown_n; [done|].
  etrans; [|apply IH, grown_wf, Hwf]. by apply heap_add_extends.
Qed.

(** The blocks the loop has reserved are [step] bytes of zeros. *)
Lemma grown_n_blocks k total w b :
  world_wf w →
  (h_next (w_heap w) <= b < h_next (w_heap (grown_n k total w)))%positive →
  h_blocks (w_heap (grown_n k total w)) !! b = Some step_block.
Proof.
  revert total w. induction k as [|k IH]; intros total w Hwf Hb; simpl grown_n in *; [lia|].
  destruct (decide (b = h_next (w_heap w))) as [->|Hne].
  - apply (grown_n_extends k (total + step) _ (grown_wf (total + step) w Hwf)).
    simpl. apply lookup_insert_eq.
  - apply IH; [by apply grown_wf|]. simpl. lia.
Qed.

Lemma step_block_filled : block_filled step_block 0.
Proof. apply (block_fill_whole (Block step []) (byte_of_int 0)). Qed.

Lemma refused_wf w : world_wf w → world_wf (refused w).
Proof. done. Qed.

Lemma refused_extends w : heap_extends (w_heap w) (w_heap (refused w)).
Proof. done. Qed.

Lemma refused_live_bytes w :
  heap_live_bytes (w_heap (refused w)) = heap_live_bytes (w_heap w).
Proof. done. Qed.

(** Whatever the allocator does and whatever the fuel, the world the loop
    stops in is well formed, later than the world it started in, and holds
    every block that was live, unchanged. *)
Lemma grow_invariant fuel total w :
  0 <= total → world_wf w →
  world_wf (outcome_world (grow fuel total w)) ∧
  world_later w (outcome_world (grow fuel total w)) ∧
  heap_extends (w_heap w) (w_heap (outcome_world (grow fuel total w))).
Proof.
  revert total w. induction fuel as [|fuel IH]; intros total w Ht Hwf;
    destruct (Z.le_gt_cases target total) as [Hd|Hd];
    try (by rewrite grow_done by done).
  { by rewrite grow_out_of_fuel by done. }
  destruct (accepts w) eqn:Ha.
  - rewrite grow_accepted by done.
    destruct (IH (total + step) (grown (total + step) w)) as (?&?&?);
      [lia | by apply grown_wf |].
    split_and!; [done | by etrans; [apply grown_later|] |].
    etrans; [|done]. by apply heap_add_extends.
  - rewrite grow_refused by done. simpl.
    split_and!; [done | apply refused_later | done].
Qed.

(** An allocator that never refuses a step accepts them all. *)
Lemma accepts_n_willing k total w :
  (∀ c h, w_alloc w c h step = true) → accepts_n k total w = true.
Proof.
  revert total w. induction k as [|k IH]; intros total w Hw; simpl; [done|].
  unfold accepts at 1. rewrite Hw. simpl. apply IH. intros c h. apply Hw.
Qed.

(** The events of the steps, one progress line and one sleep each. *)
Lemma length_step_events k total : length (step_events k total) = (2 * k)%nat.
Proof. revert total. induction k as [|k IH]; intros total; simpl; [done|]. rewrite IH. lia. Qed.

Lemma slept_step_events k total :
  slept (step_events k total) = Z.of_nat k * step_interval plan.
Proof.
  revert total. induction k as [|k IH]; intros total; simpl step_events; [done|].
  simpl slept. rewrite IH. lia.
Qed.

Lemma stderr_step_events k total : stderr_of (step_events k total) = [].
Proof. revert total. induction k as [|k IH]; intros total; simpl; [done|]. apply IH. Qed.

Lemma stdout_step_events k total :
  stdout_of (step_events k total) =
  (λ j, progress_line (total + Z.of_nat (S j) * step)) <$> seq 0 k.
Proof.
  revert total. induction k as [|k IH]; intros total; [done|].
  simpl step_events. change (seq 0 (S k)) with (0%nat :: seq 1 k).
  rewrite <- fmap_S_seq, fmap_cons, <- list_fmap_compose.
  unfold stdout_of in *. simpl. rewrite IH. f_equal; [f_equal; lia|].
  apply list_fmap_ext. intros _ j _. simpl. f_equal. lia.
Qed.

End Growth.

#[export] Hint Resolve grown_later refused_later grown_wf grown_n_wf step_block_wf : cmodel.
