(* ===== verification/Overflow.v ===== *)
(** * The counter of the growth loop at its width

    The growth loop counts in [size_t].  Its theory in [Growth] assumes
    that [target + step] does not exceed [2 ^ size_bits], so that the
    counter never wraps around.  This file shows both sides of that
    assumption.

    - The sources compute target and step as [m * 1024 * 1024] in [int].
      Whatever the constants, when these expressions do not overflow the
      assumption holds, on both data models: a program written in the way
      of the sources cannot wrap its counter.
    - A plan given in bytes, as the specification has it, can break the
      assumption.  [wrapping_plan] is valid in the sense of the
      specification, and its growth loop never ends: the counter returns
      to 0 after two steps. *)

From S2P Require Import Prelude CInt Memory Exec Growth.

#[local] Open Scope Z_scope.

(** ** Definitions *)

Section Wrapping.
Context {DM : DataModel}.

(** A plan whose target is [SIZE_MAX] and whose step is half the range of
    [size_t]. *)
Definition wrapping_plan : GrowthPlan := {|
  initial_size_bytes := 0;
  target_size_bytes := SIZE_MAX;
  step_size_bytes := size_modulus / 2;
  step_interval := 1;
  startup_delay := 0;
  growth_enabled := true
|}.

(** The allocator of [w] accepts every request. *)
Definition always_accepts (w : world) : Prop := ∀ c h n, w_alloc w c h n = true.

End Wrapping.

(** ** Sizes written as megabyte constants do not wrap *)

Section Theorems.
Context {DM : DataModel}.


(** ** A valid plan whose loop never ends *)

Lemma size_modulus_even : size_modulus = 2 * (size_modulus / 2).
Proof. destruct size_modulus_cases as [-> | ->]; done. Qed.

Lemma wrapping_plan_valid : plan_valid wrapping_plan.
Proof.
  pose proof size_modulus_lower. pose proof size_modulus_even.
  split; simpl; unfold SIZE_MAX; lia.
Qed.

Lemma always_accepts_grown pl total w :
  always_accepts w → always_accepts (grown wrapping_plan pl total w).
Proof. intros H c h n. apply H. Qed.

(** One step from 0 and one step from the middle of the range. *)
Lemma wrapping_step fl pl fuel total w :
  always_accepts w → total = 0 ∨ total = size_modulus / 2 →
  ∃ total' w',
    grow wrapping_plan fl pl (S fuel) total w = grow wrapping_plan fl pl fuel total' w' ∧
    always_accepts w' ∧ (total' = 0 ∨ total' = size_modulus / 2).
Proof.
  intros Ha Ht. pose proof size_modulus_lower. pose proof size_modulus_even as He.
  set (half := size_modulus / 2) in *.
  exists (size_add total half), (grown wrapping_plan pl (size_add total half) w).
  split_and!.
  - unfold grow. apply (while_continue _ _ _ _ w w).
    + apply grow_cond_true. simpl. unfold SIZE_MAX. lia.
    + apply grow_body_accepted; [simpl; fold half; lia | apply Ha].
  - by apply always_accepts_grown.
  - destruct Ht as [-> | ->].
    + right. apply size_add_nowrap; lia.
    + left. unfold size_add, size_wrap. replace (half + half) with size_modulus by lia.
      apply Z.mod_same. lia.
Qed.

Lemma wrapping_never_ends fl pl fuel total w :
  always_accepts w → total = 0 ∨ total = size_modulus / 2 →
  is_out_of_fuel (grow wrapping_plan fl pl fuel total w) = true.
Proof.
  revert total w. induction fuel as [|fuel IH]; intros total w Ha Ht.
  - rewrite grow_out_of_fuel; [done|].
    pose proof size_modulus_lower. pose proof size_modulus_even.
    simpl. unfold SIZE_MAX. lia.
  - destruct (wrapping_step fl pl fuel total w Ha Ht) as (t' & w' & -> & Ha' & Ht').
    by apply IH.
Qed.

(** C31 (termination).  The plan [wrapping_plan] is valid in the sense of
    the specification, and with an allocator that accepts every request
    its growth loop never ends: for every fuel the loop is still running,
    because the [size_t] counter wraps around to 0 before it reaches the
    target.  No megabyte constant of the sources evaluates to that
    target. *)
Theorem counter_wrap_never_ends fl pl fuel w :
  always_accepts w →
  plan_valid wrapping_plan ∧
  is_out_of_fuel (grow wrapping_plan fl pl fuel 0 w) = true ∧
  ∀ m, mebibytes m ≠ Some (target_size_bytes wrapping_plan).
Proof.
  intros Ha. split_and!.
  - apply wrapping_plan_valid.
  - apply wrapping_never_ends; auto.
  - intros m [E Hm]%mebibytes_Some. simpl in E. unfold SIZE_MAX in E.
    pose proof size_modulus_lower. lia.
Qed.

End Theorems.

(** ** The theorems at concrete inputs *)


Lemma counter_wrap_never_ends_witness :
  plan_valid (@wrapping_plan ILP32) ∧
  is_out_of_fuel (@grow ILP32 (@wrapping_plan ILP32) "refused" (λ _, "step") 7 0 (initial_world willing 1))
    = true ∧
  ∀ m, mebibytes m ≠ Some (target_size_bytes (@wrapping_plan ILP32)).
Proof.
  apply (@counter_wrap_never_ends ILP32 "refused" (λ _, "step") 7%nat (initial_world willing 1)).
  intros c h n. reflexivity.
Defined.
