(* ===== verification/Simulator.v ===== *)
(** * The Simulator of the specification: [run(plan)]

    The one operation of the specification: reserve and zero-fill the
    initial block, report readiness, wait for the startup delay, grow in
    steps when growth is enabled, and idle for ever.  It is written here
    over a [Simulation], the plan together with the idle interval and the
    texts a variant prints, in the same monad as the programs, and with
    the growth loop of [Growth] as its step 4.

    The class [Simulated] is the interface between a program and the
    specification: an instance states which simulation a [main] function
    runs.  The theorems of this file are proved for [run] and hold for
    every instance; [Refinement] declares the instances of [src/app.c]
    and [src/memory_usage_program.c]. *)

From S2P Require Import Prelude CInt Memory Exec Preserve Growth.

#[local] Open Scope Z_scope.

(** ** Definitions *)

Record Simulation := {
  sim_plan : GrowthPlan;
  sim_idle_interval : Z;
  sim_start_failure : string;
  sim_ready : Z → string;
  sim_waiting : string;
  sim_growth_failure : string;
  sim_progress : Z → string
}.

(** The simulation with growth switched on or off. *)
Definition with_growth (b : bool) (s : Simulation) : Simulation := {|
  sim_plan := {|
    initial_size_bytes := initial_size_bytes (sim_plan s);
    target_size_bytes := target_size_bytes (sim_plan s);
    step_size_bytes := step_size_bytes (sim_plan s);
    step_interval := step_interval (sim_plan s);
    startup_delay := startup_delay (sim_plan s);
    growth_enabled := b
  |};
  sim_idle_interval := sim_idle_interval s;
  sim_start_failure := sim_start_failure s;
  sim_ready := sim_ready s;
  sim_waiting := sim_waiting s;
  sim_growth_failure := sim_growth_failure s;
  sim_progress := sim_progress s
|}.

Section Run.
Context {DM : DataModel} (s : Simulation).

#[local] Abbreviation plan := (sim_plan s).
#[local] Abbreviation initial := (initial_size_bytes (sim_plan s)).

(** Step 4: the growth loop, from the initial size, when it is enabled. *)
Definition growth (fuel : nat) : M unit :=
  if growth_enabled plan then
    _ ← grow plan (sim_growth_failure s) (sim_progress s) fuel initial;
    mret tt
  else mret tt.

(** Step 5: idle for ever, in waits of [sim_idle_interval]. *)
Definition idle (fuel : nat) : M unit :=
  _ ← while_ fuel
    (λ _ : unit, mret true)
    (λ _, sleep (sim_idle_interval s);; mret (Continue tt))
    tt;
  mret tt.

(** [run(plan)].  [fuel_grow] bounds the iterations of the growth loop,
    [fuel_idle] the rounds of the idle phase. *)
Definition run (fuel_grow fuel_idle : nat) : M Z :=
  p ← malloc initial;
  if is_null p then
    fprintf_stderr (sim_start_failure s);;
    mret 1
  else
    memset p 0 initial;;
    pid ← getpid;
    printf (sim_ready s pid);;
    printf (sim_waiting s);;
    sleep (startup_delay plan);;
    growth fuel_grow;;
    idle fuel_idle;;
    mret 0.

(** ** The worlds of a run *)

(** The initial block, zero-filled. *)
Definition run_block : block := block_fill (Block initial []) 0 initial (byte_of_int 0).

(** The allocator's answer to the initial reservation. *)
Definition run_accepted (w : world) : bool := w_alloc w (w_calls w) (w_heap w) initial.

(** The world in which the run exits when the initial reservation fails. *)
Definition run_refused (w : world) : world :=
  add_event (Stderr (sim_start_failure s)) (count_call w).

(** The world at the end of the startup delay. *)
Definition run_started (w : world) : world :=
  add_event (Sleep (startup_delay plan))
    (add_event (Stdout (sim_waiting s))
       (add_event (Stdout (sim_ready s (w_pid w)))
          (set_heap (heap_add (w_heap w) run_block) (count_call w)))).

(** The world after [n] rounds of idling from [w]. *)
Definition idled (n : nat) (w : world) : world :=
  Nat.iter n (add_event (Sleep (sim_idle_interval s))) w.

(** The allocator accepts the initial reservation and every growth step
    up to the target. *)
Definition run_all_accepted (w : world) : bool :=
  run_accepted w &&
  accepts_n plan (sim_progress s) (steps_needed plan initial) initial (run_started w).

(** The world in which a run with growth idles after [k] growth steps. *)
Definition run_grown (k n : nat) (w : world) : world :=
  idled n (grown_n plan (sim_progress s) k initial (run_started w)).

(** The events of startup and of [n] rounds of idling. *)
Definition startup_events (pid : Z) : list event :=
  [Stdout (sim_ready s pid); Stdout (sim_waiting s); Sleep (startup_delay plan)].

Definition idle_events (n : nat) : list event :=
  replicate n (Sleep (sim_idle_interval s)).

End Run.

(** ** The interface of a simulator program

    [main] runs the simulation [simulation]: on every world and for every
    fuel of its idle loop it behaves as [run] with [growth_fuel] for the
    growth loop. *)
Class Simulated {DM : DataModel} (main : nat → M Z) := {
  simulation : Simulation;
  growth_fuel : nat;
  main_run : ∀ fuel w, main fuel w = run simulation growth_fuel fuel w
}.

Arguments simulation {DM} main {_}.
Arguments growth_fuel {DM} main {_}.

(** ** The growth loop from a shifted counter

    Two plans with the same step whose targets differ by [c] run the same
    loop when the counter of the second starts [c] higher and its
    progress text allows for the shift.  A leak loop that counts from 0
    what it has leaked, and a growth loop that counts the total from the
    initial size, are related in this way. *)

Lemma grow_shift {DM : DataModel} (p p' : GrowthPlan) fl (pl pl' : Z → string) c
    fuel total w :
  step_size_bytes p' = step_size_bytes p → step_interval p' = step_interval p →
  target_size_bytes p' = target_size_bytes p + c →
  (∀ t, pl' (t + c) = pl t) →
  0 < step_size_bytes p → 0 <= c → 0 <= total →
  target_size_bytes p + c + step_size_bytes p <= size_modulus →
  (grow p' fl pl' fuel (total + c) ≫= λ _, mret tt) w =
  (grow p fl pl fuel total ≫= λ _, mret tt) w.
Proof.
  intros Es Ei Et Hpl Hs Hc Ht Hw.
  assert (0 < step_size_bytes p') as Hs' by lia.
  assert (target_size_bytes p' + step_size_bytes p' <= size_modulus) as Hw' by lia.
  assert (target_size_bytes p + step_size_bytes p <= size_modulus) as Hw0 by lia.
  unfold mbind, M_bind.
  revert total w Ht. induction fuel as [|fuel IH]; intros total w Ht;
    (destruct (decide (target_size_bytes p <= total)) as [Hd|Hd];
     [by rewrite (grow_done p' fl pl' _ (total + c) w), (grow_done p fl pl _ total w) by lia |]).
  - by rewrite (grow_out_of_fuel p' fl pl' (total + c) w),
      (grow_out_of_fuel p fl pl total w) by lia.
  - assert (accepts p' w = accepts p w) as Ea by (unfold accepts; by rewrite Es).
    destruct (accepts p w) eqn:Ha.
    + rewrite (grow_accepted p' fl pl' Hs' Hw'), (grow_accepted p fl pl Hs Hw0)
        by (done || lia).
      replace (total + c + step_size_bytes p') with (total + step_size_bytes p + c) by lia.
      replace (grown p' pl' (total + step_size_bytes p + c) w)
        with (grown p pl (total + step_size_bytes p) w).
      * apply IH. lia.
      * unfold grown, step_block. by rewrite Es, Ei, Hpl.
    + by rewrite (grow_refused p' fl pl' _ (total + c) w),
        (grow_refused p fl pl _ total w) by (done || lia).
Qed.

(** ** Theorems on [run] *)

Section RunTheory.
Context {DM : DataModel} (s : Simulation).

#[local] Abbreviation plan := (sim_plan s).
#[local] Abbreviation initial := (initial_size_bytes (sim_plan s)).

Lemma idle_forever fuel w : idle s fuel w = OutOfFuel (idled s fuel w).
Proof.
  unfold idle. erewrite bind_OutOfFuel; [done|].
  by apply (while_forever _ _ (add_event (Sleep (sim_idle_interval s)))).
Qed.

Lemma growth_disabled fuel w : growth_enabled plan = false → growth s fuel w = Ok tt w.
Proof. intros H. unfold growth. by rewrite H. Qed.

Lemma growth_enabled_world fuel w :
  growth_enabled plan = true →
  outcome_world (growth s fuel w) =
  outcome_world (grow plan (sim_growth_failure s) (sim_progress s) fuel initial w).
Proof.
  intros H. unfold growth. rewrite H. unfold mbind, M_bind.
  by destruct (grow _ _ _ _ _ _).
Qed.

(** The startup: either the initial reservation is refused and the run
    exits with status 1, or the run goes on from [run_started w] with the
    growth and the idle phase. *)
Lemma run_startup fuel_grow fuel_idle w :
  0 <= initial →
  run s fuel_grow fuel_idle w =
  if run_accepted s w
  then (growth s fuel_grow;; idle s fuel_idle;; mret 0) (run_started s w)
  else Ok 1 (run_refused s w).
Proof.
  intros Hi. unfold run, run_accepted.
  destruct (malloc_cases initial w) as [[Ha E]|[Ha E]]; rewrite Ha.
  - rewrite (bind_Ok _ _ _ _ _ E). change (is_null (Ptr _ _)) with false. cbv iota.
    rewrite (bind_Ok _ _ _ _ _ (memset_fresh initial 0 w Hi)).
    by do 4 mstep.
  - by rewrite (bind_Ok _ _ _ _ _ E).
Qed.

(** With growth disabled the run idles from [run_started w]. *)
Lemma run_disabled fuel_grow fuel_idle w :
  0 <= initial → growth_enabled plan = false →
  run s fuel_grow fuel_idle w =
  if run_accepted s w
  then OutOfFuel (idled s fuel_idle (run_started s w))
  else Ok 1 (run_refused s w).
Proof.
  intros Hi Hg. rewrite run_startup by done. destruct (run_accepted s w); [|done].
  rewrite (bind_Ok _ _ _ _ _ (growth_disabled _ _ Hg)).
  by rewrite (bind_OutOfFuel _ _ _ _ (idle_forever _ _)).
Qed.

Lemma idled_out n w : w_out (idled s n w) = w_out w ++ idle_events s n.
Proof. apply iter_add_event_out. Qed.

Lemma idled_heap n w : w_heap (idled s n w) = w_heap w.
Proof. apply iter_add_event_heap. Qed.

Lemma run_started_out w :
  w_out (run_started s w) = w_out w ++ startup_events s (w_pid w).
Proof. unfold run_started, startup_events. simpl. by rewrite <- !app_assoc. Qed.

Lemma run_block_wf : 0 <= initial → block_wf (run_block s).
Proof.
  intros. apply block_fill_wf; simpl; try lia; [by split | apply byte_of_int_range].
Qed.

Lemma run_block_filled : block_filled (run_block s) 0.
Proof. apply (block_fill_whole (Block initial []) (byte_of_int 0)). Qed.

Lemma run_started_wf w : 0 <= initial → world_wf w → world_wf (run_started s w).
Proof. intros. by apply heap_add_wf; [|apply run_block_wf]. Qed.

Lemma run_started_live_bytes w :
  world_wf w →
  heap_live_bytes (w_heap (run_started s w)) = heap_live_bytes (w_heap w) + initial.
Proof. intros. by apply heap_add_live_bytes. Qed.

(** With growth enabled and every step accepted, the run grows to the
    target and idles there. *)
Lemma run_enabled fuel_grow fuel_idle w :
  0 <= initial → 0 < step_size_bytes plan →
  target_size_bytes plan + step_size_bytes plan <= size_modulus →
  growth_enabled plan = true → run_all_accepted s w = true →
  (steps_needed plan initial <= fuel_grow)%nat →
  run s fuel_grow fuel_idle w =
  OutOfFuel (run_grown s (steps_needed plan initial) fuel_idle w).
Proof.
  intros Hi Hs Hw Hg [Ha Hn]%andb_true_iff Hf.
  rewrite run_startup, Ha by done. unfold growth. rewrite Hg.
  erewrite bind_Ok; [by rewrite (bind_OutOfFuel _ _ _ _ (idle_forever _ _))|].
  erewrite bind_Ok; [done|]. by apply grow_all_accepted.
Qed.

(** With growth enabled and the step after the [k]-th refused, the run
    reports the refusal and idles with what it has. *)
Lemma run_enabled_refused k fuel_grow fuel_idle w :
  0 <= initial → 0 < step_size_bytes plan →
  target_size_bytes plan + step_size_bytes plan <= size_modulus →
  growth_enabled plan = true → run_accepted s w = true →
  initial + Z.of_nat k * step_size_bytes plan < target_size_bytes plan →
  (k < fuel_grow)%nat →
  accepts_n plan (sim_progress s) k initial (run_started s w) = true →
  accepts plan (grown_n plan (sim_progress s) k initial (run_started s w)) = false →
  run s fuel_grow fuel_idle w =
  OutOfFuel (idled s fuel_idle
    (refused (sim_growth_failure s)
       (grown_n plan (sim_progress s) k initial (run_started s w)))).
Proof.
  intros Hi Hs Hw Hg Ha Hk Hf Hn Hr. rewrite run_startup, Ha by done.
  unfold growth. rewrite Hg.
  erewrite bind_Ok; [by rewrite (bind_OutOfFuel _ _ _ _ (idle_forever _ _))|].
  erewrite bind_Ok; [done|]. by apply grow_refused_at.
Qed.

Lemma stdout_idle_events n : stdout_of (idle_events s n) = [].
Proof. induction n; [done|]. by simpl. Qed.

Lemma stderr_idle_events n : stderr_of (idle_events s n) = [].
Proof. induction n; [done|]. by simpl. Qed.

Lemma slept_idle_events n : slept (idle_events s n) = Z.of_nat n * sim_idle_interval s.
Proof.
  induction n as [|n IH]; [done|].
  change (slept (idle_events s (S n))) with (sim_idle_interval s + slept (idle_events s n)).
  lia.
Qed.

Lemma run_grown_out k n w :
  w_out (run_grown s k n w) =
  w_out w ++ startup_events s (w_pid w)
    ++ step_events plan (sim_progress s) k initial ++ idle_events s n.
Proof.
  unfold run_grown. by rewrite idled_out, grown_n_out, run_started_out, <- !app_assoc.
Qed.

Lemma run_grown_live_bytes k n w :
  0 <= initial → 0 < step_size_bytes plan → world_wf w →
  heap_live_bytes (w_heap (run_grown s k n w)) =
  heap_live_bytes (w_heap w) + initial + Z.of_nat k * step_size_bytes plan.
Proof.
  intros Hi Hs Hwf. unfold run_grown.
  rewrite idled_heap, grown_n_live_bytes by (done || by apply run_started_wf).
  by rewrite run_started_live_bytes.
Qed.

End RunTheory.
