(* ===== verification/Phases.v ===== *)
(** * The phase machine of the Simulator

    The specification names three phases, starting, growing and idle,
    with idle as the terminal one.  The machine is a labelled step
    relation on a phase and the cumulative size reserved; a label is the
    list of events the step produces.  A failed initial reservation ends
    the process with status 1: it is an exit of the machine from its
    starting phase and not a phase.

    The first part proves the machine's own properties by induction on
    its paths.  The second part shows that [run], and so every program
    that is [Simulated], refines the machine: the events of a run, for
    every allocator and every fuel, are the labels of a path of the
    machine from its initial state, and the footprint of the world the run
    stops in is the size of the state the path ends in. *)

From S2P Require Import Prelude CInt Memory Exec Preserve Growth Simulator.

#[local] Open Scope Z_scope.

(** ** The machine *)

Inductive phase := STARTING | GROWING | IDLE.

#[export] Instance phase_eq_dec : EqDecision phase.
Proof. solve_decision. Defined.

Record sim_state := SimState { st_phase : phase; st_reserved : Z }.

#[export] Instance sim_state_eq_dec : EqDecision sim_state.
Proof. solve_decision. Defined.

Definition sim_initial : sim_state := SimState STARTING 0.

Section Machine.
Context (s : Simulation) (pid : Z).

#[local] Abbreviation plan := (sim_plan s).
#[local] Abbreviation initial := (initial_size_bytes (sim_plan s)).
#[local] Abbreviation target := (target_size_bytes (sim_plan s)).
#[local] Abbreviation step := (step_size_bytes (sim_plan s)).

(** The phase that follows the startup delay. *)
Definition after_startup : phase := if growth_enabled plan then GROWING else IDLE.

Inductive sim_step : sim_state → list event → sim_state → Prop :=
  | step_startup :
      sim_step (SimState STARTING 0) (startup_events s pid) (SimState after_startup initial)
  | step_grow total :
      total < target →
      sim_step (SimState GROWING total)
        [Stdout (sim_progress s (total + step)); Sleep (step_interval plan)]
        (SimState GROWING (total + step))
  | step_refused total :
      total < target →
      sim_step (SimState GROWING total) [Stderr (sim_growth_failure s)] (SimState IDLE total)
  | step_reached total :
      target <= total →
      sim_step (SimState GROWING total) [] (SimState IDLE total)
  | step_idle total :
      sim_step (SimState IDLE total) [Sleep (sim_idle_interval s)] (SimState IDLE total).

(** The exit with a status: only a failed initial reservation. *)
Inductive sim_exit : sim_state → list event → Z → Prop :=
  | exit_start_failure :
      sim_exit (SimState STARTING 0) [Stderr (sim_start_failure s)] 1.

(** Paths: the labels of the steps, concatenated. *)
Inductive sim_path : sim_state → list event → sim_state → Prop :=
  | path_nil a : sim_path a [] a
  | path_cons a l b l' c : sim_step a l b → sim_path b l' c → sim_path a (l ++ l') c.

(** What holds in every state that is reached. *)
Definition sim_inv (st : sim_state) : Prop :=
  match st_phase st with
  | STARTING => st_reserved st = 0
  | GROWING =>
      growth_enabled plan = true ∧ initial <= st_reserved st < target + step
  | IDLE =>
      initial <= st_reserved st ∧
      (if growth_enabled plan then st_reserved st < target + step
       else st_reserved st = initial)
  end.

(** The executable machine: the step a state takes when the allocator
    answers [accepted] to the reservation of a growth step. *)
Definition sim_next (accepted : bool) (st : sim_state) : list event * sim_state :=
  match st_phase st with
  | STARTING => (startup_events s pid, SimState after_startup initial)
  | GROWING =>
      if st_reserved st <? target then
        if accepted
        then ([Stdout (sim_progress s (st_reserved st + step)); Sleep (step_interval plan)],
              SimState GROWING (st_reserved st + step))
        else ([Stderr (sim_growth_failure s)], SimState IDLE (st_reserved st))
      else ([], SimState IDLE (st_reserved st))
  | IDLE => ([Sleep (sim_idle_interval s)], SimState IDLE (st_reserved st))
  end.

(** ** Properties of the machine *)

Lemma path_one a l b : sim_step a l b → sim_path a l b.
Proof. intros H. rewrite <- (app_nil_r l). by eapply path_cons; [|apply path_nil]. Qed.

Lemma path_app a l b l' c : sim_path a l b → sim_path b l' c → sim_path a (l ++ l') c.
Proof.
  induction 1 as [|a l1 b l2 c' Hs Hp IH]; [done|]. intros Hc.
  rewrite <- app_assoc. eapply path_cons; [done | by apply IH].
Qed.

Lemma path_snoc a l b l' c : sim_path a l b → sim_step b l' c → sim_path a (l ++ l') c.
Proof. intros Hp Hs. eapply path_app; [done | by apply path_one]. Qed.

(** The executable machine takes steps of the relation, and every step of
    the relation from a state reached with the startup at 0 is one of
    its steps. *)
Lemma sim_next_step accepted st :
  (st_phase st = STARTING → st_reserved st = 0) →
  sim_step st (sim_next accepted st).1 (sim_next accepted st).2.
Proof.
  destruct st as [[] total]; unfold sim_next; simpl; intros H0.
  - rewrite H0 by done. constructor.
  - destruct (Z.ltb_spec total target); [destruct accepted|]; by constructor.
  - constructor.
Qed.

Lemma sim_step_next a l b :
  sim_step a l b → ∃ accepted, sim_next accepted a = (l, b).
Proof.
  destruct 1 as [|total H|total H|total H|total]; unfold sim_next; simpl.
  - by exists true.
  - exists true. by rewrite (proj2 (Z.ltb_lt _ _) H).
  - exists false. by rewrite (proj2 (Z.ltb_lt _ _) H).
  - exists true. by rewrite (proj2 (Z.ltb_ge _ _) H).
  - by exists true.
Qed.

Section Valid.
Context (Hvalid : 0 <= initial <= target) (Hstep : 0 < step).

Lemma sim_inv_initial : sim_inv sim_initial.
Proof. done. Qed.

Lemma sim_inv_step a l b : sim_inv a → sim_step a l b → sim_inv b.
Proof.
  unfold sim_inv. intros Ha Hs.
  destruct Hs as [|total H|total H|total H|total]; unfold after_startup; simpl in *;
    destruct (growth_enabled plan); simpl in *; intuition (done || lia).
Qed.

Lemma sim_inv_path a l b : sim_inv a → sim_path a l b → sim_inv b.
Proof. induction 2; eauto using sim_inv_step. Qed.

(** The size reserved never shrinks. *)
Lemma sim_step_mono a l b : sim_step a l b → st_reserved a <= st_reserved b.
Proof. destruct 1; simpl; lia. Qed.

Lemma sim_path_mono a l b : sim_path a l b → st_reserved a <= st_reserved b.
Proof. induction 1 as [|a l b l' c Hs%sim_step_mono Hp IH]; lia. Qed.

(** [k] accepted growth steps. *)
Lemma sim_path_grow k total :
  total + Z.of_nat k * step < target + step →
  sim_path (SimState GROWING total)
    (step_events plan (sim_progress s) k total)
    (SimState GROWING (total + Z.of_nat k * step)).
Proof.
  revert total. induction k as [|k IH]; intros total Hk.
  - rewrite Z.add_0_r. apply path_nil.
  - replace (total + Z.of_nat (S k) * step) with (total + step + Z.of_nat k * step) by lia.
    apply (path_cons _ [_; _] _ _ _ (step_grow total ltac:(nia))). apply IH. lia.
Qed.

End Valid.

(** Idle is terminal: the machine stays there, with the size it has, and
    only sleeps. *)
Lemma sim_idle_terminal total l st :
  sim_path (SimState IDLE total) l st →
  st = SimState IDLE total ∧ ∃ n, l = idle_events s n.
Proof.
  remember (SimState IDLE total) as a eqn:Ea. induction 1 as [|a l b l' c Hs Hp IH].
  - split; [done | by exists 0%nat].
  - subst a. inversion Hs; subst. destruct (IH eq_refl) as [-> [n ->]].
    split; [done | by exists (S n)].
Qed.

(** No phase is left for the starting phase. *)
Lemma sim_step_not_starting a l b : sim_step a l b → st_phase b ≠ STARTING.
Proof. destruct 1; simpl; unfold after_startup; try done. by destruct (growth_enabled _). Qed.

(** [n] rounds of idling. *)
Lemma sim_path_idle total n :
  sim_path (SimState IDLE total) (idle_events s n) (SimState IDLE total).
Proof.
  induction n as [|n IH]; [apply path_nil|].
  apply (path_cons _ [_] _ _ _ (step_idle total) IH).
Qed.

End Machine.

(** ** [run] refines the machine *)

Section Refinement.
Context {DM : DataModel} (s : Simulation).

#[local] Abbreviation plan := (sim_plan s).
#[local] Abbreviation initial := (initial_size_bytes (sim_plan s)).
#[local] Abbreviation target := (target_size_bytes (sim_plan s)).
#[local] Abbreviation step := (step_size_bytes (sim_plan s)).

(** The outcome of a run started in the world [w] is matched by the
    machine: either the run has exited with status 1, the machine takes
    its exit with the events the run added, and the heap is as it was; or
    the run is still going (it never returns otherwise), its events are
    the labels of a path from the initial state, and its footprint has
    grown by the size of the state the path ends in. *)
Inductive run_refined (w : world) : outcome Z → Prop :=
  | refined_exit l w' :
      w_out w' = w_out w ++ l → sim_exit s sim_initial l 1 → w_heap w' = w_heap w →
      run_refined w (Ok 1 w')
  | refined_running l st w' :
      w_out w' = w_out w ++ l → sim_path s (w_pid w) sim_initial l st →
      (world_wf w →
       heap_live_bytes (w_heap w') = heap_live_bytes (w_heap w) + st_reserved st) →
      run_refined w (OutOfFuel w').

(** The same for the growth loop alone, from the counter [total]: it
    returns in the idle phase, or is stopped in the growing phase. *)
Inductive grow_refined (w : world) (total : Z) : outcome Z → Prop :=
  | grow_refined_idle l t w' :
      w_out w' = w_out w ++ l →
      sim_path s (w_pid w) (SimState GROWING total) l (SimState IDLE t) →
      (world_wf w →
       world_wf w' ∧ heap_live_bytes (w_heap w') = heap_live_bytes (w_heap w) + (t - total)) →
      grow_refined w total (Ok t w')
  | grow_refined_growing l t w' :
      w_out w' = w_out w ++ l →
      sim_path s (w_pid w) (SimState GROWING total) l (SimState GROWING t) →
      (world_wf w →
       world_wf w' ∧ heap_live_bytes (w_heap w') = heap_live_bytes (w_heap w) + (t - total)) →
      grow_refined w total (OutOfFuel w').

Context (Hvalid : 0 <= initial <= target) (Hstep : 0 < step).
Context (Hnowrap : target + step <= size_modulus).

(** A growth step that was accepted, before a run that is matched. *)
Lemma grow_refined_step total w r :
  total < target →
  grow_refined (grown plan (sim_progress s) (total + step) w) (total + step) r →
  grow_refined w total r.
Proof.
  intros Ht.
  pose (l0 := [Stdout (sim_progress s (total + step)); Sleep (step_interval plan)]).
  assert (∀ w' t, (world_wf (grown plan (sim_progress s) (total + step) w) →
            world_wf w' ∧ heap_live_bytes (w_heap w') =
              heap_live_bytes (w_heap (grown plan (sim_progress s) (total + step) w))
              + (t - (total + step))) →
          world_wf w → world_wf w' ∧
            heap_live_bytes (w_heap w') = heap_live_bytes (w_heap w) + (t - total)) as Hfp.
  { intros w' t Hf Hwf. destruct (Hf (grown_wf _ _ Hstep _ _ Hwf)) as [? ->].
    split; [done|].
    pose proof (grown_n_live_bytes plan (sim_progress s) Hstep 1 total w Hwf) as E.
    change (grown_n _ _ 1 total w) with (grown plan (sim_progress s) (total + step) w) in E.
    lia. }
  destruct 1 as [l t w' Ho Hp Hf | l t w' Ho Hp Hf].
  - apply (grow_refined_idle _ _ (l0 ++ l) t); [| |by apply Hfp].
    + rewrite Ho. simpl. by rewrite <- !app_assoc.
    + by apply (path_cons _ _ _ l0 _ _ _ (step_grow s _ total Ht)).
  - apply (grow_refined_growing _ _ (l0 ++ l) t); [| |by apply Hfp].
    + rewrite Ho. simpl. by rewrite <- !app_assoc.
    + by apply (path_cons _ _ _ l0 _ _ _ (step_grow s _ total Ht)).
Qed.

Lemma grow_refines fuel total w :
  0 <= total →
  grow_refined w total (grow plan (sim_growth_failure s) (sim_progress s) fuel total w).
Proof.
  revert total w. induction fuel as [|fuel IH]; intros total w Ht;
    (destruct (decide (target <= total)) as [Hd|Hd];
     [rewrite grow_done by done;
      apply (grow_refined_idle _ _ []); [by rewrite app_nil_r | by apply path_one, step_reached |];
      intros; split; [done | lia] |]).
  - rewrite grow_out_of_fuel by lia.
    apply (grow_refined_growing _ _ [] total); [by rewrite app_nil_r | apply path_nil |].
    intros; split; [done | lia].
  - destruct (accepts plan w) eqn:Ha.
    + rewrite grow_accepted by (done || lia). apply grow_refined_step; [lia|]. apply IH. lia.
    + rewrite grow_refused by (done || lia).
      apply (grow_refined_idle _ _ [Stderr (sim_growth_failure s)]);
        [done | apply path_one, step_refused; lia |].
      intros Hwf. split; [by apply refused_wf|]. rewrite refused_live_bytes. lia.
Qed.

(** What [run] does after the startup, by the outcome of the growth
    loop. *)
Lemma run_after_startup fuel_grow fuel_idle w1 :
  (growth s fuel_grow;; idle s fuel_idle;; mret 0) w1 =
  if growth_enabled plan then
    match grow plan (sim_growth_failure s) (sim_progress s) fuel_grow initial w1 with
    | Ok _ w' => OutOfFuel (idled s fuel_idle w')
    | Fault f w' => Fault f w'
    | OutOfFuel w' => OutOfFuel w'
    end
  else OutOfFuel (idled s fuel_idle w1).
Proof.
  unfold growth. destruct (growth_enabled plan).
  - destruct (grow _ _ _ _ _ _) as [t w'|f w'|w'] eqn:E.
    + rewrite (bind_Ok _ _ _ _ _ (eq_trans (bind_Ok _ (λ _, mret tt) _ _ _ E) eq_refl)).
      by rewrite (bind_OutOfFuel _ _ _ _ (idle_forever s fuel_idle w')).
    + by rewrite (bind_Fault _ _ _ _ _ (bind_Fault _ (λ _, mret tt) _ _ _ E)).
    + by rewrite (bind_OutOfFuel _ _ _ _ (bind_OutOfFuel _ (λ _, mret tt) _ _ E)).
  - by rewrite bind_ret_run, (bind_OutOfFuel _ _ _ _ (idle_forever s fuel_idle w1)).
Qed.

(** A run that has started and whose growth phase is matched up to the
    state [st], with idle rounds after it when [st] is idle. *)
Lemma run_refined_started w l st w' n :
  0 <= initial →
  w_out w' = w_out (run_started s w) ++ l →
  sim_path s (w_pid w) (SimState (after_startup s) initial) l st →
  (world_wf w →
   heap_live_bytes (w_heap w') = heap_live_bytes (w_heap w) + st_reserved st) →
  (n = 0%nat ∨ st_phase st = IDLE) →
  run_refined w (OutOfFuel (idled s n w')).
Proof.
  intros Hi Ho Hp Hf Hn.
  apply (refined_running _ (startup_events s (w_pid w) ++ l ++ idle_events s n) st).
  - by rewrite idled_out, Ho, run_started_out, <- !app_assoc.
  - apply (path_cons _ _ _ _ _ _ _ (step_startup s _)). eapply path_app; [done|].
    destruct Hn as [->|Hn]; [apply path_nil|].
    destruct st as [ph t]. simpl in Hn. subst ph. apply sim_path_idle.
  - by rewrite idled_heap.
Qed.

(** Refinement: for every allocator and every fuel, the outcome of
    [run] is matched by the machine. *)
Lemma run_refines fuel_grow fuel_idle w :
  run_refined w (run s fuel_grow fuel_idle w).
Proof.
  rewrite run_startup by lia. destruct (run_accepted s w) eqn:Ha.
  - rewrite run_after_startup. unfold after_startup in *.
    pose proof (grow_refines fuel_grow initial (run_started s w) ltac:(lia)) as Hr.
    pose proof (run_started_live_bytes s w) as Hb.
    pose proof (run_started_wf s w ltac:(lia)) as Hw.
    destruct (growth_enabled plan) eqn:Hg.
    + inversion Hr as [l t w' Ho Hp Hf E | l t w' Ho Hp Hf E].
      * apply (run_refined_started _ l (SimState IDLE t)); unfold after_startup;
          rewrite ?Hg; [lia | done | done | | by right].
        intros Hwf. destruct (Hf (Hw Hwf)) as [_ ->]. rewrite Hb by done. simpl. lia.
      * apply (run_refined_started _ l (SimState GROWING t) w' 0); unfold after_startup;
          rewrite ?Hg; [lia | done | done | | by left].
        intros Hwf. destruct (Hf (Hw Hwf)) as [_ ->]. rewrite Hb by done. simpl. lia.
    + apply (run_refined_started _ [] (SimState IDLE initial)); unfold after_startup;
        rewrite ?Hg; [lia | by rewrite app_nil_r | apply path_nil | done | by right].
  - by apply (refined_exit _ [Stderr (sim_start_failure s)]); [|constructor|].
Qed.

End Refinement.

(** ** Programs behind the interface *)

(** Every simulator program refines the machine of its simulation. *)
Lemma simulated_refines `{DM : DataModel} (main : nat → M Z) `{!Simulated main} fuel w :
  0 <= initial_size_bytes (sim_plan (simulation main))
    <= target_size_bytes (sim_plan (simulation main)) →
  0 < step_size_bytes (sim_plan (simulation main)) →
  target_size_bytes (sim_plan (simulation main)) + step_size_bytes (sim_plan (simulation main))
    <= size_modulus →
  run_refined (simulation main) w (main fuel w).
Proof. intros. rewrite (main_run fuel w). by apply run_refines. Qed.
