(* ===== verification/AppC.v ===== *)
(** * [src/app.c]: initial reservation, idle loop, and the leak loop

    [Module App] translates [src/app.c] statement by statement.
    [start_memory_leak] is the leak loop; [main] reserves and zero-fills
    the initial 100 MiB, prints the readiness lines, waits, and idles.  The
    call of [start_memory_leak] is commented out in the source, and so
    [main] does not run it here either.

    The definitions come first: the program, then the worlds its runs end
    in ([leaked], [leak_refused], [idling], [start_refused]).  The theorems
    follow; those on the leak loop are obtained from the theory of the
    growth loop through [start_memory_leak_grow]. *)

From S2P Require Import Prelude CInt Memory Exec Growth.

#[local] Open Scope Z_scope.

Module App.

Section Program.
Context {DM : DataModel}.

(** ** The constants of the source *)

Definition INITIAL_MEMORY_MB : Z := 100.
Definition LEAK_MEMORY_MB : Z := 1024.
Definition LEAK_CHUNK_MB : Z := 10.
Definition SLEEP_INTERVAL_SEC : Z := 1.
Definition DELAY_BEFORE_LEAK_SEC : Z := 60.

(** ** [start_memory_leak] *)

Definition start_memory_leak (fuel : nat) : M unit :=
  let total_leaked := 0 in
  _ ← while_ fuel
    (λ total_leaked,
       limit ← eval_int (mebibytes LEAK_MEMORY_MB);
       mret (size_ltb total_leaked (size_of_int limit)))
    (λ total_leaked,
       n ← eval_int (mebibytes LEAK_CHUNK_MB);
       leak ← malloc (size_of_int n);
       if is_null leak then
         fprintf_stderr ("Failed to allocate leak memory" +:+ nl);;
         mret (Break total_leaked)
       else
         n ← eval_int (mebibytes LEAK_CHUNK_MB);
         memset leak 0 (size_of_int n);;
         n ← eval_int (mebibytes LEAK_CHUNK_MB);
         let total_leaked := size_add total_leaked (size_of_int n) in
         d ← eval_int (int_lit 1024 *ᵢ int_lit 1024)%cm;
         mb ← eval_div (size_div total_leaked (size_of_int d));
         printf ("Leaked " +:+ fmt_zu mb +:+ " MB of memory" +:+ nl);;
         sleep (uint_of_int SLEEP_INTERVAL_SEC);;
         mret (Continue total_leaked))
    total_leaked;
  mret tt.

(** ** [main]

    [fuel] bounds the rounds of the final [while (1)]. *)

Definition main (fuel : nat) : M Z :=
  n ← eval_int (mebibytes INITIAL_MEMORY_MB);
  initial_memory ← malloc (size_of_int n);
  if is_null initial_memory then
    fprintf_stderr ("Failed to allocate initial memory" +:+ nl);;
    mret 1
  else
    n ← eval_int (mebibytes INITIAL_MEMORY_MB);
    memset initial_memory 0 (size_of_int n);;
    pid ← getpid;
    printf ("Initial 100 MB of memory allocated. PID: " +:+ fmt_d pid +:+ nl);;
    printf ("Waiting for " +:+ fmt_d DELAY_BEFORE_LEAK_SEC
            +:+ " seconds before starting the memory leak..." +:+ nl);;
    sleep (uint_of_int DELAY_BEFORE_LEAK_SEC);;
    (* start_memory_leak(); is commented out in the source *)
    _ ← while_ fuel
      (λ _ : unit, c ← eval_int (int_lit 1); mret (negb (c =? 0)))
      (λ _, sleep (uint_of_int 10);; mret (Continue tt))
      tt;
    free initial_memory;;
    mret 0.

(** ** The leak loop as a growth loop *)

(** The plan of the leak counter: it counts what was leaked, from 0 up to
    [LEAK_MEMORY_MB], in chunks of [LEAK_CHUNK_MB]. *)
Definition leak_plan : GrowthPlan := {|
  initial_size_bytes := 0;
  target_size_bytes := LEAK_MEMORY_MB * 1048576;
  step_size_bytes := LEAK_CHUNK_MB * 1048576;
  step_interval := SLEEP_INTERVAL_SEC;
  startup_delay := DELAY_BEFORE_LEAK_SEC;
  growth_enabled := false
|}.

Definition leak_failure_line : string := "Failed to allocate leak memory" +:+ nl.

Definition leak_progress_line (total : Z) : string :=
  "Leaked " +:+ fmt_zu (total / 1048576) +:+ " MB of memory" +:+ nl.

Definition leak_loop (fuel : nat) : M Z :=
  grow leak_plan leak_failure_line leak_progress_line fuel 0.

(** ** The worlds the runs end in *)

(** The world after [k] chunks were leaked. *)
Definition leaked (k : nat) (w : world) : world :=
  grown_n leak_plan leak_progress_line k 0 w.

(** The allocator of [w] accepts the first [k] chunks. *)
Definition chunks_accepted (k : nat) (w : world) : bool :=
  accepts_n leak_plan leak_progress_line k 0 w.

(** The allocator's answer to the next chunk. *)
Definition chunk_accepted (w : world) : bool := accepts leak_plan w.

(** The world after the chunk that was refused. *)
Definition leak_refused (w : world) : world := refused leak_failure_line w.

(** The initial block of [main], zero-filled. *)
Definition initial_block : block :=
  block_fill (Block 104857600 []) 0 104857600 (byte_of_int 0).

Definition ready_line (pid : Z) : string :=
  "Initial 100 MB of memory allocated. PID: " +:+ fmt_d pid +:+ nl.

Definition waiting_line : string :=
  "Waiting for 60 seconds before starting the memory leak..." +:+ nl.

(** The world in which [main] enters its idle loop. *)
Definition started (w : world) : world :=
  add_event (Sleep 60)
    (add_event (Stdout waiting_line)
       (add_event (Stdout (ready_line (w_pid w)))
          (set_heap (heap_add (w_heap w) initial_block) (count_call w)))).

(** The world after [n] rounds of the idle loop. *)
Definition idling (n : nat) (w : world) : world :=
  Nat.iter n (add_event (Sleep 10)) (started w).

Definition start_failure_line : string := "Failed to allocate initial memory" +:+ nl.

(** The world in which [main] returns when the first reservation fails. *)
Definition start_refused (w : world) : world :=
  add_event (Stderr start_failure_line) (count_call w).

(** The allocator's answer to the first reservation. *)
Definition start_accepted (w : world) : bool :=
  w_alloc w (w_calls w) (w_heap w) 104857600.

End Program.

(** A fresh process with an allocator that never refuses, one whose memory
    is bounded by 35 MiB, and one whose first reservation fails: the
    worlds at which the theorems below are instantiated. *)
Definition demo_world : world := initial_world willing 4242.
Definition small_world : world := initial_world (bounded 36700160) 4242.
Definition barren_world : world := initial_world (refusing_call 0) 4242.

Section Theorems.
Context {DM : DataModel}.

(** ** [start_memory_leak] is the growth loop of [leak_plan] *)

Lemma leak_cond_grow total :
  (limit ← eval_int (mebibytes LEAK_MEMORY_MB);
   mret (size_ltb total (size_of_int limit)))
  ≡ grow_cond leak_plan total.
Proof.
  change (eval_int (mebibytes LEAK_MEMORY_MB)) with (mret (M := M) 1073741824).
  rewrite bind_ret_l. unfold grow_cond. by rewrite size_of_int_nonneg by done.
Qed.

Lemma leak_body_grow total :
  (n ← eval_int (mebibytes LEAK_CHUNK_MB);
   leak ← malloc (size_of_int n);
   if is_null leak then
     fprintf_stderr ("Failed to allocate leak memory" +:+ nl);;
     mret (Break total)
   else
     n ← eval_int (mebibytes LEAK_CHUNK_MB);
     memset leak 0 (size_of_int n);;
     n ← eval_int (mebibytes LEAK_CHUNK_MB);
     let total_leaked := size_add total (size_of_int n) in
     d ← eval_int (int_lit 1024 *ᵢ int_lit 1024)%cm;
     mb ← eval_div (size_div total_leaked (size_of_int d));
     printf ("Leaked " +:+ fmt_zu mb +:+ " MB of memory" +:+ nl);;
     sleep (uint_of_int SLEEP_INTERVAL_SEC);;
     mret (Continue total_leaked))
  ≡ grow_body leak_plan leak_failure_line leak_progress_line total.
Proof.
  change (eval_int (mebibytes LEAK_CHUNK_MB)) with (mret (M := M) 10485760).
  change (eval_int (int_lit 1024 *ᵢ int_lit 1024)%cm) with (mret (M := M) 1048576).
  pose proof (size_of_int_nonneg 10485760 ltac:(done)) as E1.
  pose proof (size_of_int_nonneg 1048576 ltac:(done)) as E2.
  rewrite bind_ret_l, E1. unfold grow_body.
  f_equiv; [intros leak | by intros w].
  destruct (is_null leak); [done|].
  rewrite bind_ret_l, E1. f_equiv; [intros _ | by intros w].
  rewrite !bind_ret_l, E1, E2. by intros w.
Qed.

Lemma start_memory_leak_grow fuel :
  start_memory_leak fuel ≡ (leak_loop fuel ≫= λ _, mret tt).
Proof.
  unfold start_memory_leak, leak_loop, grow. f_equiv.
  apply while_proper; intros total; [apply leak_cond_grow | apply leak_body_grow].
Qed.

Lemma leak_steps_needed : steps_needed leak_plan 0 = 103%nat.
Proof. reflexivity. Qed.

Lemma leak_step_pos : 0 < step_size_bytes leak_plan.
Proof. done. Qed.

Lemma leak_nowrap : target_size_bytes leak_plan + step_size_bytes leak_plan <= size_modulus.
Proof.
  pose proof size_modulus_lower.
  change (target_size_bytes leak_plan + step_size_bytes leak_plan) with 1084227584. lia.
Qed.

Lemma start_memory_leak_Ok fuel w total w' :
  leak_loop fuel w = Ok total w' → start_memory_leak fuel w = Ok tt w'.
Proof. intros E. rewrite start_memory_leak_grow. by rewrite (bind_Ok _ _ _ _ _ E). Qed.

Lemma start_memory_leak_world fuel w :
  outcome_world (start_memory_leak fuel w) = outcome_world (leak_loop fuel w).
Proof.
  rewrite start_memory_leak_grow. unfold mbind, M_bind.
  by destruct (leak_loop fuel w).
Qed.

(** The progress line after [k] chunks names [10 * k] megabytes. *)
Lemma leak_progress_line_chunks (k : Z) :
  leak_progress_line (0 + k * step_size_bytes leak_plan) =
  "Leaked " +:+ pretty (10 * k) +:+ " MB of memory" +:+ nl.
Proof.
  unfold leak_progress_line, fmt_zu.
  change (step_size_bytes leak_plan) with (10 * 1048576).
  by rewrite Z.add_0_l, Z.mul_assoc, Z.div_mul, (Z.mul_comm k).
Qed.

Lemma main_cases fuel w :
  main fuel w =
  if start_accepted w then OutOfFuel (idling fuel w) else Ok 1 (start_refused w).
Proof.
  unfold main, start_accepted.
  change (eval_int (mebibytes INITIAL_MEMORY_MB)) with (mret (M := M) 104857600).
  pose proof (size_of_int_nonneg 104857600 ltac:(done)) as E1.
  rewrite bind_ret_run, E1.
  destruct (malloc_cases 104857600 w) as [[Ha E]|[Ha E]]; rewrite Ha.
  - rewrite (bind_Ok _ _ _ _ _ E). change (is_null (Ptr _ _)) with false. cbv iota.
    rewrite bind_ret_run, E1.
    rewrite (bind_Ok _ _ _ _ _ (memset_fresh 104857600 0 w ltac:(done))).
    do 4 mstep.
    erewrite bind_OutOfFuel; [done|].
    by apply (while_forever _ _ (add_event (Sleep 10))).
  - by rewrite (bind_Ok _ _ _ _ _ E).
Qed.

(** After [k <= 103] accepted chunks the loop is in the world [leaked k w]:
    stopped by the fuel when [k < 103], returned when [k = 103]. *)
Lemma leak_world k w :
  (k <= 103)%nat → chunks_accepted k w = true →
  outcome_world (start_memory_leak k w) = leaked k w.
Proof.
  intros Hk Ha. rewrite start_memory_leak_world. unfold leak_loop.
  destruct (decide (k = 103%nat)) as [->|Hne].
  - by rewrite (grow_all_accepted _ _ _ leak_step_pos leak_nowrap).
  - rewrite (grow_stopped _ _ _ leak_step_pos leak_nowrap); [done|done| |done].
    change (target_size_bytes leak_plan) with 1073741824.
    change (step_size_bytes leak_plan) with 10485760. lia.
Qed.

Lemma main_world n w :
  start_accepted w = true → outcome_world (main n w) = idling n w.
Proof. intros Ha. by rewrite main_cases, Ha. Qed.

(** ** Theorems on [start_memory_leak] *)

(** C5 (termination).  Whatever the allocator does, [start_memory_leak]
    returns within 103 iterations of its loop, without a fault, in a world
    that is later than the one it started in: the loop has reached 1 GiB
    or a reservation was refused. *)
Theorem app_leak_terminates fuel w :
  ∃ w', start_memory_leak (103 + fuel) w = Ok tt w' ∧ world_later w w'.
Proof.
  destruct (grow_terminates leak_plan leak_failure_line leak_progress_line
              leak_step_pos leak_nowrap (103 + fuel) 0 w)
    as (t & w' & E & _ & _ & _ & Hl); [done | rewrite leak_steps_needed; lia |].
  exists w'. split; [by eapply start_memory_leak_Ok | done].
Qed.

(** C7 (functional).  When the allocator accepts 103 chunks, the loop runs
    exactly 103 times: with fuel 103 or more it returns in the world
    [leaked 103 w], and with fuel 102 it is still running. *)
Theorem app_leak_all_accepted fuel w :
  chunks_accepted 103 w = true →
  start_memory_leak (103 + fuel) w = Ok tt (leaked 103 w) ∧
  start_memory_leak 102 w = OutOfFuel (leaked 102 w).
Proof.
  intros Ha. split.
  - eapply start_memory_leak_Ok. unfold leak_loop.
    rewrite (grow_all_accepted _ _ _ leak_step_pos leak_nowrap);
      rewrite ?leak_steps_needed; [done | done | lia | done].
  - rewrite start_memory_leak_grow. unfold leak_loop.
    erewrite bind_OutOfFuel; [done|].
    apply (grow_stopped _ _ _ leak_step_pos leak_nowrap); [done | done |].
    by apply (accepts_n_le _ _ 102 103); [lia|].
Qed.

(** C9 (error).  When the allocator accepts [k < 103] chunks and refuses
    the next one, the loop stops there: [start_memory_leak] returns
    normally, with the [k] chunks leaked and the failure reported on
    [stderr]. *)
Theorem app_leak_refused_at k fuel w :
  (k < 103)%nat → chunks_accepted k w = true →
  chunk_accepted (leaked k w) = false →
  start_memory_leak (S k + fuel) w = Ok tt (leak_refused (leaked k w)).
Proof.
  intros Hk Ha Hr. eapply start_memory_leak_Ok. unfold leak_loop.
  apply (grow_refused_at _ _ _ leak_step_pos leak_nowrap); [done| |lia|done|done].
  change (target_size_bytes leak_plan) with 1073741824.
  change (step_size_bytes leak_plan) with 10485760. lia.
Qed.

(** C21 (functional).  After [k <= 103] accepted chunks the footprint has
    grown by [k] times 10 MiB (1030 MiB after the 103 chunks of a full run,
    6 MiB more than the 1 GiB the loop aims at), and each block reserved by
    the loop is 10 MiB of zero bytes. *)
Theorem app_leak_footprint k w :
  world_wf w → (k <= 103)%nat → chunks_accepted k w = true →
  heap_live_bytes (w_heap (outcome_world (start_memory_leak k w))) =
    heap_live_bytes (w_heap w) + Z.of_nat k * 10485760 ∧
  ∀ b, (h_next (w_heap w) <= b
        < h_next (w_heap (outcome_world (start_memory_leak k w))))%positive →
       ∃ blk, h_blocks (w_heap (outcome_world (start_memory_leak k w))) !! b = Some blk ∧
              b_size blk = 10485760 ∧ block_filled blk 0.
Proof.
  intros Hwf Hk Ha. rewrite leak_world by done. unfold leaked. split.
  - by rewrite grown_n_live_bytes.
  - intros b Hb. exists (step_block leak_plan). split_and!; [|done|].
    + by apply (grown_n_blocks _ _ leak_step_pos).
    + apply step_block_filled.
Qed.

(** C22 (functional).  The [k <= 103] accepted chunks are reported by the lines
    "Leaked 10 MB of memory", "Leaked 20 MB of memory", ... on [stdout],
    nothing is written to [stderr], and the loop has slept [k] seconds. *)
Theorem app_leak_trace k w :
  (k <= 103)%nat → chunks_accepted k w = true →
  stdout_of (new_events w (outcome_world (start_memory_leak k w))) =
    (λ j, "Leaked " +:+ pretty (10 * Z.of_nat (S j)) +:+ " MB of memory" +:+ nl) <$> seq 0 k ∧
  stderr_of (new_events w (outcome_world (start_memory_leak k w))) = [] ∧
  slept (new_events w (outcome_world (start_memory_leak k w))) = Z.of_nat k.
Proof.
  intros Hk Ha. rewrite leak_world by done.
  unfold leaked. rewrite (new_events_app _ _ _ (grown_n_out _ _ _ _ _)).
  rewrite stdout_step_events, stderr_step_events, slept_step_events.
  split_and!; [|done|change (step_interval leak_plan) with 1; lia].
  apply list_fmap_ext. intros _ j _. apply leak_progress_line_chunks.
Qed.

(** C34 (invariant).  For every allocator and every fuel,
    [start_memory_leak] never runs into undefined behaviour (no [int]
    overflow, no write through a null pointer or outside a block), the
    world in which it stops is well formed and later than the one it
    started in, and every block that was live is still live and
    unchanged: the loop releases nothing and writes only to its own
    chunks. *)
Theorem app_leak_invariant fuel w :
  world_wf w →
  (∀ f w', start_memory_leak fuel w ≠ Fault f w') ∧
  world_wf (outcome_world (start_memory_leak fuel w)) ∧
  world_later w (outcome_world (start_memory_leak fuel w)) ∧
  heap_extends (w_heap w) (w_heap (outcome_world (start_memory_leak fuel w))).
Proof.
  intros Hwf. split.
  - intros f w'. rewrite start_memory_leak_grow. unfold mbind, M_bind.
    destruct (leak_loop fuel w) as [t w1|f1 w1|w1] eqn:E; [done| |done].
    by apply (grow_no_fault _ _ _ leak_step_pos leak_nowrap) in E.
  - rewrite start_memory_leak_world.
    by apply (grow_invariant _ _ _ leak_step_pos leak_nowrap).
Qed.

(** C37 (refinement).  On every world, [start_memory_leak] is the growth
    loop of the specification run on [leak_plan] from a counter of 0, its
    result dropped. *)
Theorem app_leak_refines_growth fuel w :
  start_memory_leak fuel w =
  (grow leak_plan leak_failure_line leak_progress_line fuel 0 ≫= λ _, mret tt) w.
Proof. apply start_memory_leak_grow. Qed.

(** C39 (bounds).  The sizes of [src/app.c] are computed in [int] without
    overflow and keep their value as [size_t] on both data models, while a
    constant of 2048 MB or more would overflow [m * 1024 * 1024]. *)
Theorem app_sizes_fit m v :
  mebibytes m = Some v →
  -2048 <= m <= 2047 ∧ v = m * 1048576 ∧ (0 <= m → size_of_int v = v) ∧
  mebibytes INITIAL_MEMORY_MB = Some 104857600 ∧
  mebibytes LEAK_MEMORY_MB = Some 1073741824 ∧
  mebibytes LEAK_CHUNK_MB = Some 10485760 ∧
  mebibytes 2048 = None.
Proof.
  intros [-> Hm]%mebibytes_Some.
  split; [done|]. split; [done|]. split; [|by repeat split].
  intros. apply size_of_int_nonneg. unfold INT_MAX. lia.
Qed.

(** ** Theorems on [main] *)


(** C1 (liveness).  When the first reservation succeeds, [main] never
    returns: whatever the fuel, it is still in its idle loop, in the world
    [idling fuel w]. *)
Theorem app_main_never_returns fuel w :
  start_accepted w = true → main fuel w = OutOfFuel (idling fuel w).
Proof. intros Ha. by rewrite main_cases, Ha. Qed.

(** C2 (error).  When the first reservation fails, [main] reports it on
    [stderr] and returns 1; nothing was reserved and nothing was written
    to [stdout]. *)
Theorem app_main_alloc_failure fuel w :
  start_accepted w = false →
  main fuel w = Ok 1 (start_refused w) ∧
  w_heap (start_refused w) = w_heap w ∧
  stdout_of (new_events w (start_refused w)) = [].
Proof.
  intros Ha. rewrite main_cases, Ha. split_and!; [done|done|].
  by rewrite (new_events_app w _ [Stderr start_failure_line]).
Qed.

(** C17 (safety).  [main] never runs into undefined behaviour, and the
    only status it ever returns is 1, after a failed first reservation:
    [return 0] and the [free] before it are never reached. *)
Theorem app_main_exit_status fuel w :
  (∀ f w', main fuel w ≠ Fault f w') ∧
  (∀ r w', main fuel w = Ok r w' →
           r = 1 ∧ start_accepted w = false ∧ w' = start_refused w).
Proof.
  rewrite main_cases. destruct (start_accepted w); split; try done.
  by intros r w' [= <- <-].
Qed.

(** C15 (invariant).  While [main] idles, the footprint stays at the
    initial 100 MiB above what was there before, and the initial block is
    live and zero-filled: nothing grows, since the leak is disabled. *)
Theorem app_main_footprint n w :
  world_wf w → start_accepted w = true →
  world_wf (outcome_world (main n w)) ∧
  heap_live_bytes (w_heap (outcome_world (main n w))) =
    heap_live_bytes (w_heap w) + 104857600 ∧
  h_blocks (w_heap (outcome_world (main n w))) !! h_next (w_heap w) = Some initial_block ∧
  block_filled initial_block 0.
Proof.
  intros Hwf Ha. rewrite main_world by done. unfold idling, world_wf. rewrite iter_add_event_heap. simpl.
  assert (block_wf initial_block) as Hb.
  { apply block_fill_wf; simpl; try lia; [by split | apply byte_of_int_range]. }
  split_and!.
  - by apply heap_add_wf.
  - by rewrite heap_add_live_bytes.
  - apply lookup_insert_eq.
  - apply (block_fill_whole (Block 104857600 []) (byte_of_int 0)).
Qed.

(** C16 (functional).  Up to its [n]-th idle round, [main] has printed
    the readiness line with its process id and the waiting line, slept 60
    seconds, and then slept 10 seconds [n] times; it has printed no leak
    report. *)
Theorem app_main_trace n w :
  start_accepted w = true →
  new_events w (outcome_world (main n w)) =
  [Stdout (ready_line (w_pid w)); Stdout waiting_line; Sleep 60] ++ replicate n (Sleep 10).
Proof.
  intros Ha. rewrite main_world by done. apply new_events_app. unfold idling. rewrite iter_add_event_out. simpl.
  by rewrite <- !app_assoc.
Qed.

End Theorems.

(** ** The theorems at concrete worlds *)

Lemma app_leak_all_accepted_witness :
  @start_memory_leak LP64 (103 + 0) demo_world = Ok tt (leaked 103 demo_world) ∧
  @start_memory_leak LP64 102 demo_world = OutOfFuel (leaked 102 demo_world).
Proof. apply (@app_leak_all_accepted LP64 0%nat demo_world). by vm_compute. Defined.

Lemma app_leak_refused_at_witness :
  @start_memory_leak LP64 (4 + 0) small_world = Ok tt (leak_refused (leaked 3 small_world)).
Proof.
  apply (@app_leak_refused_at LP64 3%nat 0%nat small_world); [lia | by vm_compute..].
Defined.

Lemma app_leak_footprint_witness :
  heap_live_bytes (w_heap (outcome_world (@start_memory_leak LP64 103 demo_world))) =
    heap_live_bytes (w_heap demo_world) + Z.of_nat 103 * 10485760 ∧
  ∀ b, (h_next (w_heap demo_world) <= b
        < h_next (w_heap (outcome_world (@start_memory_leak LP64 103 demo_world))))%positive →
       ∃ blk, h_blocks (w_heap (outcome_world (@start_memory_leak LP64 103 demo_world))) !! b
                = Some blk ∧
              b_size blk = 10485760 ∧ block_filled blk 0.
Proof.
  apply (@app_leak_footprint LP64 103%nat demo_world);
    [apply initial_world_wf | lia | by vm_compute].
Defined.

Lemma app_leak_trace_witness :
  stdout_of (new_events small_world (outcome_world (@start_memory_leak LP64 3 small_world))) =
    (λ j, "Leaked " +:+ pretty (10 * Z.of_nat (S j)) +:+ " MB of memory" +:+ nl) <$> seq 0 3 ∧
  stderr_of (new_events small_world (outcome_world (@start_memory_leak LP64 3 small_world))) = [] ∧
  slept (new_events small_world (outcome_world (@start_memory_leak LP64 3 small_world))) =
    Z.of_nat 3.
Proof. apply (@app_leak_trace LP64 3%nat small_world); [lia | by vm_compute]. Defined.

Lemma app_leak_invariant_witness :
  (∀ f w', @start_memory_leak ILP32 5 small_world ≠ Fault f w') ∧
  world_wf (outcome_world (@start_memory_leak ILP32 5 small_world)) ∧
  world_later small_world (outcome_world (@start_memory_leak ILP32 5 small_world)) ∧
  heap_extends (w_heap small_world)
    (w_heap (outcome_world (@start_memory_leak ILP32 5 small_world))).
Proof. apply (@app_leak_invariant ILP32 5%nat small_world), initial_world_wf. Defined.

Lemma app_sizes_fit_witness :
  -2048 <= 1024 <= 2047 ∧ 1073741824 = 1024 * 1048576 ∧
  (0 <= 1024 → @size_of_int ILP32 1073741824 = 1073741824) ∧
  mebibytes INITIAL_MEMORY_MB = Some 104857600 ∧
  mebibytes LEAK_MEMORY_MB = Some 1073741824 ∧
  mebibytes LEAK_CHUNK_MB = Some 10485760 ∧
  mebibytes 2048 = None.
Proof. apply (@app_sizes_fit ILP32 1024 1073741824). reflexivity. Defined.

Lemma app_main_never_returns_witness :
  @main LP64 6 demo_world = OutOfFuel (idling 6 demo_world).
Proof. apply (@app_main_never_returns LP64 6%nat demo_world). reflexivity. Defined.

Lemma app_main_alloc_failure_witness :
  @main LP64 6 barren_world = Ok 1 (start_refused barren_world) ∧
  w_heap (start_refused barren_world) = w_heap barren_world ∧
  stdout_of (new_events barren_world (start_refused barren_world)) = [].
Proof. apply (@app_main_alloc_failure LP64 6%nat barren_world). reflexivity. Defined.

Lemma app_main_footprint_witness :
  world_wf (outcome_world (@main LP64 6 demo_world)) ∧
  heap_live_bytes (w_heap (outcome_world (@main LP64 6 demo_world))) =
    heap_live_bytes (w_heap demo_world) + 104857600 ∧
  h_blocks (w_heap (outcome_world (@main LP64 6 demo_world))) !! h_next (w_heap demo_world)
    = Some initial_block ∧
  block_filled initial_block 0.
Proof.
  apply (@app_main_footprint LP64 6%nat demo_world); [apply initial_world_wf | reflexivity].
Defined.

Lemma app_main_trace_witness :
  new_events demo_world (outcome_world (@main LP64 6 demo_world)) =
  [Stdout (ready_line (w_pid demo_world)); Stdout waiting_line; Sleep 60]
    ++ replicate 6 (Sleep 10).
Proof. apply (@app_main_trace LP64 6%nat demo_world). reflexivity. Defined.

End App.
