(* ===== verification/MemoryUsageC.v ===== *)
(** * [src/memory_usage_program.c]: initial reservation, idle loop, and the
    growth loop

    [Module MemoryUsage] translates [src/memory_usage_program.c] statement
    by statement.  [increase_memory_usage] is the growth loop; it counts
    the total reserved, starting from the initial 100 MiB, up to
    [TOTAL_MEMORY_MB].  [main] reserves and zero-fills the initial block,
    prints the readiness lines, waits, and idles.  The call of
    [increase_memory_usage] is commented out in the source, and so [main]
    does not run it here either.

    The definitions come first, then the theorems; those on the growth
    loop are obtained from the theory of [Growth] through
    [increase_memory_usage_grow]. *)

From S2P Require Import Prelude CInt Memory Exec Growth.

#[local] Open Scope Z_scope.

Module MemoryUsage.

Section Program.
Context {DM : DataModel}.

(** ** The constants of the source *)

Definition INITIAL_MEMORY_MB : Z := 100.
Definition TOTAL_MEMORY_MB : Z := 1124.
Definition MEMORY_STEP_MB : Z := 10.
Definition SLEEP_INTERVAL_SEC : Z := 1.
Definition DELAY_BEFORE_INCREASE_SEC : Z := 60.

(** ** [increase_memory_usage] *)

Definition increase_memory_usage (fuel : nat) : M unit :=
  n ← eval_int (mebibytes INITIAL_MEMORY_MB);
  let total_memory_allocated := size_of_int n in
  _ ← while_ fuel
    (λ total_memory_allocated,
       limit ← eval_int (mebibytes TOTAL_MEMORY_MB);
       mret (size_ltb total_memory_allocated (size_of_int limit)))
    (λ total_memory_allocated,
       n ← eval_int (mebibytes MEMORY_STEP_MB);
       additional_memory ← malloc (size_of_int n);
       if is_null additional_memory then
         fprintf_stderr ("Failed to allocate additional memory" +:+ nl);;
         mret (Break total_memory_allocated)
       else
         n ← eval_int (mebibytes MEMORY_STEP_MB);
         memset additional_memory 0 (size_of_int n);;
         n ← eval_int (mebibytes MEMORY_STEP_MB);
         let total_memory_allocated := size_add total_memory_allocated (size_of_int n) in
         d ← eval_int (int_lit 1024 *ᵢ int_lit 1024)%cm;
         mb ← eval_div (size_div total_memory_allocated (size_of_int d));
         printf ("Total memory allocated: " +:+ fmt_zu mb +:+ " MB" +:+ nl);;
         sleep (uint_of_int SLEEP_INTERVAL_SEC);;
         mret (Continue total_memory_allocated))
    total_memory_allocated;
  mret tt.

(** ** [main]

    [fuel] bounds the rounds of the final [while (1)]. *)

Definition main (fuel : nat) : M Z :=
  n ← eval_int (mebibytes INITIAL_MEMORY_MB);
  initial_buffer ← malloc (size_of_int n);
  if is_null initial_buffer then
    fprintf_stderr ("Failed to allocate initial memory" +:+ nl);;
    mret 1
  else
    n ← eval_int (mebibytes INITIAL_MEMORY_MB);
    memset initial_buffer 0 (size_of_int n);;
    pid ← getpid;
    printf ("Initial " +:+ fmt_d INITIAL_MEMORY_MB
            +:+ " MB of memory allocated. PID: " +:+ fmt_d pid +:+ nl);;
    printf ("Waiting for " +:+ fmt_d DELAY_BEFORE_INCREASE_SEC
            +:+ " seconds before increasing memory usage..." +:+ nl);;
    sleep (uint_of_int DELAY_BEFORE_INCREASE_SEC);;
    (* increase_memory_usage(); is commented out in the source *)
    _ ← while_ fuel
      (λ _ : unit, c ← eval_int (int_lit 1); mret (negb (c =? 0)))
      (λ _, sleep (uint_of_int 10);; mret (Continue tt))
      tt;
    free initial_buffer;;
    mret 0.

(** ** The growth loop as an instance of [Growth] *)

(** The plan of the program: from the initial 100 MiB to
    [TOTAL_MEMORY_MB] in steps of [MEMORY_STEP_MB]. *)
Definition usage_plan : GrowthPlan := {|
  initial_size_bytes := INITIAL_MEMORY_MB * 1048576;
  target_size_bytes := TOTAL_MEMORY_MB * 1048576;
  step_size_bytes := MEMORY_STEP_MB * 1048576;
  step_interval := SLEEP_INTERVAL_SEC;
  startup_delay := DELAY_BEFORE_INCREASE_SEC;
  growth_enabled := false
|}.

Definition usage_failure_line : string := "Failed to allocate additional memory" +:+ nl.

Definition usage_progress_line (total : Z) : string :=
  "Total memory allocated: " +:+ fmt_zu (total / 1048576) +:+ " MB" +:+ nl.

Definition usage_loop (fuel : nat) : M Z :=
  grow usage_plan usage_failure_line usage_progress_line fuel 104857600.

(** ** The worlds the runs end in *)

(** The world after [k] steps of growth. *)
Definition increased (k : nat) (w : world) : world :=
  grown_n usage_plan usage_progress_line k 104857600 w.

(** The allocator of [w] accepts the first [k] steps. *)
Definition steps_accepted (k : nat) (w : world) : bool :=
  accepts_n usage_plan usage_progress_line k 104857600 w.

(** The allocator's answer to the next step. *)
Definition step_accepted (w : world) : bool := accepts usage_plan w.

(** The world after the step that was refused. *)
Definition increase_refused (w : world) : world := refused usage_failure_line w.

(** The initial buffer of [main], zero-filled. *)
Definition initial_block : block :=
  block_fill (Block 104857600 []) 0 104857600 (byte_of_int 0).

Definition ready_line (pid : Z) : string :=
  "Initial 100 MB of memory allocated. PID: " +:+ fmt_d pid +:+ nl.

Definition waiting_line : string :=
  "Waiting for 60 seconds before increasing memory usage..." +:+ nl.

(** The world in which [main] enters its idle loop. *)
Definition started (w : world) : world :=
  add_event (Sleep 60)
    (add_event (Stdout waiting_line)
       (add_event (Stdout (ready_line (w_pid w)))
          (set_heap (heap_add (w_heap w) initial_block) (count_call w)))).

(** The world after [n] rounds of the idle loop. *)
Definition idling (n : nat) (w : world) : world :=
  Nat.iter n (add_event (Sleep 10)) (started w).

Definition start_failure_line : string := "Failed to allocate initial memory" +:+ nl.

(** The world in which [main] returns when the first reservation fails. *)
Definition start_refused (w : world) : world :=
  add_event (Stderr start_failure_line) (count_call w).

(** The allocator's answer to the first reservation. *)
Definition start_accepted (w : world) : bool :=
  w_alloc w (w_calls w) (w_heap w) 104857600.

End Program.

(** A fresh process with an allocator that never refuses, one whose memory
    is bounded by 35 MiB, and one whose first reservation fails. *)
Definition demo_world : world := initial_world willing 77.
Definition small_world : world := initial_world (bounded 36700160) 77.
Definition barren_world : world := initial_world (refusing_call 0) 77.

Section Theorems.
Context {DM : DataModel}.

(** ** [increase_memory_usage] is the growth loop of [usage_plan] *)

Lemma usage_cond_grow total :
  (limit ← eval_int (mebibytes TOTAL_MEMORY_MB);
   mret (size_ltb total (size_of_int limit)))
  ≡ grow_cond usage_plan total.
Proof.
  change (eval_int (mebibytes TOTAL_MEMORY_MB)) with (mret (M := M) 1178599424).
  rewrite bind_ret_l. unfold grow_cond. by rewrite size_of_int_nonneg by done.
Qed.

Lemma usage_body_grow total :
  (n ← eval_int (mebibytes MEMORY_STEP_MB);
   additional_memory ← malloc (size_of_int n);
   if is_null additional_memory then
     fprintf_stderr ("Failed to allocate additional memory" +:+ nl);;
     mret (Break total)
   else
     n ← eval_int (mebibytes MEMORY_STEP_MB);
     memset additional_memory 0 (size_of_int n);;
     n ← eval_int (mebibytes MEMORY_STEP_MB);
     let total_memory_allocated := size_add total (size_of_int n) in
     d ← eval_int (int_lit 1024 *ᵢ int_lit 1024)%cm;
     mb ← eval_div (size_div total_memory_allocated (size_of_int d));
     printf ("Total memory allocated: " +:+ fmt_zu mb +:+ " MB" +:+ nl);;
     sleep (uint_of_int SLEEP_INTERVAL_SEC);;
     mret (Continue total_memory_allocated))
  ≡ grow_body usage_plan usage_failure_line usage_progress_line total.
Proof.
  change (eval_int (mebibytes MEMORY_STEP_MB)) with (mret (M := M) 10485760).
  change (eval_int (int_lit 1024 *ᵢ int_lit 1024)%cm) with (mret (M := M) 1048576).
  pose proof (size_of_int_nonneg 10485760 ltac:(done)) as E1.
  pose proof (size_of_int_nonneg 1048576 ltac:(done)) as E2.
  rewrite bind_ret_l, E1. unfold grow_body.
  f_equiv; [intros p | by intros w].
  destruct (is_null p); [done|].
  rewrite bind_ret_l, E1. f_equiv; [intros _ | by intros w].
  rewrite !bind_ret_l, E1, E2. by intros w.
Qed.

Lemma increase_memory_usage_grow fuel :
  increase_memory_usage fuel ≡ (usage_loop fuel ≫= λ _, mret tt).
Proof.
  unfold increase_memory_usage, usage_loop, grow.
  change (eval_int (mebibytes INITIAL_MEMORY_MB)) with (mret (M := M) 104857600).
  rewrite bind_ret_l, (size_of_int_nonneg 104857600) by done. f_equiv.
  apply while_proper; intros total; [apply usage_cond_grow | apply usage_body_grow].
Qed.

Lemma usage_steps_needed : steps_needed usage_plan 104857600 = 103%nat.
Proof. reflexivity. Qed.

Lemma usage_step_pos : 0 < step_size_bytes usage_plan.
Proof. done. Qed.

Lemma usage_nowrap :
  target_size_bytes usage_plan + step_size_bytes usage_plan <= size_modulus.
Proof.
  pose proof size_modulus_lower.
  change (target_size_bytes usage_plan + step_size_bytes usage_plan) with 1189085184. lia.
Qed.

Lemma increase_memory_usage_Ok fuel w total w' :
  usage_loop fuel w = Ok total w' → increase_memory_usage fuel w = Ok tt w'.
Proof. intros E. rewrite increase_memory_usage_grow. by rewrite (bind_Ok _ _ _ _ _ E). Qed.

Lemma increase_memory_usage_world fuel w :
  outcome_world (increase_memory_usage fuel w) = outcome_world (usage_loop fuel w).
Proof.
  rewrite increase_memory_usage_grow. unfold mbind, M_bind.
  by destruct (usage_loop fuel w).
Qed.

(** The progress line after [k] steps names [100 + 10 * k] megabytes. *)
Lemma usage_progress_line_steps (k : Z) :
  usage_progress_line (104857600 + k * step_size_bytes usage_plan) =
  "Total memory allocated: " +:+ pretty (100 + 10 * k) +:+ " MB" +:+ nl.
Proof.
  unfold usage_progress_line, fmt_zu.
  change (step_size_bytes usage_plan) with 10485760.
  replace (104857600 + k * 10485760) with ((100 + 10 * k) * 1048576) by lia.
  by rewrite Z.div_mul.
Qed.

Lemma usage_main_cases fuel w :
  main fuel w =
  if start_accepted w then OutOfFuel (idling fuel w) else Ok 1 (start_refused w).
Proof.
  unfold main, start_accepted.
  change (eval_int (mebibytes INITIAL_MEMORY_MB)) with (mret (M := M) 104857600).
  pose proof (size_of_int_nonneg 104857600 ltac:(done)) as E1.
  rewrite bind_ret_run, E1.
  destruct (malloc_cases 104857600 w) as [[Ha E]|[Ha E]]; rewrite Ha.
  - rewrite (bind_Ok _ _ _ _ _ E). change (is_null (Ptr _ _)) with false. cbv iota.
    rewrite bind_ret_run, E1.
    rewrite (bind_Ok _ _ _ _ _ (memset_fresh 104857600 0 w ltac:(done))).
    do 4 mstep.
    erewrite bind_OutOfFuel; [done|].
    by apply (while_forever _ _ (add_event (Sleep 10))).
  - by rewrite (bind_Ok _ _ _ _ _ E).
Qed.

(** After [k <= 103] accepted steps the loop is in the world
    [increased k w]: stopped by the fuel when [k < 103], returned when
    [k = 103]. *)
Lemma usage_world k w :
  (k <= 103)%nat → steps_accepted k w = true →
  outcome_world (increase_memory_usage k w) = increased k w.
Proof.
  intros Hk Ha. rewrite increase_memory_usage_world. unfold usage_loop.
  destruct (decide (k = 103%nat)) as [->|Hne].
  - by rewrite (grow_all_accepted _ _ _ usage_step_pos usage_nowrap).
  - rewrite (grow_stopped _ _ _ usage_step_pos usage_nowrap); [done|done| |done].
    change (target_size_bytes usage_plan) with 1178599424.
    change (step_size_bytes usage_plan) with 10485760. lia.
Qed.

Lemma usage_main_world n w :
  start_accepted w = true → outcome_world (main n w) = idling n w.
Proof. intros Ha. by rewrite usage_main_cases, Ha. Qed.

(** ** Theorems on [increase_memory_usage] *)

(** C8 (termination).  Whatever the allocator does,
    [increase_memory_usage] returns within 103 iterations of its loop,
    without a fault, in a world that is later than the one it started in:
    the counter has reached 1124 MiB or a reservation was refused. *)
Theorem memusage_increase_terminates fuel w :
  ∃ w', increase_memory_usage (103 + fuel) w = Ok tt w' ∧ world_later w w'.
Proof.
  destruct (grow_terminates usage_plan usage_failure_line usage_progress_line
              usage_step_pos usage_nowrap (103 + fuel) 104857600 w)
    as (t & w' & E & _ & _ & _ & Hl); [done | rewrite usage_steps_needed; lia |].
  exists w'. split; [by eapply increase_memory_usage_Ok | done].
Qed.

(** C6 (functional).  When the allocator accepts 103 steps, the loop runs
    exactly 103 times (with fuel 102 it is still running), prints 103
    report lines of which the last is "Total memory allocated: 1130 MB",
    6 MB above the 1124 MB it aims at, and leaves 1030 MiB more reserved
    than before. *)
Theorem memusage_full_growth fuel w :
  world_wf w → steps_accepted 103 w = true →
  increase_memory_usage (103 + fuel) w = Ok tt (increased 103 w) ∧
  increase_memory_usage 102 w = OutOfFuel (increased 102 w) ∧
  length (stdout_of (new_events w (increased 103 w))) = 103%nat ∧
  last (stdout_of (new_events w (increased 103 w))) =
    Some ("Total memory allocated: 1130 MB" +:+ nl) ∧
  heap_live_bytes (w_heap (increased 103 w)) = heap_live_bytes (w_heap w) + 1080033280.
Proof.
  intros Hwf Ha. split_and!.
  - eapply increase_memory_usage_Ok. unfold usage_loop.
    rewrite (grow_all_accepted _ _ _ usage_step_pos usage_nowrap);
      rewrite ?usage_steps_needed; [done | done | lia | done].
  - rewrite increase_memory_usage_grow. unfold usage_loop.
    erewrite bind_OutOfFuel; [done|].
    apply (grow_stopped _ _ _ usage_step_pos usage_nowrap); [done | done |].
    by apply (accepts_n_le _ _ 102 103); [lia|].
  - unfold increased. rewrite (new_events_app _ _ _ (grown_n_out _ _ _ _ _)).
    by rewrite stdout_step_events, length_fmap, length_seq.
  - unfold increased. rewrite (new_events_app _ _ _ (grown_n_out _ _ _ _ _)).
    by rewrite stdout_step_events, fmap_last.
  - unfold increased. by rewrite grown_n_live_bytes.
Qed.

(** C10 (error).  When the allocator accepts [k < 103] steps and refuses
    the next one, the loop stops there: [increase_memory_usage] returns
    normally, with the [k] steps reserved and the failure reported on
    [stderr]. *)
Theorem memusage_increase_refused_at k fuel w :
  (k < 103)%nat → steps_accepted k w = true →
  step_accepted (increased k w) = false →
  increase_memory_usage (S k + fuel) w = Ok tt (increase_refused (increased k w)).
Proof.
  intros Hk Ha Hr. eapply increase_memory_usage_Ok. unfold usage_loop.
  apply (grow_refused_at _ _ _ usage_step_pos usage_nowrap); [done| |lia|done|done].
  change (target_size_bytes usage_plan) with 1178599424.
  change (step_size_bytes usage_plan) with 10485760. lia.
Qed.

(** C23 (functional).  The [k <= 103] accepted steps are reported by the
    lines "Total memory allocated: 110 MB", "... 120 MB", ... on [stdout]:
    the count starts from the initial 100 MB.  Nothing is written to
    [stderr], the loop has slept [k] seconds, and the footprint has grown
    by [k] times 10 MiB. *)
Theorem memusage_increase_trace k w :
  world_wf w → (k <= 103)%nat → steps_accepted k w = true →
  stdout_of (new_events w (outcome_world (increase_memory_usage k w))) =
    (λ j, "Total memory allocated: " +:+ pretty (100 + 10 * Z.of_nat (S j)) +:+ " MB" +:+ nl)
      <$> seq 0 k ∧
  stderr_of (new_events w (outcome_world (increase_memory_usage k w))) = [] ∧
  slept (new_events w (outcome_world (increase_memory_usage k w))) = Z.of_nat k ∧
  heap_live_bytes (w_heap (outcome_world (increase_memory_usage k w))) =
    heap_live_bytes (w_heap w) + Z.of_nat k * 10485760.
Proof.
  intros Hwf Hk Ha. rewrite usage_world by done.
  unfold increased. rewrite (new_events_app _ _ _ (grown_n_out _ _ _ _ _)).
  rewrite stdout_step_events, stderr_step_events, slept_step_events.
  split_and!; [|done|change (step_interval usage_plan) with 1; lia|by rewrite grown_n_live_bytes].
  apply list_fmap_ext. intros _ j _. apply usage_progress_line_steps.
Qed.

(** C35 (invariant).  For every allocator and every fuel,
    [increase_memory_usage] raises no fault, and the world in which it
    stops is well formed and later than the one it started in, with every
    block that was live still live and unchanged. *)
Theorem memusage_increase_invariant fuel w :
  world_wf w →
  (∀ f w', increase_memory_usage fuel w ≠ Fault f w') ∧
  world_wf (outcome_world (increase_memory_usage fuel w)) ∧
  world_later w (outcome_world (increase_memory_usage fuel w)) ∧
  heap_extends (w_heap w) (w_heap (outcome_world (increase_memory_usage fuel w))).
Proof.
  intros Hwf. split.
  - intros f w'. rewrite increase_memory_usage_grow. unfold mbind, M_bind.
    destruct (usage_loop fuel w) as [t w1|f1 w1|w1] eqn:E; [done| |done].
    by apply (grow_no_fault _ _ _ usage_step_pos usage_nowrap) in E.
  - rewrite increase_memory_usage_world.
    by apply (grow_invariant _ _ _ usage_step_pos usage_nowrap).
Qed.

(** C38 (refinement).  On every world, [increase_memory_usage] is the
    growth loop of the specification run on [usage_plan] from the initial
    100 MiB, its result dropped. *)
Theorem memusage_increase_refines_growth fuel w :
  increase_memory_usage fuel w =
  (grow usage_plan usage_failure_line usage_progress_line fuel
     (initial_size_bytes usage_plan) ≫= λ _, mret tt) w.
Proof. apply increase_memory_usage_grow. Qed.

(** ** Theorems on [main] *)

(** C18 (liveness).  When the first reservation succeeds, [main] never
    returns: whatever the fuel, it is still in its idle loop, having
    printed the readiness line with the size and its process id and the
    waiting line, slept 60 seconds, and then slept 10 seconds once per
    round; it has printed no growth report. *)
Theorem memusage_main_never_returns n w :
  start_accepted w = true →
  main n w = OutOfFuel (idling n w) ∧
  new_events w (idling n w) =
  [Stdout (ready_line (w_pid w)); Stdout waiting_line; Sleep 60] ++ replicate n (Sleep 10).
Proof.
  intros Ha. rewrite usage_main_cases, Ha. split; [done|].
  apply new_events_app. unfold idling. rewrite iter_add_event_out. simpl.
  by rewrite <- !app_assoc.
Qed.

(** C19 (error).  When the first reservation fails, [main] reports it on
    [stderr] and returns 1; nothing was reserved and nothing was written
    to [stdout].  This is the only way [main] returns, and it never runs
    into undefined behaviour. *)
Theorem memusage_main_alloc_failure fuel w :
  (start_accepted w = false →
   main fuel w = Ok 1 (start_refused w) ∧
   w_heap (start_refused w) = w_heap w ∧
   stdout_of (new_events w (start_refused w)) = []) ∧
  (∀ r w', main fuel w = Ok r w' → r = 1 ∧ start_accepted w = false) ∧
  (∀ f w', main fuel w ≠ Fault f w').
Proof.
  rewrite usage_main_cases. split_and!.
  - intros ->. split_and!; [done|done|].
    by rewrite (new_events_app w _ [Stderr start_failure_line]).
  - intros r w'. destruct (start_accepted w); [done|]. by intros [= <- <-].
  - by destruct (start_accepted w).
Qed.

(** C20 (invariant).  While [main] idles, the
    footprint stays at the initial 100 MiB above what was there before,
    and the initial buffer is live and zero-filled: nothing grows, since
    the growth is disabled. *)
Theorem memusage_main_footprint n w :
  world_wf w → start_accepted w = true →
  world_wf (outcome_world (main n w)) ∧
  heap_live_bytes (w_heap (outcome_world (main n w))) =
    heap_live_bytes (w_heap w) + 104857600 ∧
  h_blocks (w_heap (outcome_world (main n w))) !! h_next (w_heap w) = Some initial_block ∧
  block_filled initial_block 0.
Proof.
  intros Hwf Ha. rewrite usage_main_world by done.
  unfold idling, world_wf. rewrite iter_add_event_heap. simpl.
  assert (block_wf initial_block) as Hb.
  { apply block_fill_wf; simpl; try lia; [by split | apply byte_of_int_range]. }
  split_and!.
  - by apply heap_add_wf.
  - by rewrite heap_add_live_bytes.
  - apply lookup_insert_eq.
  - apply (block_fill_whole (Block 104857600 []) (byte_of_int 0)).
Qed.

End Theorems.

(** ** The theorems at concrete worlds *)

Lemma memusage_full_growth_witness :
  @increase_memory_usage LP64 (103 + 0) demo_world = Ok tt (increased 103 demo_world) ∧
  @increase_memory_usage LP64 102 demo_world = OutOfFuel (increased 102 demo_world) ∧
  length (stdout_of (new_events demo_world (increased 103 demo_world))) = 103%nat ∧
  last (stdout_of (new_events demo_world (increased 103 demo_world))) =
    Some ("Total memory allocated: 1130 MB" +:+ nl) ∧
  heap_live_bytes (w_heap (increased 103 demo_world)) =
    heap_live_bytes (w_heap demo_world) + 1080033280.
Proof.
  apply (@memusage_full_growth LP64 0%nat demo_world);
    [apply initial_world_wf | by vm_compute].
Defined.

Lemma memusage_increase_refused_at_witness :
  @increase_memory_usage LP64 (4 + 0) small_world
  = Ok tt (increase_refused (increased 3 small_world)).
Proof.
  apply (@memusage_increase_refused_at LP64 3%nat 0%nat small_world);
    [lia | by vm_compute..].
Defined.

Lemma memusage_increase_trace_witness :
  stdout_of (new_events small_world (outcome_world (@increase_memory_usage LP64 3 small_world))) =
    (λ j, "Total memory allocated: " +:+ pretty (100 + 10 * Z.of_nat (S j)) +:+ " MB" +:+ nl)
      <$> seq 0 3 ∧
  stderr_of (new_events small_world
               (outcome_world (@increase_memory_usage LP64 3 small_world))) = [] ∧
  slept (new_events small_world (outcome_world (@increase_memory_usage LP64 3 small_world))) =
    Z.of_nat 3 ∧
  heap_live_bytes (w_heap (outcome_world (@increase_memory_usage LP64 3 small_world))) =
    heap_live_bytes (w_heap small_world) + Z.of_nat 3 * 10485760.
Proof.
  apply (@memusage_increase_trace LP64 3%nat small_world);
    [apply initial_world_wf | lia | by vm_compute].
Defined.

Lemma memusage_increase_invariant_witness :
  (∀ f w', @increase_memory_usage ILP32 5 small_world ≠ Fault f w') ∧
  world_wf (outcome_world (@increase_memory_usage ILP32 5 small_world)) ∧
  world_later small_world (outcome_world (@increase_memory_usage ILP32 5 small_world)) ∧
  heap_extends (w_heap small_world)
    (w_heap (outcome_world (@increase_memory_usage ILP32 5 small_world))).
Proof. apply (@memusage_increase_invariant ILP32 5%nat small_world), initial_world_wf. Defined.

Lemma memusage_main_never_returns_witness :
  @main LP64 6 demo_world = OutOfFuel (idling 6 demo_world) ∧
  new_events demo_world (idling 6 demo_world) =
  [Stdout (ready_line (w_pid demo_world)); Stdout waiting_line; Sleep 60]
    ++ replicate 6 (Sleep 10).
Proof. apply (@memusage_main_never_returns LP64 6%nat demo_world). reflexivity. Defined.

Lemma memusage_main_footprint_witness :
  world_wf (outcome_world (@main LP64 6 demo_world)) ∧
  heap_live_bytes (w_heap (outcome_world (@main LP64 6 demo_world))) =
    heap_live_bytes (w_heap demo_world) + 104857600 ∧
  h_blocks (w_heap (outcome_world (@main LP64 6 demo_world))) !! h_next (w_heap demo_world)
    = Some initial_block ∧
  block_filled initial_block 0.
Proof.
  apply (@memusage_main_footprint LP64 6%nat demo_world);
    [apply initial_world_wf | reflexivity].
Defined.

End MemoryUsage.
