(* ===== verification/WorkerC.v ===== *)
(** * [src/worker.c]: the worker cycle

    [Module Worker] translates [src/worker.c] statement by statement:
    [process_work_item], [process_work] with its [for] loop ([scan]),
    [controller] and [main].

    Two loops are driven by fuel: the rounds of [controller], which never
    ends, and the [for] loop of [process_work], which takes 2560
    iterations (10 MiB in strides of 4096 bytes).

    The definitions come first: the program, then the worlds a cycle goes
    through ([reserved], [processed], [cycle]).  The theorems follow. *)

From S2P Require Import Prelude CInt Memory Exec Preserve.

#[local] Open Scope Z_scope.

Module Worker.

Section Program.
Context {DM : DataModel}.

Definition PAYLOAD_MB : Z := 10.

(** ** [process_work_item]

    The parameter is declared [char *] and the one call passes a [char]:
    the byte read from the payload, [None] when that byte is
    indeterminate.  The model gives the parameter the type of what is
    passed.  The assignment changes the parameter, a local variable, and
    nothing else. *)

Definition process_work_item (work_item : option Z) : M unit :=
  let work_item := Some 0 in
  mret tt.

(** ** [process_work] *)

(** The [for] loop: [i] runs from 0 in strides of 4096 while [i < size]. *)
Definition scan (fuel : nat) (payload : ptr) (size : Z) : M Z :=
  while_ fuel
    (λ i, mret (size_ltb i size))
    (λ i,
       c ← load (ptr_add payload i);
       process_work_item c;;
       stride ← eval_int (int_lit 4096);
       mret (Continue (size_add i (size_of_int stride))))
    (size_of_int 0).

Definition process_work (fuel : nat) (payload : ptr) : M unit :=
  n ← eval_int (mebibytes PAYLOAD_MB);
  let size := size_of_int n in
  printf ("Processing work..." +:+ nl);;
  _ ← scan fuel payload size;
  sleep (uint_of_int 1);;
  mret tt.

(** ** [controller] and [main]

    [fuel] bounds the rounds of [while (1)], [scan_fuel] the iterations of
    the [for] loop in each round. *)

Definition controller (fuel scan_fuel : nat) : M unit :=
  _ ← while_ fuel
    (λ _ : unit, c ← eval_int (int_lit 1); mret (negb (c =? 0)))
    (λ _,
       n ← eval_int (mebibytes PAYLOAD_MB);
       buffer ← malloc (size_mul (size_of_int n) sizeof_char);
       process_work scan_fuel buffer;;
       free buffer;;
       mret (Continue tt))
    tt;
  mret tt.

Definition main (fuel scan_fuel : nat) : M Z :=
  controller fuel scan_fuel;;
  mret 0.

(** ** The worlds a cycle goes through *)

(** The number of iterations of the [for] loop. *)
Definition strides : nat := 2560.

(** The payload as [malloc] returns it: 10 MiB of indeterminate bytes. *)
Definition payload_block : block := Block 10485760 [].

Definition work_line : string := "Processing work..." +:+ nl.

(** The allocator's answer to the request of the next cycle. *)
Definition payload_accepted (w : world) : bool :=
  w_alloc w (w_calls w) (w_heap w) 10485760.

(** The world in which [process_work] is called. *)
Definition reserved (w : world) : world :=
  set_heap (heap_add (w_heap w) payload_block) (count_call w).

(** The world in which [process_work] starts its loop. *)
Definition announced (w : world) : world :=
  add_event (Stdout work_line) w.

(** The world in which [process_work] returns. *)
Definition processed (w : world) : world :=
  add_event (Sleep 1) (announced (reserved w)).

(** The world after one cycle: the payload is released. *)
Definition cycle (w : world) : world :=
  set_heap (heap_skip (w_heap w)) (processed w).

(** The world after [n] cycles. *)
Definition cycled (n : nat) (w : world) : world := Nat.iter n cycle w.

(** The allocator accepts the requests of the next [n] cycles. *)
Fixpoint cycles_accepted (n : nat) (w : world) : bool :=
  match n with
  | O => true
  | S k => payload_accepted w && cycles_accepted k (cycle w)
  end.

(** The world in which the worker crashes when a request is refused. *)
Definition crashed (w : world) : world := announced (count_call w).

End Program.

(** A fresh process with an allocator that never refuses, and one whose
    fourth request fails. *)
Definition demo_world : world := initial_world willing 9.
Definition failing_world : world := initial_world (refusing_call 3) 9.

Section Theorems.
Context {DM : DataModel}.

(** ** The [for] loop *)

Lemma stride_iter (j : nat) : Nat.iter j (λ i, i + 4096) 0 = 4096 * Z.of_nat j.
Proof. induction j as [|j IH]; [done|]. rewrite Nat.iter_succ, IH. lia. Qed.

Lemma size_of_int_0 : size_of_int 0 = 0.
Proof. by apply size_of_int_nonneg. Qed.

(** One iteration at the offset [i] of a block that holds it. *)
Lemma scan_body_ok b blk i w :
  h_blocks (w_heap w) !! b = Some blk → 0 <= i < b_size blk → i < 10485760 →
  (c ← load (ptr_add (Ptr b 0) i);
   process_work_item c;;
   stride ← eval_int (int_lit 4096);
   mret (Continue (size_add i (size_of_int stride)))) w
  = Ok (Continue (i + 4096)) w.
Proof.
  intros E Hi Hs. simpl ptr_add.
  rewrite (bind_Ok _ _ _ _ _ (load_in_block _ _ _ _ E Hi)).
  unfold process_work_item. mstep.
  change (eval_int (int_lit 4096)) with (mret (M := M) 4096). rewrite bind_ret_run.
  rewrite (size_of_int_nonneg 4096) by done.
  rewrite size_add_nowrap; [done | lia | lia |].
  pose proof size_modulus_lower. lia.
Qed.

(** The first [k] iterations on a block that holds their offsets leave the
    world as it is. *)
Lemma scan_steps b blk k fuel w :
  h_blocks (w_heap w) !! b = Some blk →
  4096 * Z.of_nat k < b_size blk + 4096 → (k <= strides)%nat →
  scan (k + fuel) (Ptr b 0) 10485760 w =
  while_ fuel
    (λ i, mret (size_ltb i 10485760))
    (λ i,
       c ← load (ptr_add (Ptr b 0) i);
       process_work_item c;;
       stride ← eval_int (int_lit 4096);
       mret (Continue (size_add i (size_of_int stride))))
    (4096 * Z.of_nat k) w.
Proof.
  intros E Hsz Hk. unfold scan, strides in *. rewrite size_of_int_0, <- stride_iter.
  apply while_iter. intros j Hj. rewrite Nat.iter_succ, !stride_iter. split.
  - unfold mret, M_ret. f_equal. apply size_ltb_lt. lia.
  - by rewrite (scan_body_ok b blk) by (done || lia).
Qed.

(** On a block of at least 10 MiB the loop ends after 2560 iterations. *)
Lemma scan_payload b blk fuel w :
  h_blocks (w_heap w) !! b = Some blk → 10485760 <= b_size blk →
  scan (strides + fuel) (Ptr b 0) 10485760 w = Ok 10485760 w.
Proof.
  intros E Hsz. rewrite (scan_steps b blk) by (done || unfold strides; lia).
  by apply while_false.
Qed.

Lemma scan_stopped b blk k w :
  h_blocks (w_heap w) !! b = Some blk → 10485760 <= b_size blk → (k < strides)%nat →
  scan k (Ptr b 0) 10485760 w = OutOfFuel w.
Proof.
  intros E Hsz Hk. unfold strides in *. rewrite <- (Nat.add_0_r k).
  rewrite (scan_steps b blk) by (done || unfold strides; lia).
  apply while_out_of_fuel. unfold mret, M_ret. f_equal. apply size_ltb_lt. lia.
Qed.

(** Through the null pointer the first iteration faults. *)
Lemma scan_null fuel w : scan (S fuel) Null 10485760 w = Fault NullDeref w.
Proof. unfold scan. by rewrite size_of_int_0. Qed.

(** On a block too short for the last stride the loop reads past its
    end. *)
Lemma scan_short b blk fuel w :
  h_blocks (w_heap w) !! b = Some blk → 0 <= b_size blk <= 10481664 →
  scan (S (Z.to_nat (cdiv (b_size blk) 4096)) + fuel) (Ptr b 0) 10485760 w
  = Fault OutOfBounds w.
Proof.
  intros E Hsz. set (k := Z.to_nat (cdiv (b_size blk) 4096)).
  pose proof (cdiv_upper 4096 ltac:(done) (b_size blk)).
  pose proof (cdiv_lower 4096 ltac:(done) (b_size blk)).
  assert (Z.of_nat k = cdiv (b_size blk) 4096) as Ek by (unfold k; lia).
  replace (S k + fuel)%nat with (k + S fuel)%nat by lia.
  rewrite (scan_steps b blk) by (done || unfold strides; lia).
  rewrite while_unfold, bind_ret_run.
  rewrite (proj2 (size_ltb_lt _ _)) by lia. simpl ptr_add.
  do 2 (erewrite bind_Fault; [done|]). apply (load_out_of_bounds _ _ blk); [done | lia].
Qed.

(** ** [process_work] *)

Lemma process_work_ok b blk fuel w :
  h_blocks (w_heap w) !! b = Some blk → 10485760 <= b_size blk →
  process_work (strides + fuel) (Ptr b 0) w = Ok tt (add_event (Sleep 1) (announced w)).
Proof.
  intros E Hsz. unfold process_work.
  change (eval_int (mebibytes PAYLOAD_MB)) with (mret (M := M) 10485760).
  rewrite bind_ret_run. cbv zeta. rewrite (size_of_int_nonneg 10485760) by done. mstep.
  by rewrite (bind_Ok _ _ _ _ _ (scan_payload b blk fuel (announced w) E Hsz)).
Qed.

Lemma process_work_stopped b blk k w :
  h_blocks (w_heap w) !! b = Some blk → 10485760 <= b_size blk → (k < strides)%nat →
  process_work k (Ptr b 0) w = OutOfFuel (announced w).
Proof.
  intros E Hsz Hk. unfold process_work.
  change (eval_int (mebibytes PAYLOAD_MB)) with (mret (M := M) 10485760).
  rewrite bind_ret_run. cbv zeta. rewrite (size_of_int_nonneg 10485760) by done. mstep.
  by rewrite (bind_OutOfFuel _ _ _ _ (scan_stopped b blk k (announced w) E Hsz Hk)).
Qed.

Lemma process_work_null fuel w :
  process_work (S fuel) Null w = Fault NullDeref (announced w).
Proof.
  unfold process_work.
  change (eval_int (mebibytes PAYLOAD_MB)) with (mret (M := M) 10485760).
  rewrite bind_ret_run. cbv zeta. rewrite (size_of_int_nonneg 10485760) by done. mstep.
  by rewrite (bind_Fault _ _ _ _ _ (scan_null fuel (announced w))).
Qed.

Lemma process_work_short b blk fuel w :
  h_blocks (w_heap w) !! b = Some blk → 0 <= b_size blk <= 10481664 →
  process_work (S (Z.to_nat (cdiv (b_size blk) 4096)) + fuel) (Ptr b 0) w
  = Fault OutOfBounds (announced w).
Proof.
  intros E Hsz. unfold process_work.
  change (eval_int (mebibytes PAYLOAD_MB)) with (mret (M := M) 10485760).
  rewrite bind_ret_run. cbv zeta. rewrite (size_of_int_nonneg 10485760) by done. mstep.
  by rewrite (bind_Fault _ _ _ _ _ (scan_short b blk fuel (announced w) E Hsz)).
Qed.

(** ** One round of [controller] *)

#[local] Abbreviation idle_cond :=
  (λ _ : unit, c ← eval_int (int_lit 1); mret (M := M) (negb (c =? 0))).

#[local] Abbreviation round scan_fuel :=
  (λ _ : unit,
     n ← eval_int (mebibytes PAYLOAD_MB);
     buffer ← malloc (size_mul (size_of_int n) sizeof_char);
     process_work scan_fuel buffer;;
     free buffer;;
     mret (M := M) (Continue tt)).

Lemma payload_size : size_mul (size_of_int 10485760) sizeof_char = 10485760.
Proof.
  rewrite (size_of_int_nonneg 10485760) by done. apply size_mul_sizeof_char.
  pose proof size_modulus_lower. unfold is_size. lia.
Qed.

Lemma round_accepted scan_fuel w :
  world_wf w → (strides <= scan_fuel)%nat → payload_accepted w = true →
  round scan_fuel tt w = Ok (Continue tt) (cycle w).
Proof.
  intros Hwf Hs Ha. cbv beta.
  change (eval_int (mebibytes PAYLOAD_MB)) with (mret (M := M) 10485760).
  rewrite bind_ret_run, payload_size.
  rewrite (bind_Ok _ _ _ _ _ (malloc_ok _ _ Ha)).
  replace scan_fuel with (strides + (scan_fuel - strides))%nat by lia.
  erewrite bind_Ok; [|by apply (process_work_ok _ payload_block); [apply lookup_insert_eq|]].
  erewrite bind_Ok; [done|]. by apply (free_added _ payload_block).
Qed.

Lemma round_refused scan_fuel w :
  (0 < scan_fuel)%nat → payload_accepted w = false →
  round scan_fuel tt w = Fault NullDeref (crashed w).
Proof.
  intros Hs Ha. cbv beta.
  change (eval_int (mebibytes PAYLOAD_MB)) with (mret (M := M) 10485760).
  rewrite bind_ret_run, payload_size.
  rewrite (bind_Ok _ _ _ _ _ (malloc_refused _ _ Ha)).
  destruct scan_fuel as [|n]; [lia|].
  by rewrite (bind_Fault _ _ _ _ _ (process_work_null n _)).
Qed.

(** ** The worlds after [n] cycles *)

Lemma cycle_wf w : world_wf w → world_wf (cycle w).
Proof. apply heap_skip_wf. Qed.

Lemma cycled_wf n w : world_wf w → world_wf (cycled n w).
Proof. intros. induction n; [done|]. by apply cycle_wf. Qed.

Lemma cycled_S n w : cycled (S n) w = cycled n (cycle w).
Proof. apply Nat.iter_succ_r. Qed.

Lemma cycled_blocks n w : h_blocks (w_heap (cycled n w)) = h_blocks (w_heap w).
Proof. induction n; [done|]. by simpl. Qed.

Lemma cycled_next n w :
  Z.pos (h_next (w_heap (cycled n w))) = Z.pos (h_next (w_heap w)) + Z.of_nat n.
Proof.
  induction n as [|n IH]; [simpl; lia|].
  change (h_next (w_heap (cycled (S n) w))) with (Pos.succ (h_next (w_heap (cycled n w)))).
  lia.
Qed.

Lemma cycled_live_bytes n w :
  heap_live_bytes (w_heap (cycled n w)) = heap_live_bytes (w_heap w).
Proof. unfold heap_live_bytes. by rewrite cycled_blocks. Qed.

Lemma cycled_calls n w : w_calls (cycled n w) = (w_calls w + n)%nat.
Proof. induction n as [|n IH]; simpl; lia. Qed.

Lemma cycled_out n w :
  w_out (cycled n w) = w_out w ++ concat (replicate n [Stdout work_line; Sleep 1]).
Proof.
  induction n as [|n IH]; [by rewrite app_nil_r|].
  change (w_out (cycled (S n) w)) with ((w_out (cycled n w) ++ [Stdout work_line]) ++ [Sleep 1]).
  rewrite IH, <- !app_assoc. f_equal.
  change (concat (replicate (S n) ?l)) with (l ++ concat (replicate n l)).
  by rewrite concat_replicate_comm.
Qed.

Lemma cycled_later n w : world_later w (cycled n w).
Proof.
  split; [|split; [|split; [|split]]].
  - rewrite cycled_out. by apply prefix_app_r.
  - rewrite cycled_calls. lia.
  - induction n; [done|]. by simpl.
  - induction n; [done|]. by simpl.
  - pose proof (cycled_next n w). lia.
Qed.

(** ** The rounds of [controller] *)

Lemma controller_rounds n fuel scan_fuel w :
  world_wf w → (strides <= scan_fuel)%nat → cycles_accepted n w = true →
  while_ (n + fuel) idle_cond (round scan_fuel) tt w =
  while_ fuel idle_cond (round scan_fuel) tt (cycled n w).
Proof.
  intros Hwf Hs. revert w Hwf. induction n as [|n IH]; intros w Hwf Ha; [done|].
  simpl in Ha. apply andb_true_iff in Ha as [Ha Hn].
  change (S n + fuel)%nat with (S (n + fuel)).
  rewrite (while_continue _ idle_cond (round scan_fuel) tt w w tt (cycle w) eq_refl
             (round_accepted _ _ Hwf Hs Ha)), cycled_S.
  by apply IH; [apply cycle_wf|].
Qed.

Lemma controller_cases n scan_fuel w :
  world_wf w → (strides <= scan_fuel)%nat → cycles_accepted n w = true →
  controller n scan_fuel w = OutOfFuel (cycled n w).
Proof.
  intros Hwf Hs Ha. unfold controller. erewrite bind_OutOfFuel; [done|].
  pose proof (controller_rounds n 0 scan_fuel w Hwf Hs Ha) as H.
  rewrite Nat.add_0_r in H. by rewrite H.
Qed.

Lemma controller_crash k fuel scan_fuel w :
  world_wf w → (strides <= scan_fuel)%nat →
  cycles_accepted k w = true → payload_accepted (cycled k w) = false →
  controller (S k + fuel) scan_fuel w = Fault NullDeref (crashed (cycled k w)).
Proof.
  intros Hwf Hs Ha Hr. unfold controller. erewrite bind_Fault; [done|].
  replace (S k + fuel)%nat with (k + S fuel)%nat by lia.
  rewrite controller_rounds by done.
  apply (while_fault _ idle_cond (round scan_fuel) tt _ _ _ _ eq_refl).
  apply round_refused; [unfold strides in Hs; lia | done].
Qed.

Lemma round_never_breaks scan_fuel s w s' w' :
  round scan_fuel s w ≠ Ok (Break s') w'.
Proof.
  intros (n & w1 & _ & H)%bind_Ok_inv. apply bind_Ok_inv in H as (p & w2 & _ & H).
  apply bind_Ok_inv in H as (? & w3 & _ & H). by apply bind_Ok_inv in H as (? & w4 & _ & H).
Qed.

Lemma controller_never_ok fuel scan_fuel w r w' : controller fuel scan_fuel w ≠ Ok r w'.
Proof.
  intros (? & w1 & H & _)%bind_Ok_inv.
  eapply (while_never_returns idle_cond (round scan_fuel)); [| |exact H]; [done|].
  intros s. intros. apply (round_never_breaks scan_fuel s).
Qed.

(** ** What every run keeps *)

Lemma process_work_heap_kept fuel p : preserves heap_kept (process_work fuel p).
Proof. unfold process_work, scan, process_work_item, printf, sleep. solve_preserves. Qed.




(** ** Theorems on the worker *)

(** C3 (invariant).  As long as the allocator accepts the payload, the
    worker cycles for ever: after [n] rounds [controller] is still
    running, the heap holds the blocks it held before the first round and
    the footprint is back at its baseline, and each round has printed
    "Processing work..." and slept one second. *)
Theorem worker_returns_to_baseline n scan_fuel w :
  world_wf w → (strides <= scan_fuel)%nat → cycles_accepted n w = true →
  controller n scan_fuel w = OutOfFuel (cycled n w) ∧
  h_blocks (w_heap (cycled n w)) = h_blocks (w_heap w) ∧
  heap_live_bytes (w_heap (cycled n w)) = heap_live_bytes (w_heap w) ∧
  new_events w (cycled n w) = concat (replicate n [Stdout work_line; Sleep 1]).
Proof.
  intros Hwf Hs Ha. split_and!.
  - by apply controller_cases.
  - apply cycled_blocks.
  - apply cycled_live_bytes.
  - apply new_events_app, cycled_out.
Qed.

(** C4 (error).  [controller] does not test what [malloc] returns.  When
    the allocator refuses the payload of a round, [process_work] prints
    its line and then reads through the null pointer: the worker stops
    with a fault, in the first iteration of the scan. *)
Theorem worker_null_dereference k fuel scan_fuel w :
  world_wf w → (strides <= scan_fuel)%nat →
  cycles_accepted k w = true → payload_accepted (cycled k w) = false →
  controller (S k + fuel) scan_fuel w = Fault NullDeref (crashed (cycled k w)) ∧
  last (w_out (crashed (cycled k w))) = Some (Stdout work_line) ∧
  heap_live_bytes (w_heap (crashed (cycled k w))) = heap_live_bytes (w_heap w).
Proof.
  intros Hwf Hs Ha Hr. split_and!.
  - by apply controller_crash.
  - apply last_snoc.
  - apply cycled_live_bytes.
Qed.

(** C13 (liveness).  Neither [controller] nor [main] ever returns, for any
    allocator and any fuel: a run is stopped by the fuel or by a fault,
    and [return 0] is never reached. *)
Theorem worker_never_returns fuel scan_fuel w w' :
  (∀ r, controller fuel scan_fuel w ≠ Ok r w') ∧ (∀ r, main fuel scan_fuel w ≠ Ok r w').
Proof.
  split; intros r.
  - apply controller_never_ok.
  - intros ([] & w1 & H & _)%bind_Ok_inv. by apply controller_never_ok in H.
Qed.

(** C14 (functional).  During a round the footprint is 10 MiB above the
    baseline: [process_work], called on the payload that [malloc] has just
    returned, needs exactly 2560 iterations of its loop, returns with the
    payload still reserved, and has written nothing to it: every byte of
    the payload is still indeterminate. *)
Theorem worker_round_footprint fuel w :
  world_wf w →
  process_work (strides + fuel) (Ptr (h_next (w_heap w)) 0) (reserved w) = Ok tt (processed w) ∧
  process_work (strides - 1) (Ptr (h_next (w_heap w)) 0) (reserved w)
    = OutOfFuel (announced (reserved w)) ∧
  heap_live_bytes (w_heap (processed w)) = heap_live_bytes (w_heap w) + 10485760 ∧
  h_blocks (w_heap (processed w)) !! h_next (w_heap w) = Some payload_block ∧
  block_untouched payload_block.
Proof.
  intros Hwf. split_and!.
  - by apply (process_work_ok _ payload_block); [apply lookup_insert_eq|].
  - by apply (process_work_stopped _ payload_block); [apply lookup_insert_eq| |unfold strides; lia].
  - by apply heap_add_live_bytes.
  - apply lookup_insert_eq.
  - apply block_fresh_untouched.
Qed.

(** C32 (safety).  [process_work] only reads: for every payload pointer,
    fuel and world, and in every outcome, the heap it stops in is the heap
    it started in.  The per-item step is a no-op on the buffer. *)
Theorem worker_process_work_reads_only fuel p w :
  w_heap (outcome_world (process_work fuel p w)) = w_heap w.
Proof. apply process_work_heap_kept. Qed.

(** C33 (error).  [process_work] assumes a payload of 10 MiB.  On a live
    block of at most 10481664 bytes (2559 strides) the scan reads past the
    end of the block, and through the null pointer it faults at once. *)
Theorem worker_payload_too_short b blk fuel w :
  h_blocks (w_heap w) !! b = Some blk → 0 <= b_size blk <= 10481664 →
  process_work (S (Z.to_nat (cdiv (b_size blk) 4096)) + fuel) (Ptr b 0) w
    = Fault OutOfBounds (announced w) ∧
  process_work (S fuel) Null w = Fault NullDeref (announced w).
Proof. intros E Hsz. split; [by apply process_work_short | apply process_work_null]. Qed.



End Theorems.

(** ** The theorems at concrete worlds *)

Lemma worker_returns_to_baseline_witness :
  @controller LP64 3 2560 demo_world = OutOfFuel (cycled 3 demo_world) ∧
  h_blocks (w_heap (cycled 3 demo_world)) = h_blocks (w_heap demo_world) ∧
  heap_live_bytes (w_heap (cycled 3 demo_world)) = heap_live_bytes (w_heap demo_world) ∧
  new_events demo_world (cycled 3 demo_world)
    = concat (replicate 3 [Stdout work_line; Sleep 1]).
Proof.
  apply (@worker_returns_to_baseline LP64 3%nat 2560%nat demo_world);
    [apply initial_world_wf | unfold strides; lia | reflexivity].
Defined.

Lemma worker_null_dereference_witness :
  @controller LP64 (4 + 0) 2560 failing_world
    = Fault NullDeref (crashed (cycled 3 failing_world)) ∧
  last (w_out (crashed (cycled 3 failing_world))) = Some (Stdout work_line) ∧
  heap_live_bytes (w_heap (crashed (cycled 3 failing_world)))
    = heap_live_bytes (w_heap failing_world).
Proof.
  apply (@worker_null_dereference LP64 3%nat 0%nat 2560%nat failing_world);
    [apply initial_world_wf | unfold strides; lia | reflexivity | reflexivity].
Defined.

Lemma worker_round_footprint_witness :
  @process_work LP64 (strides + 0) (Ptr (h_next (w_heap demo_world)) 0) (reserved demo_world)
    = Ok tt (processed demo_world) ∧
  @process_work LP64 (strides - 1) (Ptr (h_next (w_heap demo_world)) 0) (reserved demo_world)
    = OutOfFuel (announced (reserved demo_world)) ∧
  heap_live_bytes (w_heap (processed demo_world))
    = heap_live_bytes (w_heap demo_world) + 10485760 ∧
  h_blocks (w_heap (processed demo_world)) !! h_next (w_heap demo_world)
    = Some payload_block ∧
  block_untouched payload_block.
Proof. apply (@worker_round_footprint LP64 0%nat demo_world), initial_world_wf. Defined.

Lemma worker_payload_too_short_witness :
  @process_work LP64 (S (Z.to_nat (cdiv 8192 4096)) + 0) (Ptr 1 0)
      (set_heap (heap_add heap_empty (Block 8192 [])) demo_world)
    = Fault OutOfBounds (announced (set_heap (heap_add heap_empty (Block 8192 [])) demo_world)) ∧
  @process_work LP64 1 Null (set_heap (heap_add heap_empty (Block 8192 [])) demo_world)
    = Fault NullDeref (announced (set_heap (heap_add heap_empty (Block 8192 [])) demo_world)).
Proof.
  apply (@worker_payload_too_short LP64 1%positive (Block 8192 []) 0%nat
           (set_heap (heap_add heap_empty (Block 8192 [])) demo_world));
    [reflexivity | simpl; lia].
Defined.


End Worker.
