(* ===== verification/Refinement.v ===== *)
(** * The programs and the specification

    [src/app.c] and [src/memory_usage_program.c] are the Simulator of the
    specification run on two simulations, [app_simulation] and
    [usage_simulation], both with growth disabled: their [main]
    functions are instances of [Simulated], and so refine the phase
    machine.  The growth phase that the sources keep as dead code,
    [start_memory_leak] and [increase_memory_usage], is the growth step of
    [run] on the same simulations with growth enabled; the last theorems
    say what a run with growth enabled does. *)

From S2P Require Import Prelude CInt Memory Exec Preserve Growth Simulator Phases.
From S2P Require Import AppC MemoryUsageC.

#[local] Open Scope Z_scope.

(** ** The simulations of the two programs *)

(** [src/app.c]: the target is the initial size plus [LEAK_MEMORY_MB], and
    the progress line reports what was leaked, the total less the initial
    size. *)
Definition app_simulation : Simulation := {|
  sim_plan := {|
    initial_size_bytes := App.INITIAL_MEMORY_MB * 1048576;
    target_size_bytes := (App.INITIAL_MEMORY_MB + App.LEAK_MEMORY_MB) * 1048576;
    step_size_bytes := App.LEAK_CHUNK_MB * 1048576;
    step_interval := App.SLEEP_INTERVAL_SEC;
    startup_delay := App.DELAY_BEFORE_LEAK_SEC;
    growth_enabled := false
  |};
  sim_idle_interval := 10;
  sim_start_failure := App.start_failure_line;
  sim_ready := App.ready_line;
  sim_waiting := App.waiting_line;
  sim_growth_failure := App.leak_failure_line;
  sim_progress := λ total, App.leak_progress_line (total - App.INITIAL_MEMORY_MB * 1048576)
|}.

(** [src/memory_usage_program.c]. *)
Definition usage_simulation : Simulation := {|
  sim_plan := MemoryUsage.usage_plan;
  sim_idle_interval := 10;
  sim_start_failure := MemoryUsage.start_failure_line;
  sim_ready := MemoryUsage.ready_line;
  sim_waiting := MemoryUsage.waiting_line;
  sim_growth_failure := MemoryUsage.usage_failure_line;
  sim_progress := MemoryUsage.usage_progress_line
|}.

(** The two programs with the call of their growth function in place:
    the same simulations with growth enabled. *)
Definition app_enabled : Simulation := with_growth true app_simulation.
Definition usage_enabled : Simulation := with_growth true usage_simulation.

(** A fresh process whose allocator never refuses. *)
Definition fresh_world : world := initial_world willing 31337.

(** ** The programs are simulators *)

Section Programs.
Context {DM : DataModel}.

Lemma app_main_run fuel_grow fuel w :
  App.main fuel w = run app_simulation fuel_grow fuel w.
Proof. by rewrite App.main_cases, run_disabled. Qed.

Lemma usage_main_run fuel_grow fuel w :
  MemoryUsage.main fuel w = run usage_simulation fuel_grow fuel w.
Proof. by rewrite MemoryUsage.usage_main_cases, run_disabled. Qed.

#[export] Instance app_simulated : Simulated App.main :=
  {| simulation := app_simulation; growth_fuel := 0; main_run := app_main_run 0 |}.

#[export] Instance usage_simulated : Simulated MemoryUsage.main :=
  {| simulation := usage_simulation; growth_fuel := 0; main_run := usage_main_run 0 |}.

Lemma app_nowrap :
  target_size_bytes (sim_plan app_simulation) + step_size_bytes (sim_plan app_simulation)
  <= size_modulus.
Proof.
  pose proof size_modulus_lower.
  change (target_size_bytes _ + step_size_bytes _) with 1189085184. lia.
Qed.

Lemma usage_sim_nowrap :
  target_size_bytes (sim_plan usage_simulation) + step_size_bytes (sim_plan usage_simulation)
  <= size_modulus.
Proof. apply MemoryUsage.usage_nowrap. Qed.

(** C28 (refinement).  [main] of [src/app.c] is the Simulator run on
    [app_simulation], a valid plan with growth disabled: on every world
    and for every fuel the two have the same outcome. *)
Theorem app_main_refines_simulator fuel_grow fuel w :
  App.main fuel w = run app_simulation fuel_grow fuel w ∧
  plan_valid (sim_plan app_simulation) ∧
  growth_enabled (sim_plan app_simulation) = false.
Proof. split_and!; [apply app_main_run | by split | done]. Qed.

(** C29 (refinement).  [main] of [src/memory_usage_program.c] is the
    Simulator run on [usage_simulation], a valid plan with growth
    disabled. *)
Theorem memusage_main_refines_simulator fuel_grow fuel w :
  MemoryUsage.main fuel w = run usage_simulation fuel_grow fuel w ∧
  plan_valid (sim_plan usage_simulation) ∧
  growth_enabled (sim_plan usage_simulation) = false.
Proof. split_and!; [apply usage_main_run | by split | done]. Qed.

(** C11 (refinement).  [main] of [src/app.c] refines the phase machine:
    for every allocator and every fuel, either it has exited with status
    1 on the machine's exit, or its events are the labels of a path of the
    machine from the starting phase and its footprint has grown by the
    size of the state the path ends in. *)
Theorem app_main_refines_phases fuel w :
  run_refined app_simulation w (App.main fuel w).
Proof.
  change app_simulation with (simulation App.main).
  apply simulated_refines; [done | done | apply app_nowrap].
Qed.

(** C12 (refinement).  [main] of [src/memory_usage_program.c] refines the
    phase machine in the same way. *)
Theorem memusage_main_refines_phases fuel w :
  run_refined usage_simulation w (MemoryUsage.main fuel w).
Proof.
  change usage_simulation with (simulation MemoryUsage.main).
  apply simulated_refines; [done | done | apply usage_sim_nowrap].
Qed.

(** ** The growth phase that the sources keep disabled *)

(** C26 (equivalence).  [start_memory_leak] is the growth phase of the
    Simulator on [app_simulation] with growth enabled: the leak loop
    counts from 0 what the Simulator counts from the initial size. *)
Theorem app_leak_is_growth_phase fuel w :
  App.start_memory_leak fuel w = growth app_enabled fuel w.
Proof.
  rewrite (App.start_memory_leak_grow fuel w). symmetry.
  apply (grow_shift App.leak_plan (sim_plan app_enabled)
           _ _ _ 104857600 fuel 0 w); try done.
  - intros t. change (App.leak_progress_line (t + 104857600 - 104857600) = App.leak_progress_line t).
    f_equal. lia.
  - pose proof size_modulus_lower.
    change (target_size_bytes App.leak_plan + 104857600 + step_size_bytes App.leak_plan)
      with 1189085184. lia.
Qed.


(** ** A run with growth enabled *)

Lemma enabled_trace (s : Simulation) k n w :
  stdout_of (new_events w (run_grown s k n w)) =
    [sim_ready s (w_pid w); sim_waiting s]
    ++ ((λ j, sim_progress s (initial_size_bytes (sim_plan s)
                              + Z.of_nat (S j) * step_size_bytes (sim_plan s))) <$> seq 0 k) ∧
  stderr_of (new_events w (run_grown s k n w)) = [] ∧
  slept (new_events w (run_grown s k n w)) =
    startup_delay (sim_plan s) + Z.of_nat k * step_interval (sim_plan s)
    + Z.of_nat n * sim_idle_interval s.
Proof.
  rewrite (new_events_app _ _ _ (run_grown_out s k n w)).
  rewrite !stdout_of_app, !stderr_of_app, !slept_app.
  rewrite stdout_step_events, stderr_step_events, slept_step_events.
  rewrite stdout_idle_events, stderr_idle_events, slept_idle_events, app_nil_r.
  split_and!; [done | done | simpl; lia].
Qed.

(** C25 (functional).  With the call of [increase_memory_usage] in place
    and an allocator that accepts every request, the program reserves the
    initial 100 MiB, prints the readiness lines, waits 60 s, grows in 103
    steps, reporting 110 MB up to 1130 MB, and then idles: neither the
    growth nor the idling writes to [stderr], and the footprint while it
    idles is 1130 MiB. *)
Theorem memusage_run_with_growth fuel n w :
  world_wf w → run_all_accepted usage_enabled w = true →
  run usage_enabled (103 + fuel) n w = OutOfFuel (run_grown usage_enabled 103 n w) ∧
  stdout_of (new_events w (run_grown usage_enabled 103 n w)) =
    [MemoryUsage.ready_line (w_pid w); MemoryUsage.waiting_line]
    ++ ((λ j, "Total memory allocated: " +:+ pretty (100 + 10 * Z.of_nat (S j))
              +:+ " MB" +:+ nl) <$> seq 0 103) ∧
  stderr_of (new_events w (run_grown usage_enabled 103 n w)) = [] ∧
  slept (new_events w (run_grown usage_enabled 103 n w)) = 163 + 10 * Z.of_nat n ∧
  heap_live_bytes (w_heap (run_grown usage_enabled 103 n w)) =
    heap_live_bytes (w_heap w) + 1184890880.
Proof.
  intros Hwf Ha. destruct (enabled_trace usage_enabled 103 n w) as (Eo & Ee & Es).
  split_and!.
  - apply (run_enabled usage_enabled); [done | done | apply usage_sim_nowrap | done | done |].
    change (steps_needed _ _) with 103%nat. lia.
  - rewrite Eo. apply (f_equal (app _)),  list_fmap_ext. intros _ j _.
    apply (MemoryUsage.usage_progress_line_steps (Z.of_nat (S j))).
  - done.
  - rewrite Es. change (startup_delay _) with 60. change (step_interval _) with 1.
    change (sim_idle_interval _) with 10. lia.
  - rewrite run_grown_live_bytes by done. change (initial_size_bytes _) with 104857600.
    change (step_size_bytes _) with 10485760. lia.
Qed.

(** C24 (functional).  With the call of [start_memory_leak] in place and
    an allocator that accepts every request, [src/app.c] grows in 103
    chunks, reporting "Leaked 10 MB of memory" up to "Leaked 1030 MB of
    memory", and then idles with a footprint of 1130 MiB: the 100 MiB of
    the start and 1030 MiB leaked. *)
Theorem app_run_with_leak fuel n w :
  world_wf w → run_all_accepted app_enabled w = true →
  run app_enabled (103 + fuel) n w = OutOfFuel (run_grown app_enabled 103 n w) ∧
  stdout_of (new_events w (run_grown app_enabled 103 n w)) =
    [App.ready_line (w_pid w); App.waiting_line]
    ++ ((λ j, "Leaked " +:+ pretty (10 * Z.of_nat (S j)) +:+ " MB of memory" +:+ nl)
          <$> seq 0 103) ∧
  stderr_of (new_events w (run_grown app_enabled 103 n w)) = [] ∧
  slept (new_events w (run_grown app_enabled 103 n w)) = 163 + 10 * Z.of_nat n ∧
  heap_live_bytes (w_heap (run_grown app_enabled 103 n w)) =
    heap_live_bytes (w_heap w) + 1184890880.
Proof.
  intros Hwf Ha. destruct (enabled_trace app_enabled 103 n w) as (Eo & Ee & Es).
  split_and!.
  - apply (run_enabled app_enabled); [done | done | apply app_nowrap | done | done |].
    change (steps_needed _ _) with 103%nat. lia.
  - rewrite Eo. apply (f_equal (app _)), list_fmap_ext. intros _ j _.
    rewrite <- (App.leak_progress_line_chunks (Z.of_nat (S j))).
    change (App.leak_progress_line (104857600 + Z.of_nat (S j) * 10485760 - 104857600)
            = App.leak_progress_line (0 + Z.of_nat (S j) * 10485760)).
    f_equal. lia.
  - done.
  - rewrite Es. change (startup_delay _) with 60. change (step_interval _) with 1.
    change (sim_idle_interval _) with 10. lia.
  - rewrite run_grown_live_bytes by done. change (initial_size_bytes _) with 104857600.
    change (step_size_bytes _) with 10485760. lia.
Qed.

End Programs.

(** ** The theorems at a concrete world *)

Lemma memusage_run_with_growth_witness :
  @run LP64 usage_enabled (103 + 0) 4 fresh_world
    = OutOfFuel (run_grown usage_enabled 103 4 fresh_world) ∧
  stdout_of (new_events fresh_world (run_grown usage_enabled 103 4 fresh_world)) =
    [MemoryUsage.ready_line (w_pid fresh_world); MemoryUsage.waiting_line]
    ++ ((λ j, "Total memory allocated: " +:+ pretty (100 + 10 * Z.of_nat (S j))
              +:+ " MB" +:+ nl) <$> seq 0 103) ∧
  stderr_of (new_events fresh_world (run_grown usage_enabled 103 4 fresh_world)) = [] ∧
  slept (new_events fresh_world (run_grown usage_enabled 103 4 fresh_world))
    = 163 + 10 * Z.of_nat 4 ∧
  heap_live_bytes (w_heap (run_grown usage_enabled 103 4 fresh_world)) =
    heap_live_bytes (w_heap fresh_world) + 1184890880.
Proof.
  apply (@memusage_run_with_growth LP64 0%nat 4%nat fresh_world);
    [apply initial_world_wf | by vm_compute].
Defined.

Lemma app_run_with_leak_witness :
  @run LP64 app_enabled (103 + 0) 4 fresh_world
    = OutOfFuel (run_grown app_enabled 103 4 fresh_world) ∧
  stdout_of (new_events fresh_world (run_grown app_enabled 103 4 fresh_world)) =
    [App.ready_line (w_pid fresh_world); App.waiting_line]
    ++ ((λ j, "Leaked " +:+ pretty (10 * Z.of_nat (S j)) +:+ " MB of memory" +:+ nl)
          <$> seq 0 103) ∧
  stderr_of (new_events fresh_world (run_grown app_enabled 103 4 fresh_world)) = [] ∧
  slept (new_events fresh_world (run_grown app_enabled 103 4 fresh_world))
    = 163 + 10 * Z.of_nat 4 ∧
  heap_live_bytes (w_heap (run_grown app_enabled 103 4 fresh_world)) =
    heap_live_bytes (w_heap fresh_world) + 1184890880.
Proof.
  apply (@app_run_with_leak LP64 0%nat 4%nat fresh_world);
    [apply initial_world_wf | by vm_compute].
Defined.
